(** * BaseGasOptimizer: gas pricing, buffered estimation, batching, statistics

    A shallow embedding of the [BaseGasOptimizer] class of the toolkit and
    the properties of its operations.

    Conventions of the embedding.
    - An ethers [BigNumber] is an unbounded integer, [Z].  [mul] is integer
      multiplication, [div] truncates towards zero and throws on a zero
      divisor, [gt] is the strict order.  A JavaScript number given where a
      BigNumber is expected goes through [BigNumber.from], which throws
      unless the number is a whole number strictly between [-(2^53 - 1)]
      and [2^53 - 1].
    - A JavaScript number that the code computes with (the gas buffer, the
      sums, means and percentage of the statistics) is an IEEE-754 double,
      a primitive [float]: products, sums and quotients round as the
      hardware does, [parseInt] rounds to the nearest double, and [NaN] and
      the infinities are values.
    - The congestion ratio is only ever a whole number read back from a
      BigNumber or the constant [0.5], and it is only compared with [0.8]
      and [0.3]; it is kept as the rational it denotes ([Q]).
    - A JavaScript object is a finite map from property names to values.
    - An [async] method is a computation over the state of the world (the
      optimizer instance, the console, the clock) that either returns a value
      or throws; [await] is sequencing; [try]/[catch] is [try_catch].  For
      [Promise.all], where several calls are in flight at once, the same
      methods are also written as resumable programs that stop at every
      [await]; a schedule picks the call that resumes next.
    - The RPC provider is an interface: every call answers with a value or a
      failure and moves the provider to a new state, so that two successive
      calls may answer differently. *)

From Stdlib Require Import ZArith QArith Qabs Qround Lia List Ascii Floats.
From stdpp Require Import base option list strings gmap pretty.

Close Scope Q_scope.
Open Scope Z_scope.

#[local] Set Warnings "-inexact-float".

(** ** Results of fallible operations *)

Inductive Error :=
  | RpcError (msg : string)
  | DivisionByZero
  | TypeError (msg : string)
  | NumericFault (msg : string)
  | InvalidArgument (msg : string).

Inductive Result (A : Type) :=
  | ok (a : A)
  | throw (e : Error).
Arguments ok {A} a.
Arguments throw {A} e.

(** ** IEEE-754 doubles *)

(** The double nearest to an integer (ties to even; an infinity beyond the
    range). *)
Definition float_of_Z (z : Z) : float :=
  SF2Prim (binary_normalize prec emax z 0 false).

(** The rational that a finite double denotes. *)
Definition Q_of_finite (s : bool) (m : positive) (e : Z) : Q :=
  (inject_Z (if s then Z.neg m else Z.pos m) * 2 ^ e)%Q.

(** [Math.floor]: a double whose exponent is not negative is a whole number
    already; otherwise the mantissa is shifted down, towards minus
    infinity.  Infinities, [NaN] and the zeros are returned as they are. *)
Definition Math_floor (x : float) : float :=
  match Prim2SF x with
  | S754_finite s m e =>
      if 0 <=? e then x
      else float_of_Z (Z.shiftr (if s then Z.neg m else Z.pos m) (- e))
  | _ => x
  end.

(** ** ethers BigNumber *)

Module BigNumber.

Definition t := Z.

Definition mul (a b : t) : t := a * b.

Definition div (a b : t) : Result t :=
  if b =? 0 then throw DivisionByZero else ok (Z.quot a b).

Definition gt (a b : t) : bool := b <? a.

(** [ethers.utils.parseUnits(s, 'gwei')] for a whole number of gwei. *)
Definition parseUnits_gwei (n : Z) : t := n * 1000000000.

(** [0x1fffffffffffff] *)
Definition MAX_SAFE : Z := 9007199254740991.

(** [BigNumber.from(value)] for a JavaScript number: a fraction is an
    underflow fault, a magnitude of [MAX_SAFE] or more an overflow fault,
    and [NaN], whose string is not a number, an invalid argument. *)
Definition from_number (value : float) : Result t :=
  match Prim2SF value with
  | S754_nan => throw (InvalidArgument "invalid BigNumber string")
  | S754_infinity _ => throw (NumericFault "overflow")
  | S754_zero _ => ok 0
  | S754_finite s m e =>
      if (e <? 0) && negb (Z.land (Z.pos m) (Z.ones (- e)) =? 0) then
        throw (NumericFault "underflow")
      else
        let v := Z.shiftl (if s then Z.neg m else Z.pos m) e in
        if (MAX_SAFE <=? v) || (v <=? - MAX_SAFE) then
          throw (NumericFault "overflow")
        else ok v
  end.

(** [a.mul(other)] for a JavaScript number [other]. *)
Definition mul_number (a : t) (other : float) : Result t :=
  match from_number other with
  | ok b => ok (mul a b)
  | throw e => throw e
  end.

End BigNumber.

Abbreviation BigNumber := BigNumber.t.

(** ** The congestion ratio *)

Definition number := Q.
Bind Scope Q_scope with number.

Definition number_gt (a b : number) : bool := negb (Qle_bool a b).
Definition number_lt (a b : number) : bool := negb (Qle_bool b a).

(** [parseFloat(b.toString())] for a BigNumber [b]. *)
Definition parseFloat_BigNumber (b : BigNumber) : number := inject_Z b.

(** ** Number.prototype.toFixed and the strings of numbers *)

(** The positional notation with two decimals of a rational: the sign,
    then the nearest number of hundredths of the absolute value (the larger
    one on a tie). *)
Definition hundredths (x : Q) : Z :=
  Qfloor (Qabs x * 100 + (1 # 2)).

Definition two_digits (d : Z) : string :=
  (if d <? 10 then "0" else "") +:+ pretty d.

Definition number_toFixed2 (x : Q) : string :=
  let n := hundredths x in
  (if number_lt x 0 then "-" else "") +:+
  pretty (n / 100) +:+ "." +:+ two_digits (n mod 100).

(** The number of decimal digits of a positive integer. *)
Definition decimal_length (v : Z) : nat := String.length (pretty v).

(** The decimal digits of a positive integer without its trailing zeros. *)
Fixpoint strip_zeros (fuel : nat) (v : Z) : Z :=
  match fuel with
  | O => v
  | Datatypes.S fuel' =>
      if (v mod 10 =? 0) && negb (v =? 0) then strip_zeros fuel' (v / 10) else v
  end.

(** The shortest decimal that reads back as the double [x], for a double
    whose value [v] is a whole number: with [digits] significant digits
    the two candidates are the multiples of the unit [10^(length - digits)]
    around [v]; the nearer one that rounds to [x] is taken (the even one on
    a tie), and more digits are tried when neither does. *)
Fixpoint shortest_decimal (x : float) (v : Z) (fuel : nat) (digits : nat) : Z :=
  match fuel with
  | O => v
  | Datatypes.S fuel' =>
      let unit := 10 ^ (Z.of_nat (decimal_length v) - Z.of_nat digits) in
      let lo := v / unit * unit in
      let hi := lo + unit in
      let reads c := PrimFloat.Leibniz.eqb (float_of_Z c) x in
      let lo_first :=
        (v - lo <? hi - v) || ((v - lo =? hi - v) && Z.even (v / unit)) in
      if (1 <=? unit) && reads lo && (lo_first || negb (reads hi)) then lo
      else if (1 <=? unit) && reads hi then hi
      else shortest_decimal x v fuel' (Datatypes.S digits)
  end.

(** The exponential notation [d.ddde+n] that JavaScript uses for a whole
    number of 10^21 or more. *)
Definition exponential (x : float) (v : Z) : string :=
  let c := shortest_decimal x v 17 1 in
  let digits := pretty (strip_zeros 400 c) in
  let exponent := pretty (Z.of_nat (decimal_length c) - 1) in
  match digits with
  | String d "" => String d "" +:+ "e+" +:+ exponent
  | String d rest => String d "" +:+ "." +:+ rest +:+ "e+" +:+ exponent
  | "" => ""
  end.

(** [x.toFixed(2)] *)
Definition toFixed2 (x : float) : string :=
  match Prim2SF x with
  | S754_nan => "NaN"
  | S754_infinity s => if s then "-Infinity" else "Infinity"
  | S754_zero _ => "0.00"
  | S754_finite s m e =>
      if 10 ^ 21 <=? Z.shiftl (Z.pos m) e then
        (if s then "-" else "") +:+ exponential (abs x) (Z.shiftl (Z.pos m) e)
      else number_toFixed2 (Q_of_finite s m e)
  end.

(** [parseInt(s)] for the decimal string of an integer. *)
Definition parseInt (z : Z) : float := float_of_Z z.

(** ** JavaScript objects *)

Inductive value :=
  | VBigNumber (b : BigNumber)
  | VNumber (n : Z)
  | VString (s : string).

#[export] Instance value_eq_dec : EqDecision value.
Proof. solve_decision. Defined.

Abbreviation object := (gmap string value).

(** [{...o, k: v}] *)
Definition spread_with (o : object) (k : string) (v : value) : object :=
  <[k := v]> o.

(** ** Array.prototype.slice *)

Section Slice.
Context {A : Type}.

(** Relative index resolution of [slice]: a negative index counts from the
    end, and the result is clamped to [[0, len]]. *)
Definition slice_index (len i : Z) : Z :=
  if i <? 0 then Z.max (len + i) 0 else Z.min i len.

Definition Array_slice (l : list A) (start final : Z) : list A :=
  let len := Z.of_nat (length l) in
  let k := slice_index len start in
  let e := slice_index len final in
  take (Z.to_nat (Z.max (e - k) 0)) (drop (Z.to_nat k) l).

(** [l.slice(start)]: the end defaults to the length. *)
Definition Array_slice_from (l : list A) (start : Z) : list A :=
  Array_slice l start (Z.of_nat (length l)).

End Slice.

(** ** Configuration *)

Record Options := {
  maxGasPrice : BigNumber;
  gasBuffer : float;
  batchSize : Z
}.

(** The [options] argument of the constructor: a property is either absent
    or present with a value. *)
Record UserOptions := {
  user_maxGasPrice : option BigNumber;
  user_gasBuffer : option float;
  user_batchSize : option Z
}.

(** [x || d] on an optional number: an absent property, the zeros and [NaN]
    are falsy. *)
Definition number_or (x : option float) (d : float) : float :=
  match x with
  | Some v => if is_zero v || is_nan v then d else v
  | None => d
  end.

Definition int_or (x : option Z) (d : Z) : Z :=
  match x with
  | Some v => if v =? 0 then d else v
  | None => d
  end.

(** [x || d] on an optional BigNumber: every BigNumber object is truthy. *)
Definition BigNumber_or (x : option BigNumber) (d : BigNumber) : BigNumber :=
  match x with
  | Some v => v
  | None => d
  end.

(** [{...base, ...options}]: every property present in [options] overrides
    the one computed before it. *)
Definition spread_options (base : Options) (o : UserOptions) : Options :=
  {| maxGasPrice := default (maxGasPrice base) (user_maxGasPrice o);
     gasBuffer := default (gasBuffer base) (user_gasBuffer o);
     batchSize := default (batchSize base) (user_batchSize o) |}.

(** ** History records *)

(** [estimated] and [buffered] hold the decimal strings of two BigNumbers;
    they are kept as the integers those strings denote, which is what
    [parseInt] reads back. *)
Record GasEstimateRecord := {
  timestamp : Z;
  estimated : Z;
  buffered : Z
}.

(** ** Statistics *)

Inductive GasStats :=
  | NoHistory (message : string)
  | Stats (totalTransactions : nat)
          (recentAvgEstimated recentAvgBuffered : float)
          (bufferEfficiency : string).

(** ** The RPC provider *)

Record Block := {
  gasUsed : BigNumber;
  gasLimit : BigNumber
}.

(** [getBlock] may answer [null] (no such block): [None]. *)
Class Provider (S : Type) := {
  getGasPrice : S -> Result BigNumber * S;
  getBlock : S -> Result (option Block) * S;
  estimateGas : object -> S -> Result BigNumber * S
}.

(** ** The arithmetic of the methods *)

(** The three branches of the congestion test. *)
Inductive Tier := High | Low | Medium.

Definition congestionTier (networkCongestion : number) : Tier :=
  if number_gt networkCongestion (8 # 10) then High
  else if number_lt networkCongestion (3 # 10) then Low
  else Medium.

(** The congestion adjustment, before the cap. *)
Definition adjustedGasPrice (gasPrice : BigNumber) (networkCongestion : number)
  : Result BigNumber :=
  if number_gt networkCongestion (8 # 10) then
    BigNumber.div (BigNumber.mul gasPrice 120) 100
  else if number_lt networkCongestion (3 # 10) then
    BigNumber.div (BigNumber.mul gasPrice 90) 100
  else ok gasPrice.

(** The cap at the maximum gas price. *)
Definition capGasPrice (adjusted limit : BigNumber) : BigNumber :=
  if BigNumber.gt adjusted limit then limit else adjusted.

(** [gasEstimate.mul(Math.floor(gasBuffer * 100)).div(100)]: the product
    [gasBuffer * 100] is a product of doubles. *)
Definition bufferGas (gasEstimate : BigNumber) (gasBuffer : float)
  : Result BigNumber :=
  match BigNumber.mul_number gasEstimate (Math_floor (gasBuffer * 100)%float) with
  | ok scaled => BigNumber.div scaled 100
  | throw e => throw e
  end.

(** ** The optimizer instance and the world it runs in *)

Section Engine.
Context {S : Type} `{Provider S}.

Record BaseGasOptimizer := {
  provider : S;
  options : Options;
  gasHistory : list GasEstimateRecord
}.

(** One line written by [console.error]. *)
Record LogEntry := {
  log_message : string;
  log_error : Error
}.

Record World := {
  this : BaseGasOptimizer;
  console : list LogEntry;
  clock : Z
}.

(** An asynchronous computation: it reads and updates the world and either
    returns or throws.  The world changes made before a throw persist. *)
Definition M (A : Type) : Type := World -> Result A * World.

#[export] Instance M_ret : MRet M := fun A a w => (ok a, w).

#[export] Instance M_bind : MBind M := fun A B f m w =>
  match m w with
  | (ok a, w') => f a w'
  | (throw e, w') => (throw e, w')
  end.

Definition try_catch {A} (body : M A) (handler : Error -> M A) : M A :=
  fun w =>
    match body w with
    | (ok a, w') => (ok a, w')
    | (throw e, w') => handler e w'
    end.

Definition rethrow {A} (e : Error) : M A := fun w => (throw e, w).

Definition lift {A} (r : Result A) : M A := fun w => (r, w).

(** *** Primitive effects *)

(** The world after the provider has moved to state [s']. *)
Definition set_provider (s' : S) (w : World) : World :=
  {| this := {| provider := s';
                options := options (this w);
                gasHistory := gasHistory (this w) |};
     console := console w;
     clock := clock w |}.

Definition with_provider {A} (call : S -> Result A * S) : M A :=
  fun w =>
    let (r, s') := call (provider (this w)) in
    (r, set_provider s' w).

Definition provider_getGasPrice : M BigNumber := with_provider getGasPrice.
Definition provider_getBlock : M (option Block) := with_provider getBlock.
Definition provider_estimateGas (transaction : object) : M BigNumber :=
  with_provider (estimateGas transaction).

Definition console_error (message : string) (error : Error) : M unit :=
  fun w =>
    (ok tt, {| this := this w;
               console := console w ++ [{| log_message := message;
                                           log_error := error |}];
               clock := clock w |}).

Definition Date_now : M Z := fun w => (ok (clock w), w).

Definition this_options : M Options := fun w => (ok (options (this w)), w).

Definition gasHistory_push (entry : GasEstimateRecord) : M unit :=
  fun w =>
    (ok tt, {| this := {| provider := provider (this w);
                          options := options (this w);
                          gasHistory := gasHistory (this w) ++ [entry] |};
               console := console w;
               clock := clock w |}).

(** *** constructor *)

Definition constructor (provider0 : S) (o : UserOptions) : BaseGasOptimizer :=
  {| provider := provider0;
     options :=
       spread_options
         {| maxGasPrice :=
              BigNumber_or (user_maxGasPrice o) (BigNumber.parseUnits_gwei 20);
            gasBuffer := number_or (user_gasBuffer o) 1.1%float;
            batchSize := int_or (user_batchSize o) 10 |}
         o;
     gasHistory := [] |}.

(** *** getNetworkCongestion *)

Definition getNetworkCongestion : M number :=
  try_catch
    (latestBlock ← provider_getBlock;
     match latestBlock with
     | None => rethrow (TypeError "Cannot read properties of null")
     | Some b =>
         gasUsedRatio ← lift (BigNumber.div (gasUsed b) (gasLimit b));
         mret (parseFloat_BigNumber gasUsedRatio)
     end)
    (fun error =>
       console_error "Error calculating network congestion:" error;;
       mret (1 # 2)%Q).

(** *** getOptimalGasPrice *)

Definition getOptimalGasPrice : M BigNumber :=
  try_catch
    (gasPrice ← provider_getGasPrice;
     networkCongestion ← getNetworkCongestion;
     adjusted ← lift (adjustedGasPrice gasPrice networkCongestion);
     opts ← this_options;
     mret (capGasPrice adjusted (maxGasPrice opts)))
    (fun error =>
       console_error "Error getting optimal gas price:" error;;
       provider_getGasPrice).

(** *** estimateGasWithBuffer *)

Definition estimateGasWithBuffer (transaction : object) : M BigNumber :=
  try_catch
    (gasEstimate ← provider_estimateGas transaction;
     opts ← this_options;
     bufferedGas ← lift (bufferGas gasEstimate (gasBuffer opts));
     now ← Date_now;
     gasHistory_push {| timestamp := now;
                        estimated := gasEstimate;
                        buffered := bufferedGas |};;
     mret bufferedGas)
    (fun error =>
       console_error "Error estimating gas:" error;;
       rethrow error).

(** *** optimizeContractCall *)

Definition optimizeContractCall (contractCall : object) : M object :=
  gasPrice ← getOptimalGasPrice;
  gasLimit ← estimateGasWithBuffer contractCall;
  mret (spread_with
          (spread_with
             (spread_with
                (spread_with
                   (spread_with contractCall "gasPrice" (VBigNumber gasPrice))
                   "gasLimit" (VBigNumber gasLimit))
                "type" (VNumber 2))
             "maxFeePerGas" (VBigNumber gasPrice))
          "maxPriorityFeePerGas" (VBigNumber (BigNumber.parseUnits_gwei 2))).

(** *** getGasStats *)

Definition getGasStats (o : BaseGasOptimizer) : GasStats :=
  if (length (gasHistory o) =? 0)%nat then
    NoHistory "No gas history available"
  else
    let recent := Array_slice_from (gasHistory o) (-10) in
    let avgEstimated : float :=
      (fold_left (fun sum entry => sum + parseInt (estimated entry)) recent 0
       / float_of_Z (Z.of_nat (length recent)))%float in
    let avgBuffered : float :=
      (fold_left (fun sum entry => sum + parseInt (buffered entry)) recent 0
       / float_of_Z (Z.of_nat (length recent)))%float in
    Stats (length (gasHistory o))
          (Math_floor avgEstimated)
          (Math_floor avgBuffered)
          (toFixed2 ((avgBuffered - avgEstimated) / avgEstimated * 100)%float
           +:+ "%").

(** *** clearHistory *)

Definition clearHistory : M unit :=
  fun w =>
    (ok tt, {| this := {| provider := provider (this w);
                          options := options (this w);
                          gasHistory := [] |};
               console := console w;
               clock := clock w |}).

End Engine.

Arguments BaseGasOptimizer S : clear implicits.
Arguments World S : clear implicits.

(** ** Resumable programs

    The text of an [async] function as a tree: at an [await] of a provider
    call the request is issued and the function stops until the answer is
    delivered; the other nodes are the synchronous effects on the
    optimizer, the console and the clock.  [Yield] is the point where a
    function that awaited another [async] function of the class is resumed
    with its settled result. *)

Inductive Prog (A : Type) : Type :=
  | Ret (a : A)
  | Throw (e : Error)
  | AwaitGasPrice (k : Result BigNumber -> Prog A)
  | AwaitBlock (k : Result (option Block) -> Prog A)
  | AwaitEstimateGas (transaction : object) (k : Result BigNumber -> Prog A)
  | ConsoleError (message : string) (error : Error) (k : Prog A)
  | DateNow (k : Z -> Prog A)
  | ThisOptions (k : Options -> Prog A)
  | HistoryPush (entry : GasEstimateRecord) (k : Prog A)
  | Yield (k : Prog A).
Arguments Ret {A} a.
Arguments Throw {A} e.
Arguments AwaitGasPrice {A} k.
Arguments AwaitBlock {A} k.
Arguments AwaitEstimateGas {A} transaction k.
Arguments ConsoleError {A} message error k.
Arguments DateNow {A} k.
Arguments ThisOptions {A} k.
Arguments HistoryPush {A} entry k.
Arguments Yield {A} k.

Fixpoint Prog_bind {A B} (p : Prog A) (f : A -> Prog B) : Prog B :=
  match p with
  | Ret a => f a
  | Throw e => Throw e
  | AwaitGasPrice k => AwaitGasPrice (fun r => Prog_bind (k r) f)
  | AwaitBlock k => AwaitBlock (fun r => Prog_bind (k r) f)
  | AwaitEstimateGas tx k => AwaitEstimateGas tx (fun r => Prog_bind (k r) f)
  | ConsoleError message error k => ConsoleError message error (Prog_bind k f)
  | DateNow k => DateNow (fun now => Prog_bind (k now) f)
  | ThisOptions k => ThisOptions (fun opts => Prog_bind (k opts) f)
  | HistoryPush entry k => HistoryPush entry (Prog_bind k f)
  | Yield k => Yield (Prog_bind k f)
  end.

Fixpoint Prog_try_catch {A} (p : Prog A) (handler : Error -> Prog A) : Prog A :=
  match p with
  | Ret a => Ret a
  | Throw e => handler e
  | AwaitGasPrice k => AwaitGasPrice (fun r => Prog_try_catch (k r) handler)
  | AwaitBlock k => AwaitBlock (fun r => Prog_try_catch (k r) handler)
  | AwaitEstimateGas tx k =>
      AwaitEstimateGas tx (fun r => Prog_try_catch (k r) handler)
  | ConsoleError message error k =>
      ConsoleError message error (Prog_try_catch k handler)
  | DateNow k => DateNow (fun now => Prog_try_catch (k now) handler)
  | ThisOptions k => ThisOptions (fun opts => Prog_try_catch (k opts) handler)
  | HistoryPush entry k => HistoryPush entry (Prog_try_catch k handler)
  | Yield k => Yield (Prog_try_catch k handler)
  end.

#[export] Instance Prog_ret : MRet Prog := fun A a => Ret a.
#[export] Instance Prog_mbind : MBind Prog := fun A B f p => Prog_bind p f.

(** The methods of the class as resumable programs. *)
Module Async.

Definition settled {A} (r : Result A) : Prog A :=
  match r with
  | ok a => Ret a
  | throw e => Throw e
  end.

Definition provider_getGasPrice : Prog BigNumber := AwaitGasPrice settled.
Definition provider_getBlock : Prog (option Block) := AwaitBlock settled.
Definition provider_estimateGas (transaction : object) : Prog BigNumber :=
  AwaitEstimateGas transaction settled.

Definition console_error (message : string) (error : Error) : Prog unit :=
  ConsoleError message error (Ret tt).
Definition Date_now : Prog Z := DateNow Ret.
Definition this_options : Prog Options := ThisOptions Ret.
Definition gasHistory_push (entry : GasEstimateRecord) : Prog unit :=
  HistoryPush entry (Ret tt).

(** [await f()] for an [async] method [f] of the class: the body of [f]
    runs at once up to its first [await]; the caller is resumed with the
    value or the throw of [f] in a later turn. *)
Definition await {A} (call : Prog A) : Prog A :=
  Prog_try_catch (a ← call; Yield (Ret a)) (fun e => Yield (Throw e)).

Definition getNetworkCongestion : Prog number :=
  Prog_try_catch
    (latestBlock ← provider_getBlock;
     match latestBlock with
     | None => Throw (TypeError "Cannot read properties of null")
     | Some b =>
         gasUsedRatio ← settled (BigNumber.div (gasUsed b) (gasLimit b));
         mret (parseFloat_BigNumber gasUsedRatio)
     end)
    (fun error =>
       console_error "Error calculating network congestion:" error;;
       mret (1 # 2)%Q).

Definition getOptimalGasPrice : Prog BigNumber :=
  Prog_try_catch
    (gasPrice ← provider_getGasPrice;
     networkCongestion ← await getNetworkCongestion;
     adjusted ← settled (adjustedGasPrice gasPrice networkCongestion);
     opts ← this_options;
     mret (capGasPrice adjusted (maxGasPrice opts)))
    (fun error =>
       console_error "Error getting optimal gas price:" error;;
       provider_getGasPrice).

Definition estimateGasWithBuffer (transaction : object) : Prog BigNumber :=
  Prog_try_catch
    (gasEstimate ← provider_estimateGas transaction;
     opts ← this_options;
     bufferedGas ← settled (bufferGas gasEstimate (gasBuffer opts));
     now ← Date_now;
     gasHistory_push {| timestamp := now;
                        estimated := gasEstimate;
                        buffered := bufferedGas |};;
     mret bufferedGas)
    (fun error =>
       console_error "Error estimating gas:" error;;
       Throw error).

(** The callback of [batch.map]. *)
Definition annotate (tx : object) : Prog object :=
  gasPrice ← await getOptimalGasPrice;
  gasLimit ← await (estimateGasWithBuffer tx);
  mret (spread_with (spread_with tx "gasPrice" (VBigNumber gasPrice))
          "gasLimit" (VBigNumber gasLimit)).

End Async.

(** ** Running resumable programs *)

Section Scheduler.
Context {S : Type} `{Provider S}.

(** A program awaited on its own: every answer is delivered as soon as the
    request is issued. *)
Fixpoint run {A} (p : Prog A) : M A :=
  fun w =>
    match p with
    | Ret a => (ok a, w)
    | Throw e => (throw e, w)
    | AwaitGasPrice k => let (r, w') := provider_getGasPrice w in run (k r) w'
    | AwaitBlock k => let (r, w') := provider_getBlock w in run (k r) w'
    | AwaitEstimateGas tx k =>
        let (r, w') := provider_estimateGas tx w in run (k r) w'
    | ConsoleError message error k => run k (snd (console_error message error w))
    | DateNow k => run (k (clock w)) w
    | ThisOptions k => run (k (options (this w))) w
    | HistoryPush entry k => run k (snd (gasHistory_push entry w))
    | Yield k => run k w
    end.

(** A call in flight: settled with a value or a throw, or stopped at an
    [await] with the rest of its program. *)
Inductive Thread (A : Type) :=
  | Settled (r : Result A)
  | Suspended (p : Prog A).
Arguments Settled {A} r.
Arguments Suspended {A} p.

(** One turn of a call: it runs up to its next [await] or to its end.  At
    the [await] of a provider call the request reaches the provider at
    once; its answer is what the call resumes with. *)
Fixpoint advance {A} (p : Prog A) (w : World S) : Thread A * World S :=
  match p with
  | Ret a => (Settled (ok a), w)
  | Throw e => (Settled (throw e), w)
  | AwaitGasPrice k =>
      let (r, w') := provider_getGasPrice w in (Suspended (k r), w')
  | AwaitBlock k =>
      let (r, w') := provider_getBlock w in (Suspended (k r), w')
  | AwaitEstimateGas tx k =>
      let (r, w') := provider_estimateGas tx w in (Suspended (k r), w')
  | ConsoleError message error k =>
      advance k (snd (console_error message error w))
  | DateNow k => advance (k (clock w)) w
  | ThisOptions k => advance (k (options (this w))) w
  | HistoryPush entry k => advance k (snd (gasHistory_push entry w))
  | Yield k => (Suspended k, w)
  end.

(** The calls in flight, the first rejection so far, and the world. *)
Definition Pool (A : Type) : Type :=
  list (Thread A) * option Error * World S.

(** The first rejection in time is the one [Promise.all] reports. *)
Definition note {A} (t : Thread A) (first : option Error) : option Error :=
  match first, t with
  | None, Settled (throw e) => Some e
  | _, _ => first
  end.

(** [batch.map(async ...)]: every callback is started, in the order of the
    array, and runs up to its first [await] before the next one starts. *)
Fixpoint start {A} (ps : list (Prog A)) (first : option Error) (w : World S)
  : Pool A :=
  match ps with
  | [] => ([], first, w)
  | p :: ps' =>
      let (t, w1) := advance p w in
      let '(ts, first', w2) := start ps' (note t first) w1 in
      (t :: ts, first', w2)
  end.

(** The call at index [i] is resumed, if it is stopped at an [await]. *)
Definition resume {A} (pool : Pool A) (i : nat) : Pool A :=
  let '(ts, first, w) := pool in
  match ts !! i with
  | Some (Suspended p) =>
      let (t, w') := advance p w in (<[i := t]> ts, note t first, w')
  | _ => pool
  end.

(** The calls still stopped when the schedule ends are completed one after
    the other. *)
Fixpoint drain {A} (ts : list (Thread A)) (first : option Error) (w : World S)
  : list (Result A) * option Error * World S :=
  match ts with
  | [] => ([], first, w)
  | Settled r :: ts' =>
      let '(rs, first', w') := drain ts' first w in (r :: rs, first', w')
  | Suspended p :: ts' =>
      let (r, w1) := run p w in
      let '(rs, first', w') := drain ts' (note (Settled r) first) w1 in
      (r :: rs, first', w')
  end.

(** The values in the order of the array. *)
Fixpoint values {A} (rs : list (Result A)) : Result (list A) :=
  match rs with
  | [] => ok []
  | ok a :: rs' =>
      match values rs' with
      | ok l => ok (a :: l)
      | throw e => throw e
      end
  | throw e :: _ => throw e
  end.

(** [await Promise.all(ps)] under a schedule, the list of the indices of
    the calls in the order in which they are resumed: the values come back
    in the order of the array; the first rejection in time is the throw of
    the whole, and the other calls run to their end all the same. *)
Definition Promise_all {A} (schedule : list nat) (ps : list (Prog A))
  : M (list A) :=
  fun w =>
    let '(ts, first, w1) := foldl resume (start ps None w) schedule in
    let '(rs, first', w2) := drain ts first w1 in
    (match first' with
     | Some e => throw e
     | None => values rs
     end, w2).

(** *** batchTransactions *)

(** The first loop: [for (i = 0; i < length; i += batchSize)].  The loop
    need not terminate (a step of zero or less never reaches the length),
    so it runs on fuel; [None] is fuel exhausted. *)
Fixpoint make_batches (fuel : nat) (transactions : list object) (step : Z)
    (i : Z) (batches : list (list object)) : option (list (list object)) :=
  match fuel with
  | O => None
  | Datatypes.S fuel' =>
      if i <? Z.of_nat (length transactions) then
        make_batches fuel' transactions step (i + step)
          (batches ++ [Array_slice transactions i (i + step)])
      else Some batches
  end.

(** The second loop: [for (const batch of batches)]; the group at position
    [j] runs under the [j]-th schedule. *)
Fixpoint process_batches (schedules : list (list nat))
    (batches : list (list object)) (results : list object)
  : M (list object) :=
  match batches with
  | [] => mret results
  | batch :: rest =>
      batchResults ← Promise_all (hd [] schedules) (Async.annotate <$> batch);
      process_batches (tl schedules) rest (results ++ batchResults)
  end.

Definition batchTransactions (fuel : nat) (schedules : list (list nat))
    (transactions : list object)
  : World S -> option (Result (list object) * World S) :=
  fun w =>
    match make_batches fuel transactions (batchSize (options (this w))) 0 [] with
    | None => None
    | Some batches => Some (process_batches schedules batches [] w)
    end.

End Scheduler.

Arguments Settled {A} r.
Arguments Suspended {A} p.

(** ** A scripted provider

    A provider that answers from a script: the successive answers to
    [getGasPrice] and to [getBlock] are queued, an exhausted queue answers
    with a failure, and gas simulation is a fixed function of the
    transaction. *)

Record Script := {
  prices : list (Result BigNumber);
  blocks : list (Result (option Block));
  simulate : object -> Result BigNumber
}.

Definition script_getGasPrice (s : Script) : Result BigNumber * Script :=
  match prices s with
  | [] => (throw (RpcError "no answer"), s)
  | r :: rest => (r, {| prices := rest; blocks := blocks s; simulate := simulate s |})
  end.

Definition script_getBlock (s : Script) : Result (option Block) * Script :=
  match blocks s with
  | [] => (throw (RpcError "no answer"), s)
  | r :: rest => (r, {| prices := prices s; blocks := rest; simulate := simulate s |})
  end.

Definition script_estimateGas (tx : object) (s : Script) : Result BigNumber * Script :=
  (simulate s tx, s).

#[export] Instance Script_Provider : Provider Script := {|
  getGasPrice := script_getGasPrice;
  getBlock := script_getBlock;
  estimateGas := script_estimateGas
|}.

(** A provider that always gives the same answers. *)
Record Steady := {
  steady_price : Result BigNumber;
  steady_block : Result (option Block);
  steady_gas : Result BigNumber
}.

#[export] Instance Steady_Provider : Provider Steady := {|
  getGasPrice := fun s => (steady_price s, s);
  getBlock := fun s => (steady_block s, s);
  estimateGas := fun _ s => (steady_gas s, s)
|}.

(** ** The traffic with the provider *)

(** One request with its answer. *)
Inductive Exchange :=
  | XGasPrice (r : Result BigNumber)
  | XBlock (r : Result (option Block))
  | XEstimateGas (transaction : object) (r : Result BigNumber).

(** A provider with a log: it answers as the provider [S] does and appends
    every request, with its answer, to [calls]. *)
Record Traced (S : Type) := {
  inner : S;
  calls : list Exchange
}.
Arguments inner {S} t.
Arguments calls {S} t.

Section Tracing.
Context {S : Type} `{Provider S}.

Definition traced_getGasPrice (t : Traced S) : Result BigNumber * Traced S :=
  let (r, s') := getGasPrice (inner t) in
  (r, {| inner := s'; calls := calls t ++ [XGasPrice r] |}).

Definition traced_getBlock (t : Traced S) : Result (option Block) * Traced S :=
  let (r, s') := getBlock (inner t) in
  (r, {| inner := s'; calls := calls t ++ [XBlock r] |}).

Definition traced_estimateGas (tx : object) (t : Traced S)
  : Result BigNumber * Traced S :=
  let (r, s') := estimateGas tx (inner t) in
  (r, {| inner := s'; calls := calls t ++ [XEstimateGas tx r] |}).

#[export] Instance Traced_Provider : Provider (Traced S) := {|
  getGasPrice := traced_getGasPrice;
  getBlock := traced_getBlock;
  estimateGas := traced_estimateGas
|}.

(** An exchange that the provider [S] can have: the answer is the one it
    gives to the request in some state. *)
Definition possible (x : Exchange) : Prop :=
  match x with
  | XGasPrice r => exists s s' : S, getGasPrice s = (r, s')
  | XBlock r => exists s s' : S, getBlock s = (r, s')
  | XEstimateGas tx r => exists s s' : S, estimateGas tx s = (r, s')
  end.

End Tracing.

(** What a program does when its requests get the answers [xs], in this
    order: the exchanges left over, the records it pushes and its outcome;
    [None] when an answer is missing or answers another request.  The
    configuration is [opts] and the clock reads [now]. *)
Fixpoint replay {A} (opts : Options) (now : Z) (p : Prog A) (xs : list Exchange)
  : option (list Exchange * list GasEstimateRecord * Result A) :=
  match p with
  | Ret a => Some (xs, [], ok a)
  | Throw e => Some (xs, [], throw e)
  | AwaitGasPrice k =>
      match xs with
      | XGasPrice r :: rest => replay opts now (k r) rest
      | _ => None
      end
  | AwaitBlock k =>
      match xs with
      | XBlock r :: rest => replay opts now (k r) rest
      | _ => None
      end
  | AwaitEstimateGas tx k =>
      match xs with
      | XEstimateGas tx' r :: rest =>
          if decide (tx' = tx) then replay opts now (k r) rest else None
      | _ => None
      end
  | ConsoleError _ _ k => replay opts now k xs
  | DateNow k => replay opts now (k now) xs
  | ThisOptions k => replay opts now (k opts) xs
  | HistoryPush entry k =>
      match replay opts now k xs with
      | Some (rest, pushed, r) => Some (rest, entry :: pushed, r)
      | None => None
      end
  | Yield k => replay opts now k xs
  end.

(** The world of a freshly constructed optimizer. *)
Definition fresh {S : Type} (s : S) (o : UserOptions) : World S :=
  {| this := constructor s o; console := []; clock := 0 |}.

Definition no_options : UserOptions :=
  {| user_maxGasPrice := None; user_gasBuffer := None; user_batchSize := None |}.

(** ** Vocabulary of the statements *)

(** The answers to [getBlock] from which no congestion ratio can be
    computed: a failure, no block, or a block with a gas limit of zero. *)
Definition congestion_unavailable (r : Result (option Block)) : Prop :=
  match r with
  | throw _ => True
  | ok None => True
  | ok (Some b) => gasLimit b = 0
  end.

(** The congestion that [getNetworkCongestion] makes of an answer to
    [getBlock]. *)
Definition congestion_of (r : Result (option Block)) : number :=
  match r with
  | ok (Some b) =>
      if gasLimit b =? 0 then (1 # 2)%Q
      else parseFloat_BigNumber (Z.quot (gasUsed b) (gasLimit b))
  | _ => (1 # 2)%Q
  end.

(** The buffer in whole percent, as [estimateGasWithBuffer] hands it to
    [mul]. *)
Definition percent (gasBuffer : float) : Result BigNumber :=
  BigNumber.from_number (Math_floor (gasBuffer * 100)%float).

(** The double sum of [reduce], from the left. *)
Definition float_sum (l : list float) : float :=
  fold_left PrimFloat.add l 0%float.

(** The [n] most recent entries of a history (all of them when there are
    fewer). *)
Definition last_n {A : Type} (n : nat) (l : list A) : list A :=
  drop (length l - n) l.

(** [o] is the transaction [tx] with [gasPrice] and [gasLimit] set. *)
Definition annotated (tx o : object) : Prop :=
  exists gasPrice gasLimit : BigNumber,
    o = <["gasLimit" := VBigNumber gasLimit]>
          (<["gasPrice" := VBigNumber gasPrice]> tx).

(** [o] is the transaction [tx] annotated from the three exchanges [xs] of
    its own callback: a price [p], an answer [rb] about the latest block
    and an estimate [g] for [tx]; the price is [p] adjusted to the
    congestion of [rb] and capped, the limit is [g] scaled by the buffer of
    [k] percent. *)
Definition annotated_from (opts : Options) (k : BigNumber) (tx : object)
    (xs : list Exchange) (o : object) : Prop :=
  exists p rb a g,
    xs = [XGasPrice (ok p); XBlock rb; XEstimateGas tx (ok g)] /\
    adjustedGasPrice p (congestion_of rb) = ok a /\
    o = <["gasLimit" := VBigNumber (Z.quot (g * k) 100)]>
          (<["gasPrice" := VBigNumber (capGasPrice a (maxGasPrice opts))]> tx).

(** One group: [outs] are the transactions of [batch], in order, each
    annotated from the exchanges of its own callback, and [round], the
    traffic of the group, is made of these exchanges, interleaved. *)
Definition round_of (opts : Options) (k : BigNumber) (batch : list object)
    (round : list Exchange) (outs : list object) : Prop :=
  exists traffic : list (list Exchange),
    Forall3 (annotated_from opts k) batch traffic outs /\
    round ≡ₚ concat traffic.

(** The [j]-th contiguous group of [size] elements of [l]. *)
Definition group {A : Type} (size j : nat) (l : list A) : list A :=
  take size (drop (j * size) l).

Section Availability.
Context {S : Type} `{Provider S}.

(** The provider answers every price request. *)
Definition price_available : Prop :=
  forall s : S, exists p s', getGasPrice s = (ok p, s').

(** The provider accepts the gas simulation of [tx] whenever asked. *)
Definition simulates (tx : object) : Prop :=
  forall s : S, exists g s', estimateGas tx s = (ok g, s').

End Availability.

(** ** Example providers and worlds *)

(** A provider that numbers the calls it answers: the [n]-th call gets a
    price of [10 + n], a block filled to [n] out of 10, or an estimate of
    [21000 + n]. *)
#[export] Instance Meter_Provider : Provider nat := {|
  getGasPrice := fun n => (ok (10 + Z.of_nat n), Datatypes.S n);
  getBlock := fun n =>
    (ok (Some {| gasUsed := Z.of_nat n; gasLimit := 10 |}), Datatypes.S n);
  estimateGas := fun _ n => (ok (21000 + Z.of_nat n), Datatypes.S n)
|}.

(** The numbering provider with an empty log. *)
Definition metered : Traced nat := {| inner := 0%nat; calls := [] |}.

Definition gwei : Z -> BigNumber := BigNumber.parseUnits_gwei.

(** The first price request fails, the second answers 30 gwei. *)
Definition flaky : Script :=
  {| prices := [throw (RpcError "timeout"); ok (gwei 30)];
     blocks := [];
     simulate := fun _ => ok 21000 |}.

(** The price is 12 gwei and the block request fails. *)
Definition blockless : Script :=
  {| prices := [ok (gwei 12)];
     blocks := [throw (RpcError "timeout")];
     simulate := fun _ => ok 21000 |}.

(** The latest block has a gas limit of zero. *)
Definition zero_limit : Script :=
  {| prices := [ok (gwei 12)];
     blocks := [ok (Some {| gasUsed := 0; gasLimit := 0 |})];
     simulate := fun _ => ok 21000 |}.

(** The latest block is half full. *)
Definition half_full : Script :=
  {| prices := [ok (gwei 12)];
     blocks := [ok (Some {| gasUsed := 15000000; gasLimit := 30000000 |})];
     simulate := fun _ => ok 21000 |}.

(** Every request fails. *)
Definition down : Steady :=
  {| steady_price := throw (RpcError "timeout");
     steady_block := throw (RpcError "timeout");
     steady_gas := throw (RpcError "execution reverted") |}.

(** Every simulation answers [g]. *)
Definition simulating (g : BigNumber) : Steady :=
  {| steady_price := ok (gwei 1);
     steady_block := ok (Some {| gasUsed := 30000000; gasLimit := 30000000 |});
     steady_gas := ok g |}.

Definition with_gasBuffer (g : float) : UserOptions :=
  {| user_maxGasPrice := None; user_gasBuffer := Some g; user_batchSize := None |}.

Definition with_batchSize (n : Z) : UserOptions :=
  {| user_maxGasPrice := None; user_gasBuffer := None; user_batchSize := Some n |}.

(** An optimizer whose history holds the given pairs of raw and buffered
    estimates, oldest first. *)
Definition with_history {S : Type} (s : S) (h : list (Z * Z))
  : BaseGasOptimizer S :=
  {| provider := s;
     options := options (constructor s no_options);
     gasHistory := map (fun e => {| timestamp := 0;
                                    estimated := fst e;
                                    buffered := snd e |}) h |}.

(** ** GasUtils *)

Module GasUtils.

(** [calculateTxCost(gasUsed, gasPrice)] *)
Definition calculateTxCost (gasUsed gasPrice : BigNumber) : BigNumber :=
  BigNumber.mul gasUsed gasPrice.

(** [\d] *)
Definition is_digit (c : ascii) : bool :=
  (48 <=? nat_of_ascii c)%nat && (nat_of_ascii c <=? 57)%nat.

(** [\w]: a letter, a digit or an underscore. *)
Definition is_word (c : ascii) : bool :=
  is_digit c
  || ((65 <=? nat_of_ascii c)%nat && (nat_of_ascii c <=? 90)%nat)
  || ((97 <=? nat_of_ascii c)%nat && (nat_of_ascii c <=? 122)%nat)
  || (nat_of_ascii c =? 95)%nat.

(** Whether there is a word character on one side of a position; there is
    none beyond either end of the string. *)
Definition word_at (c : option ascii) : bool :=
  match c with
  | Some c => is_word c
  | None => false
  end.

(** The number of digits at the head of the string. *)
Fixpoint digit_run (s : list ascii) : nat :=
  match s with
  | c :: rest => if is_digit c then Datatypes.S (digit_run rest) else 0%nat
  | [] => 0%nat
  end.

(** Whether [/\B(?=(\d{3})+(?!\d))/] matches at the position between the
    character [prev] and the string [s]: the position is not a word boundary
    and what follows is one or more groups of three digits up to a character
    that is not a digit, that is, the digits that follow are a positive
    multiple of three in number. *)
Definition separator_here (prev : option ascii) (s : list ascii) : bool :=
  Bool.eqb (word_at prev) (word_at (head s))
  && (0 <? digit_run s)%nat
  && (digit_run s mod 3 =? 0)%nat.

(** [s.replace(/\B(?=(\d{3})+(?!\d))/g, ',')]: a comma is put at every
    position where the pattern matches, the end included. *)
Fixpoint replace_separators (prev : option ascii) (s : list ascii)
  : list ascii :=
  (if separator_here prev s then ["," % char] else [])
  ++ match s with
     | [] => []
     | c :: rest => c :: replace_separators (Some c) rest
     end.

(** [formatGas(gas)]; [gas.toString()] is the decimal writing of [gas]. *)
Definition formatGas (gas : BigNumber) : string :=
  String.string_of_list_ascii
    (replace_separators None (String.list_ascii_of_string (pretty (gas : Z)))).

End GasUtils.

(** The three decimal digits of a number below 1000. *)
Definition three_digits (d : Z) : string :=
  String (pretty_N_char (Z.to_N (d / 100)))
    (String (pretty_N_char (Z.to_N (d / 10 mod 10)))
       (String (pretty_N_char (Z.to_N (d mod 10))) "")).

(** The string without its commas. *)
Definition remove_commas (s : string) : string :=
  String.string_of_list_ascii
    (filter (fun c => c <> "," % char) (String.list_ascii_of_string s)).

(** ** Sequences of calls on one optimizer *)

Section Calls.
Context {S : Type} `{Provider S}.

(** A record as [estimateGasWithBuffer] writes it under the options [opts]:
    the buffered value is the raw one scaled by the buffer in whole
    percent. *)
Definition record_ok (opts : Options) (r : GasEstimateRecord) : Prop :=
  exists k,
    percent (gasBuffer opts) = ok k /\
    buffered r = Z.quot (estimated r * k) 100.

(** From [w] to [w'] the configuration is kept and the history has grown by
    the records [new], each written under that configuration. *)
Definition grows_by (w w' : World S) (new : list GasEstimateRecord) : Prop :=
  options (this w') = options (this w) /\
  gasHistory (this w') = gasHistory (this w) ++ new /\
  Forall (record_ok (options (this w))) new.

(** One call of a method of the optimizer by a client. *)
Inductive Call :=
  | CallGetOptimalGasPrice
  | CallEstimateGasWithBuffer (transaction : object)
  | CallBatchTransactions (fuel : nat) (schedules : list (list nat))
      (transactions : list object)
  | CallOptimizeContractCall (contractCall : object)
  | CallGetGasStats
  | CallClearHistory.

(** The world after the call, whether it returned or threw; [None] when the
    call did not finish within its fuel. *)
Definition perform (c : Call) (w : World S) : option (World S) :=
  match c with
  | CallGetOptimalGasPrice => Some (snd (getOptimalGasPrice w))
  | CallEstimateGasWithBuffer tx => Some (snd (estimateGasWithBuffer tx w))
  | CallBatchTransactions fuel schedules txs =>
      match batchTransactions fuel schedules txs w with
      | Some (_, w') => Some w'
      | None => None
      end
  | CallOptimizeContractCall c => Some (snd (optimizeContractCall c w))
  | CallGetGasStats => Some w
  | CallClearHistory => Some (snd (clearHistory w))
  end.

Fixpoint perform_all (cs : list Call) (w : World S) : option (World S) :=
  match cs with
  | [] => Some w
  | c :: rest =>
      match perform c w with
      | Some w' => perform_all rest w'
      | None => None
      end
  end.

End Calls.

Section Rejection.
Context {S : Type} `{Provider S}.

(** The provider rejects the gas simulation of [tx] whenever asked. *)
Definition rejected (tx : object) : Prop :=
  forall s : S, exists e s', estimateGas tx s = (throw e, s').

End Rejection.

(** No call of the sequence is [clearHistory]. *)
Definition never_clears (cs : list Call) : Prop :=
  Forall (fun c => c <> CallClearHistory) cs.

(** The price is a thousandth of a gwei and the latest block is half full. *)
Definition cheap : Script :=
  {| prices := [ok 1000000];
     blocks := [ok (Some {| gasUsed := 15000000; gasLimit := 30000000 |})];
     simulate := fun _ => ok 21000 |}.

(** The price answers; every simulation is rejected. *)
Definition reverting : Steady :=
  {| steady_price := ok (gwei 1);
     steady_block := ok (Some {| gasUsed := 30000000; gasLimit := 30000000 |});
     steady_gas := throw (RpcError "execution reverted") |}.

(** The optimizer [o] with the history [h] in place of its own. *)
Definition with_gasHistory {S : Type} (o : BaseGasOptimizer S)
    (h : list GasEstimateRecord) : BaseGasOptimizer S :=
  {| provider := provider o; options := options o; gasHistory := h |}.

(** A provider that rejects the simulation of a transaction without a
    recipient and prices every other one at 21000; the price is 1 gwei and
    the latest block is full. *)
Inductive Gatekeeper := gatekeeper.

#[export] Instance Gatekeeper_Provider : Provider Gatekeeper := {|
  getGasPrice := fun s => (ok (gwei 1), s);
  getBlock := fun s =>
    (ok (Some {| gasUsed := 30000000; gasLimit := 30000000 |}), s);
  estimateGas := fun tx s =>
    (match tx !! "to" with
     | Some _ => ok 21000
     | None => throw (RpcError "missing recipient")
     end, s)
|}.

Definition transfer : object := {["to" := VString "0xa"]}.

(** ** Vocabulary of the scheduler *)

(** The outcome of a replay after the records [pushed] were written. *)
Definition pushed_before {A} (pushed : list GasEstimateRecord)
    (o : option (list Exchange * list GasEstimateRecord * Result A))
  : option (list Exchange * list GasEstimateRecord * Result A) :=
  match o with
  | Some (rest, pushed', r) => Some (rest, pushed ++ pushed', r)
  | None => None
  end.

(** The call that began as the program [p] has had the exchanges [xs] and
    has written the records [pushed], and is now the thread [t]: replaying
    [p] on [xs] and then on more exchanges is replaying what is left of
    it on these. *)
Definition after {A} (opts : Options) (now : Z) (p : Prog A) (t : Thread A)
    (xs : list Exchange) (pushed : list GasEstimateRecord) : Prop :=
  forall rest,
    replay opts now p (xs ++ rest) =
      match t with
      | Settled r => Some (rest, pushed, r)
      | Suspended q => pushed_before pushed (replay opts now q rest)
      end.

(** The first rejection recorded is that of a settled call, and there is
    none recorded only if no call was rejected. *)
Definition first_ok {A} (first : option Error) (ts : list (Thread A)) : Prop :=
  match first with
  | None => Forall (fun t => forall e, t <> Settled (throw e)) ts
  | Some e => Settled (throw e) ∈ ts
  end.

Section Observation.
Context {S : Type} `{Provider S}.

(** What an observer of the provider sees between two of its states. *)
Variable observed : S -> S -> list Exchange -> Prop.

(** From [w] to [w'] the provider has had the exchanges [xs], each of them
    possible, the records [pushed] were appended to the history, and the
    configuration and the clock are the same. *)
Definition moved (w w' : World S) (xs : list Exchange)
    (pushed : list GasEstimateRecord) : Prop :=
  options (this w') = options (this w) /\
  clock w' = clock w /\
  gasHistory (this w') = gasHistory (this w) ++ pushed /\
  observed (provider (this w)) (provider (this w')) xs /\
  Forall (possible (S := S)) xs.

End Observation.

(** An observer who sees nothing. *)
Definition unobserved {S : Type} (s s' : S) (xs : list Exchange) : Prop := True.

(** The observer of a provider with a log sees what the log gains. *)
Definition logged {S : Type} (t t' : Traced S) (xs : list Exchange) : Prop :=
  calls t' = calls t ++ xs.


(** * Facts about doubles *)

Section FloatFacts.

Local Open Scope Z_scope.

(** ** The number of bits of a mantissa *)

Lemma digits2_pos_bounds (p : positive) :
  2 ^ (Z.pos (digits2_pos p) - 1) <= Z.pos p < 2 ^ Z.pos (digits2_pos p).
Proof.
  induction p as [p IH|p IH|]; simpl digits2_pos.
  - rewrite Pos2Z.inj_succ.
    replace (Z.succ (Z.pos (digits2_pos p)) - 1)
      with (Z.succ (Z.pos (digits2_pos p) - 1)) by lia.
    rewrite !Z.pow_succ_r by lia. lia.
  - rewrite Pos2Z.inj_succ.
    replace (Z.succ (Z.pos (digits2_pos p)) - 1)
      with (Z.succ (Z.pos (digits2_pos p) - 1)) by lia.
    rewrite !Z.pow_succ_r by lia. lia.
  - simpl. lia.
Qed.

Lemma digits2_pos_unique (p : positive) (n : Z) :
  2 ^ (n - 1) <= Z.pos p < 2 ^ n -> Z.pos (digits2_pos p) = n.
Proof.
  intros [Hlo Hhi]. pose proof (digits2_pos_bounds p) as [Hlo' Hhi'].
  set (d := Z.pos (digits2_pos p)) in *.
  assert (Hd : 0 < d) by (unfold d; lia).
  assert (Hn : 0 < n).
  { destruct (Z_lt_le_dec 0 n) as [?|Hle]; [assumption|].
    assert (2 ^ n <= 2 ^ 0) by (apply Z.pow_le_mono_r; lia).
    simpl in *. lia. }
  destruct (Z.lt_trichotomy d n) as [Hlt|[Heq|Hgt]]; [|assumption|].
  - assert (2 ^ d <= 2 ^ (n - 1)) by (apply Z.pow_le_mono_r; lia). lia.
  - assert (2 ^ n <= 2 ^ (d - 1)) by (apply Z.pow_le_mono_r; lia). lia.
Qed.

(** ** Shifting a mantissa to the right *)

Lemma shr_1_div2 (r : shr_record) :
  0 <= shr_m r -> shr_m (shr_1 r) = shr_m r / 2.
Proof.
  destruct r as [m r s]. cbn [shr_m]. intros Hm.
  destruct m as [|[p|p|]|p]; cbn [shr_1 shr_m]; try lia.
  - reflexivity.
  - apply Z.div_unique with (r := 1); lia.
  - apply Z.div_unique with (r := 0); lia.
  - reflexivity.
Qed.

Lemma iter_shr_1_div (p : positive) :
  forall r : shr_record,
    0 <= shr_m r ->
    shr_m (SpecFloat.iter_pos shr_1 p r) = shr_m r / 2 ^ Z.pos p.
Proof.
  induction p as [p IH|p IH|]; intros r Hr; simpl SpecFloat.iter_pos.
  - assert (H1 : 0 <= shr_m (shr_1 r)).
    { rewrite shr_1_div2 by assumption. apply Z.div_pos; lia. }
    assert (H2 : 0 <= shr_m (SpecFloat.iter_pos shr_1 p (shr_1 r))).
    { rewrite IH by assumption. apply Z.div_pos; [assumption|].
      apply Z.pow_pos_nonneg; lia. }
    rewrite IH by assumption. rewrite IH by assumption.
    rewrite shr_1_div2 by assumption.
    rewrite !Z.div_div by (try apply Z.pow_pos_nonneg; lia).
    f_equal. rewrite (Pos2Z.inj_xI p).
    replace (2 * Z.pos p + 1) with (1 + Z.pos p + Z.pos p) by lia.
    rewrite !Z.pow_add_r by lia. simpl (2 ^ 1). lia.
  - assert (H2 : 0 <= shr_m (SpecFloat.iter_pos shr_1 p r)).
    { rewrite IH by assumption. apply Z.div_pos; [assumption|].
      apply Z.pow_pos_nonneg; lia. }
    rewrite IH by assumption. rewrite IH by assumption.
    rewrite !Z.div_div by (try apply Z.pow_pos_nonneg; lia).
    f_equal. rewrite (Pos2Z.inj_xO p).
    replace (2 * Z.pos p) with (Z.pos p + Z.pos p) by lia.
    rewrite !Z.pow_add_r by lia. lia.
  - rewrite shr_1_div2 by assumption. reflexivity.
Qed.

Lemma round_nearest_even_bounds (m : Z) (l : location) :
  m <= round_nearest_even m l <= m + 1.
Proof.
  destruct l as [|[| |]]; simpl; try lia.
  destruct (Z.even m); lia.
Qed.

(** ** Rounding a mantissa that needs no rounding *)

Lemma fexp_normal (x : Z) : -1021 <= x -> fexp prec emax x = x - 53.
Proof. intros Hx. unfold fexp, emin, prec, emax. lia. Qed.

Lemma binary_round_aux_exact (sx : bool) (m : positive) (e : Z) :
  Z.pos (digits2_pos m) = 53 ->
  -1074 <= e <= 971 ->
  binary_round_aux prec emax sx (Z.pos m) e loc_Exact = S754_finite sx m e.
Proof.
  intros Hd He.
  assert (Hshr : shr_fexp prec emax (Z.pos m) e loc_Exact =
                 ({| shr_m := Z.pos m; shr_r := false; shr_s := false |}, e)).
  { unfold shr_fexp, Zdigits2. rewrite Hd, fexp_normal by lia.
    replace (53 + e - 53 - e) with 0 by lia. reflexivity. }
  unfold binary_round_aux. rewrite Hshr. cbn [shr_m loc_of_shr_record round_nearest_even].
  rewrite Hshr. cbn [shr_m].
  replace (e <=? emax - prec) with true; [reflexivity|].
  symmetry. apply Z.leb_le. unfold emax, prec. lia.
Qed.

Lemma valid_binary_normal (sx : bool) (m : positive) (e : Z) :
  Z.pos (digits2_pos m) = 53 ->
  -1074 <= e <= 971 ->
  valid_binary (S754_finite sx m e) = true.
Proof.
  intros Hd He. unfold SpecFloat.valid_binary, bounded, canonical_mantissa.
  rewrite Hd, fexp_normal by lia.
  apply andb_true_intro. split.
  - apply Z.eqb_eq. lia.
  - apply Z.leb_le. unfold emax, prec. lia.
Qed.

(** A valid finite double at or above the exponent of 1 is normal. *)
Lemma valid_binary_digits (sx : bool) (m : positive) (e : Z) :
  valid_binary (S754_finite sx m e) = true ->
  -1074 < e ->
  Z.pos (digits2_pos m) = 53 /\ e <= 971.
Proof.
  unfold SpecFloat.valid_binary, bounded, canonical_mantissa, fexp, emin,
    prec, emax.
  intros Hv He. apply andb_prop in Hv as [Hc Hb].
  apply Z.eqb_eq in Hc. apply Z.leb_le in Hb. lia.
Qed.

(** ** Whole numbers below 2^53 are doubles *)

Lemma iter_xO_pow (p q : positive) :
  Z.pos (Pos.iter xO p q) = Z.pos p * 2 ^ Z.pos q.
Proof.
  revert p. induction q as [q IH|q IH|]; intros p; simpl Pos.iter.
  - rewrite (Pos2Z.inj_xO (Pos.iter _ _ _)), IH, IH, (Pos2Z.inj_xI q).
    replace (2 * Z.pos q + 1) with (1 + Z.pos q + Z.pos q) by lia.
    rewrite !Z.pow_add_r by lia. simpl (2 ^ 1). lia.
  - rewrite IH, IH, (Pos2Z.inj_xO q).
    replace (2 * Z.pos q) with (Z.pos q + Z.pos q) by lia.
    rewrite !Z.pow_add_r by lia. lia.
  - rewrite (Pos2Z.inj_xO p). simpl (2 ^ 1). lia.
Qed.

Lemma Prim2SF_float_of_Z (p : positive) :
  Z.pos p < 2 ^ 53 ->
  exists m e,
    Prim2SF (float_of_Z (Z.pos p)) = S754_finite false m e /\
    -52 <= e <= 0 /\
    Z.pos m = Z.pos p * 2 ^ (- e).
Proof.
  intros Hp.
  pose proof (digits2_pos_bounds p) as [Hlo Hhi].
  set (d := Z.pos (digits2_pos p)) in *.
  assert (Hd : 1 <= d <= 53).
  { split; [unfold d; lia|].
    destruct (Z_le_gt_dec d 53) as [?|Hgt]; [assumption|].
    assert (2 ^ 53 <= 2 ^ (d - 1)) by (apply Z.pow_le_mono_r; lia). lia. }
  assert (Halign : exists m,
             shl_align p 0 (fexp prec emax (d + 0)) = (m, d - 53) /\
             Z.pos m = Z.pos p * 2 ^ (53 - d)).
  { rewrite fexp_normal by lia. unfold shl_align.
    replace (d + 0 - 53 - 0) with (d - 53) by lia.
    destruct (d - 53) as [|q|q] eqn:Hq; try lia.
    - exists p. replace d with 53 by lia. split; [reflexivity|].
      simpl. lia.
    - exists (Pos.iter xO p q). replace (d + 0 - 53) with (Z.neg q) by lia.
      split; [reflexivity|].
      rewrite iter_xO_pow. f_equal. f_equal. lia. }
  destruct Halign as (m & Halign & Hm).
  assert (Hdm : Z.pos (digits2_pos m) = 53).
  { apply digits2_pos_unique. rewrite Hm.
    replace (2 ^ (53 - 1)) with (2 ^ (d - 1) * 2 ^ (53 - d))
      by (rewrite <- Z.pow_add_r by lia; f_equal; lia).
    replace (2 ^ 53) with (2 ^ d * 2 ^ (53 - d))
      by (rewrite <- Z.pow_add_r by lia; f_equal; lia).
    assert (0 < 2 ^ (53 - d)) by (apply Z.pow_pos_nonneg; lia).
    split; nia. }
  exists m, (d - 53). split; [|split; [lia|]].
  - unfold float_of_Z, binary_normalize, binary_round. fold d. rewrite Halign.
    rewrite binary_round_aux_exact by (try assumption; lia).
    apply Prim2SF_SF2Prim. apply valid_binary_normal; [assumption | lia].
  - rewrite Hm. f_equal. f_equal. lia.
Qed.

(** Read back as a BigNumber, the double of a whole number between 0 and
    2^53 is that number, unless it is [MAX_SAFE] itself. *)
Lemma from_number_float_of_Z (z : Z) :
  0 < z < 2 ^ 53 ->
  BigNumber.from_number (float_of_Z z) =
    if BigNumber.MAX_SAFE <=? z then throw (NumericFault "overflow") else ok z.
Proof.
  intros [Hpos Hlt]. destruct z as [|p|p]; try lia.
  destruct (Prim2SF_float_of_Z p Hlt) as (m & e & Hsf & He & Hm).
  unfold BigNumber.from_number. rewrite Hsf.
  assert (Hpow : 0 < 2 ^ (- e)) by (apply Z.pow_pos_nonneg; lia).
  assert (Hland : Z.land (Z.pos m) (Z.ones (- e)) = 0).
  { rewrite Z.land_ones by lia. rewrite Hm. apply Z.mod_mul. lia. }
  rewrite Hland. rewrite andb_false_r.
  assert (Hv : Z.shiftl (Z.pos m) e = Z.pos p).
  { rewrite Z.shiftl_div_pow2 by lia. rewrite Hm. apply Z.div_mul. lia. }
  cbv zeta. rewrite Hv.
  replace (Z.pos p <=? - BigNumber.MAX_SAFE) with false
    by (symmetry; apply Z.leb_gt; unfold BigNumber.MAX_SAFE; lia).
  rewrite orb_false_r. reflexivity.
Qed.

(** ** The product of a double and 100 *)

(** A normal double of value at least 1, times 100: the product rounds to
    an infinity or to a normal double of value at least 100. *)
Lemma times_100_at_least (m : positive) (e : Z) :
  Z.pos (digits2_pos m) = 53 ->
  -52 <= e <= 971 ->
  let product :=
    SFmul prec emax (S754_finite false m e)
      (S754_finite false 7036874417766400 (-46)) in
  product = S754_infinity false \/
  exists m' e',
    product = S754_finite false m' e' /\
    Z.pos (digits2_pos m') = 53 /\
    -46 <= e' <= 971 /\
    (e' < 0 -> 100 * 2 ^ (- e') <= Z.pos m').
Proof.
  intros Hdm He product.
  pose proof (digits2_pos_bounds m) as Hm. rewrite Hdm in Hm.
  set (M := (m * 7036874417766400)%positive).
  assert (HM : Z.pos M = Z.pos m * (25 * 2 ^ 48)) by reflexivity.
  pose proof (digits2_pos_bounds M) as HdM.
  set (d := Z.pos (digits2_pos M)) in *.
  assert (Hd : 105 <= d <= 106).
  { split.
    - destruct (Z_le_gt_dec 105 d) as [?|Hlt]; [assumption|].
      assert (2 ^ d <= 2 ^ 104) by (apply Z.pow_le_mono_r; lia).
      change (2 ^ (53 - 1)) with 4503599627370496 in Hm.
      change (2 ^ 104) with 20282409603651670423947251286016 in *.
      change (2 ^ 48) with 281474976710656 in HM. lia.
    - destruct (Z_le_gt_dec d 106) as [?|Hgt]; [assumption|].
      assert (2 ^ 106 <= 2 ^ (d - 1)) by (apply Z.pow_le_mono_r; lia).
      change (2 ^ 53) with 9007199254740992 in Hm.
      change (2 ^ 106) with 81129638414606681695789005144064 in *.
      change (2 ^ 48) with 281474976710656 in HM. lia. }
  set (n := d - 53).
  set (e1 := e + -46 + n).
  assert (Hn : 0 < 2 ^ n) by (apply Z.pow_pos_nonneg; unfold n; lia).
  (* the first shift *)
  assert (Hshr : exists mrs,
             shr_fexp prec emax (Z.pos M) (e + -46) loc_Exact = (mrs, e1) /\
             shr_m mrs = Z.pos M / 2 ^ n).
  { unfold shr_fexp, Zdigits2. fold d. rewrite fexp_normal by lia.
    replace (d + (e + -46) - 53 - (e + -46)) with n by (unfold n; lia).
    unfold shr. destruct n as [|q|q] eqn:Hq; try (unfold n in Hq; lia).
    eexists. split; [reflexivity|].
    now rewrite iter_shr_1_div by (simpl; lia). }
  destruct Hshr as (mrs & Hshr & Hm1).
  set (m1 := shr_m mrs) in *.
  assert (Hm1b : 2 ^ 52 <= m1 < 2 ^ 53).
  { rewrite Hm1. split.
    - apply Z.div_le_lower_bound; [assumption|].
      rewrite <- Z.pow_add_r by (unfold n; lia).
      replace (n + 52) with (d - 1) by (unfold n; lia). lia.
    - apply Z.div_lt_upper_bound; [assumption|].
      rewrite <- Z.pow_add_r by (unfold n; lia).
      replace (n + 53) with d by (unfold n; lia). lia. }
  assert (Hm1lo : e1 < 0 -> 100 * 2 ^ (- e1) <= m1).
  { intros Hneg. rewrite Hm1. apply Z.div_le_lower_bound; [assumption|].
    replace (2 ^ n * (100 * 2 ^ (- e1))) with (25 * (2 ^ 2 * 2 ^ n * 2 ^ (- e1)))
      by (simpl (2 ^ 2); lia).
    rewrite <- !Z.pow_add_r by (unfold e1, n in *; lia).
    replace (2 + n + - e1) with (48 - e) by (unfold e1; lia).
    rewrite HM.
    assert (2 ^ (48 - e) <= 2 ^ 100) by (apply Z.pow_le_mono_r; lia).
    change (2 ^ (53 - 1)) with (2 ^ 52) in Hm.
    assert (2 ^ 100 = 2 ^ 52 * 2 ^ 48) by reflexivity.
    assert (0 < 2 ^ 48) by reflexivity. nia. }
  (* the rounding *)
  pose proof (round_nearest_even_bounds m1 (loc_of_shr_record mrs)) as Hm2.
  set (m2 := round_nearest_even m1 (loc_of_shr_record mrs)) in *.
  assert (He1 : -46 <= e1) by (unfold e1, n; lia).
  assert (Hunfold : product =
            let '(mrs'', e'') := shr_fexp prec emax m2 e1 loc_Exact in
            match shr_m mrs'' with
            | 0 => S754_zero false
            | Z.pos m0 =>
                if e'' <=? emax - prec then S754_finite false m0 e''
                else S754_infinity false
            | Z.neg _ => S754_nan
            end).
  { unfold product, SFmul, binary_round_aux. simpl xorb. fold M.
    rewrite Hshr. reflexivity. }
  rewrite Hunfold. clear Hunfold.
  destruct (Z_lt_le_dec m2 (2 ^ 53)) as [Hsmall|Hbig].
  - (* no second shift *)
    destruct m2 as [|p2|p2] eqn:Hp2; try lia.
    assert (Hd2 : Z.pos (digits2_pos p2) = 53)
      by (apply digits2_pos_unique; lia).
    unfold shr_fexp, Zdigits2. rewrite Hd2, fexp_normal by lia.
    replace (53 + e1 - 53 - e1) with 0 by lia.
    cbn [shr shr_record_of_loc shr_m].
    destruct (e1 <=? emax - prec) eqn:Hfit; [|now left].
    apply Z.leb_le in Hfit. unfold emax, prec in Hfit.
    right. exists p2, e1. split; [reflexivity|]. split; [assumption|].
    split; [lia|]. intros Hneg. specialize (Hm1lo Hneg). lia.
  - (* the rounded mantissa is 2^53 and is shifted once more *)
    assert (Hm2eq : m2 = 2 ^ 53) by lia. rewrite Hm2eq.
    change (2 ^ 53) with 9007199254740992.
    unfold shr_fexp. change (Zdigits2 9007199254740992) with 54.
    rewrite fexp_normal by lia.
    replace (54 + e1 - 53 - e1) with 1 by lia.
    cbn [shr shr_record_of_loc SpecFloat.iter_pos shr_1 shr_m].
    destruct (e1 + 1 <=? emax - prec) eqn:Hfit; [|now left].
    apply Z.leb_le in Hfit. unfold emax, prec in Hfit.
    right. exists 4503599627370496%positive, (e1 + 1).
    split; [reflexivity|]. split; [reflexivity|]. split; [lia|].
    intros Hneg.
    assert (2 ^ (- (e1 + 1)) <= 2 ^ 45) by (apply Z.pow_le_mono_r; lia).
    change (2 ^ 45) with 35184372088832 in *. lia.
Qed.

(** The buffer in whole percent of a buffer of at least 1: at least 100,
    unless it is too large for [mul]. *)
Lemma percent_at_least_100 (g : float) :
  (1 <=? g)%float = true ->
  (exists k, percent g = ok k /\ 100 <= k < BigNumber.MAX_SAFE) \/
  percent g = throw (NumericFault "overflow").
Proof.
  intros Hg. rewrite leb_spec in Hg.
  change (Prim2SF 1) with (S754_finite false 4503599627370496 (-52)) in Hg.
  pose proof (Prim2SF_valid g) as Hvalid.
  unfold percent, Math_floor.
  rewrite mul_spec.
  change (Prim2SF 100) with (S754_finite false 7036874417766400 (-46)).
  destruct (Prim2SF g) as [s|s| |s m e] eqn:Hsf.
  - discriminate.
  - destruct s; [discriminate|]. right.
    unfold SF64mul, SFmul. simpl xorb.
    unfold BigNumber.from_number. rewrite mul_spec, Hsf. reflexivity.
  - discriminate.
  - destruct s; [discriminate|].
    assert (He : -52 <= e).
    { unfold SFleb, SFcompare in Hg.
      destruct (Z.compare_spec (-52) e) as [Heq|Hlt|Hgt];
        [lia | lia | discriminate]. }
    destruct (valid_binary_digits false m e Hvalid ltac:(lia)) as [Hd Hmax].
    destruct (times_100_at_least m e Hd ltac:(lia))
      as [Hinf|(m' & e' & Hfin & Hd' & He' & Hlo)];
      unfold SF64mul.
    + rewrite Hinf. right. unfold BigNumber.from_number.
      rewrite mul_spec, Hsf. unfold SF64mul.
      change (Prim2SF 100) with (S754_finite false 7036874417766400 (-46)).
      rewrite Hinf. reflexivity.
    + rewrite Hfin.
      pose proof (digits2_pos_bounds m') as Hm'. rewrite Hd' in Hm'.
      change (2 ^ (53 - 1)) with 4503599627370496 in Hm'.
      change (2 ^ 53) with 9007199254740992 in Hm'.
      destruct (0 <=? e') eqn:Hsign.
      * (* the product is a whole number already *)
        apply Z.leb_le in Hsign.
        unfold BigNumber.from_number. rewrite mul_spec, Hsf. unfold SF64mul.
        change (Prim2SF 100) with (S754_finite false 7036874417766400 (-46)).
        rewrite Hfin.
        replace (e' <? 0) with false by (symmetry; apply Z.ltb_ge; lia).
        cbv zeta. simpl andb. cbv iota.
        rewrite Z.shiftl_mul_pow2 by lia.
        assert (0 < 2 ^ e') by (apply Z.pow_pos_nonneg; lia).
        replace (Z.pos m' * 2 ^ e' <=? - BigNumber.MAX_SAFE) with false
          by (symmetry; apply Z.leb_gt; unfold BigNumber.MAX_SAFE; nia).
        rewrite orb_false_r.
        destruct (BigNumber.MAX_SAFE <=? Z.pos m' * 2 ^ e') eqn:Hsafe;
          [now right|].
        apply Z.leb_gt in Hsafe. left. eexists. split; [reflexivity|].
        split; [nia | assumption].
      * (* the product has a fraction, which the floor drops *)
        apply Z.leb_gt in Hsign. specialize (Hlo Hsign).
        assert (Hpow : 0 < 2 ^ (- e')) by (apply Z.pow_pos_nonneg; lia).
        rewrite Z.shiftr_div_pow2 by lia.
        assert (Hfloor : 100 <= Z.pos m' / 2 ^ (- e') < 2 ^ 53).
        { split.
          - apply Z.div_le_lower_bound; lia.
          - apply Z.div_lt_upper_bound; [assumption|].
            change (2 ^ 53) with 9007199254740992. nia. }
        rewrite from_number_float_of_Z by lia.
        destruct (BigNumber.MAX_SAFE <=? Z.pos m' / 2 ^ (- e')) eqn:Hsafe;
          [now right|].
        apply Z.leb_gt in Hsafe. left. eexists. split; [reflexivity|]. lia.
Qed.

End FloatFacts.

(** * Properties *)

Section EngineFacts.
Context {S : Type} `{Provider S}.

Implicit Types (w : World S) (p : BigNumber) (c : number).

(** Unfolding of the monadic plumbing. *)
Ltac plumbing :=
  unfold getOptimalGasPrice, getNetworkCongestion, estimateGasWithBuffer,
    provider_getGasPrice, provider_getBlock, provider_estimateGas,
    try_catch, rethrow, lift, with_provider, console_error, Date_now,
    this_options, gasHistory_push, mbind, M_bind, mret, M_ret in *;
  simpl in *.

(** ** Comparisons of numbers *)

Lemma number_gt_spec (a b : number) : number_gt a b = true <-> (b < a)%Q.
Proof.
  unfold number_gt. rewrite negb_true_iff.
  destruct (Qle_bool a b) eqn:E.
  - apply Qle_bool_iff in E. split; [discriminate|].
    intros Hlt. exfalso. exact (Qlt_not_le _ _ Hlt E).
  - split; [|reflexivity]. intros _. apply Qnot_le_lt.
    intros Hle. apply Qle_bool_iff in Hle. congruence.
Qed.

Lemma number_lt_spec (a b : number) : number_lt a b = true <-> (a < b)%Q.
Proof. unfold number_lt. apply (number_gt_spec b a). Qed.

Lemma number_gt_int (z : Z) :
  number_gt (inject_Z z) (8 # 10) = (0 <? z).
Proof.
  apply eq_true_iff_eq. rewrite number_gt_spec, Z.ltb_lt.
  unfold Qlt, inject_Z. simpl. lia.
Qed.

Lemma number_lt_int (z : Z) :
  number_lt (inject_Z z) (3 # 10) = (z <=? 0).
Proof.
  apply eq_true_iff_eq. rewrite number_lt_spec, Z.leb_le.
  unfold Qlt, inject_Z. simpl. lia.
Qed.

(** A whole number is never in the middle tier. *)
Lemma congestionTier_int (z : Z) :
  congestionTier (parseFloat_BigNumber z) = if 0 <? z then High else Low.
Proof.
  unfold congestionTier, parseFloat_BigNumber.
  rewrite number_gt_int, number_lt_int.
  destruct (0 <? z) eqn:E; [reflexivity|].
  apply Z.ltb_ge in E. apply Z.leb_le in E. now rewrite E.
Qed.

Lemma congestionTier_half : congestionTier (1 # 2) = Medium.
Proof. reflexivity. Qed.

(** The adjustment follows the tier. *)
Lemma adjustedGasPrice_tier p c :
  adjustedGasPrice p c =
    match congestionTier c with
    | High => ok (Z.quot (p * 120) 100)
    | Low => ok (Z.quot (p * 90) 100)
    | Medium => ok p
    end.
Proof.
  unfold adjustedGasPrice, congestionTier.
  destruct (number_gt c (8 # 10)); [reflexivity|].
  destruct (number_lt c (3 # 10)); reflexivity.
Qed.

(** ** getNetworkCongestion *)

(** The four ways [getNetworkCongestion] can go, by the provider's answer. *)
Lemma getNetworkCongestion_cases w :
  getNetworkCongestion w =
    match getBlock (provider (this w)) with
    | (ok (Some b), s') =>
        if gasLimit b =? 0 then
          (ok (1 # 2)%Q,
           snd (console_error "Error calculating network congestion:"
                  DivisionByZero (set_provider s' w)))
        else
          (ok (parseFloat_BigNumber (Z.quot (gasUsed b) (gasLimit b))),
           set_provider s' w)
    | (ok None, s') =>
        (ok (1 # 2)%Q,
         snd (console_error "Error calculating network congestion:"
                (TypeError "Cannot read properties of null")
                (set_provider s' w)))
    | (throw e, s') =>
        (ok (1 # 2)%Q,
         snd (console_error "Error calculating network congestion:" e
                (set_provider s' w)))
    end.
Proof.
  plumbing. destruct (getBlock (provider (this w))) as [[[b|]|e] s']; simpl;
    try reflexivity.
  unfold BigNumber.div. destruct (gasLimit b =? 0); reflexivity.
Qed.

(** [getNetworkCongestion] never throws and leaves the configuration and
    the history alone. *)
Lemma getNetworkCongestion_total w :
  exists c w',
    getNetworkCongestion w = (ok c, w') /\
    options (this w') = options (this w) /\
    gasHistory (this w') = gasHistory (this w).
Proof.
  rewrite getNetworkCongestion_cases.
  destruct (getBlock (provider (this w))) as [[[b|]|e] s'];
    [destruct (gasLimit b =? 0)| |]; eauto.
Qed.


(** ** getOptimalGasPrice *)

Lemma adjustedGasPrice_ok p c : exists a, adjustedGasPrice p c = ok a.
Proof. rewrite adjustedGasPrice_tier. destruct (congestionTier c); eauto. Qed.

(** The [try] block, when the price fetch answers. *)
Lemma getOptimalGasPrice_try w p s1 c w' a :
  getGasPrice (provider (this w)) = (ok p, s1) ->
  getNetworkCongestion (set_provider s1 w) = (ok c, w') ->
  adjustedGasPrice p c = ok a ->
  getOptimalGasPrice w =
    (ok (capGasPrice a (maxGasPrice (options (this w')))), w').
Proof.
  intros Hp Hc Ha.
  unfold getOptimalGasPrice, try_catch, provider_getGasPrice, with_provider,
    lift, this_options, mbind, M_bind, mret, M_ret.
  now rewrite Hp, Hc, Ha.
Qed.

(** The [catch] block, when the price fetch fails: the failure is logged
    and the price is fetched once more; that answer is the result. *)
Lemma getOptimalGasPrice_catch w e s1 :
  getGasPrice (provider (this w)) = (throw e, s1) ->
  getOptimalGasPrice w =
    provider_getGasPrice
      (snd (console_error "Error getting optimal gas price:" e
              (set_provider s1 w))).
Proof.
  intros Hp.
  unfold getOptimalGasPrice, try_catch, provider_getGasPrice, with_provider,
    mbind, M_bind.
  now rewrite Hp.
Qed.

Lemma capGasPrice_le a limit : capGasPrice a limit <= limit.
Proof.
  unfold capGasPrice, BigNumber.gt.
  destruct (limit <? a) eqn:E; [lia|]. apply Z.ltb_ge in E. lia.
Qed.

Lemma capGasPrice_nonneg a limit : 0 <= a -> 0 <= limit -> 0 <= capGasPrice a limit.
Proof. unfold capGasPrice. destruct (BigNumber.gt a limit); lia. Qed.

Lemma capGasPrice_id a limit : a <= limit -> capGasPrice a limit = a.
Proof.
  intros Hle. unfold capGasPrice, BigNumber.gt.
  destruct (limit <? a) eqn:E; [|reflexivity]. apply Z.ltb_lt in E. lia.
Qed.

Lemma adjustedGasPrice_nonneg p c a :
  0 <= p -> adjustedGasPrice p c = ok a -> 0 <= a.
Proof.
  intros Hp. rewrite adjustedGasPrice_tier.
  destruct (congestionTier c); intros [= <-];
    try apply Z.quot_pos; lia.
Qed.


(** The cap on the [try] path.  Whenever the first price fetch answers with
    a price [p >= 0] and the configured maximum is not negative,
    [getOptimalGasPrice] returns, whatever the block fetch does, and its
    result lies between 0 and [maxGasPrice]. *)
Lemma getOptimalGasPrice_capped w p s1 :
  getGasPrice (provider (this w)) = (ok p, s1) ->
  0 <= p ->
  0 <= maxGasPrice (options (this w)) ->
  exists v w',
    getOptimalGasPrice w = (ok v, w') /\
    0 <= v <= maxGasPrice (options (this w)).
Proof.
  intros Hp Hp0 Hmax.
  destruct (getNetworkCongestion_total (set_provider s1 w))
    as (c & w' & Hc & Hopt & _).
  destruct (adjustedGasPrice_ok p c) as [a Ha].
  exists (capGasPrice a (maxGasPrice (options (this w')))), w'.
  split; [now apply (getOptimalGasPrice_try w p s1 c)|].
  rewrite Hopt. simpl. split.
  - apply capGasPrice_nonneg; [|assumption].
    now apply (adjustedGasPrice_nonneg p c).
  - apply capGasPrice_le.
Qed.

(** C5.  A latest block whose [gasLimit] is zero does not make the
    congestion computation throw: the ratio defaults to 0.5, which is the
    middle tier, the price is left unadjusted, and the result of
    [getOptimalGasPrice] is the base price under the cap. *)
Theorem zero_gasLimit_medium_tier w p s1 b s2 :
  getGasPrice (provider (this w)) = (ok p, s1) ->
  getBlock s1 = (ok (Some b), s2) ->
  gasLimit b = 0 ->
  fst (getNetworkCongestion (set_provider s1 w)) = ok (1 # 2)%Q /\
  congestionTier (1 # 2) = Medium /\
  adjustedGasPrice p (1 # 2) = ok p /\
  fst (getOptimalGasPrice w) =
    ok (capGasPrice p (maxGasPrice (options (this w)))) /\
  (p <= maxGasPrice (options (this w)) -> fst (getOptimalGasPrice w) = ok p).
Proof.
  intros Hp Hb Hz.
  assert (Hc : getNetworkCongestion (set_provider s1 w) =
               (ok (1 # 2)%Q,
                snd (console_error "Error calculating network congestion:"
                       DivisionByZero (set_provider s2 (set_provider s1 w))))).
  { rewrite getNetworkCongestion_cases. simpl. rewrite Hb, Hz. reflexivity. }
  assert (Hrun : fst (getOptimalGasPrice w) =
                 ok (capGasPrice p (maxGasPrice (options (this w))))).
  { erewrite getOptimalGasPrice_try; [| exact Hp | exact Hc | reflexivity].
    reflexivity. }
  repeat split; try reflexivity.
  - now rewrite Hc.
  - exact Hrun.
  - intros Hle. rewrite Hrun. now rewrite capGasPrice_id.
Qed.

(** C6 (amended).  A failed congestion computation (the block fetch
    fails, answers no block, or answers a block with a zero gas limit) is
    logged and not propagated: the congestion defaults to 0.5 and the
    result is the unadjusted base price under the cap.  A failed price
    fetch is logged and the price is fetched a second time; the answer to
    that second fetch, a raw price or a failure, is the outcome as it is.
    On both paths the log gains exactly one line and nothing else of the
    world changes but the state of the provider. *)
Theorem getOptimalGasPrice_fallback w :
  (forall p s1 r s2,
      getGasPrice (provider (this w)) = (ok p, s1) ->
      getBlock s1 = (r, s2) ->
      congestion_unavailable r ->
      let e := match r with
               | throw e => e
               | ok None => TypeError "Cannot read properties of null"
               | ok (Some _) => DivisionByZero
               end in
      exists w',
        getNetworkCongestion (set_provider s1 w) = (ok (1 # 2)%Q, w') /\
        getOptimalGasPrice w =
          (ok (capGasPrice p (maxGasPrice (options (this w)))), w') /\
        w' = snd (console_error "Error calculating network congestion:" e
                    (set_provider s2 w)) /\
        console w' =
          console w ++ [{| log_message := "Error calculating network congestion:";
                           log_error := e |}]) /\
  (forall e s1 r s2,
      getGasPrice (provider (this w)) = (throw e, s1) ->
      getGasPrice s1 = (r, s2) ->
      exists w',
        getOptimalGasPrice w = (r, w') /\
        w' = set_provider s2
               (snd (console_error "Error getting optimal gas price:" e w)) /\
        console w' =
          console w ++ [{| log_message := "Error getting optimal gas price:";
                           log_error := e |}]).
Proof.
  split.
  - intros p s1 r s2 Hp Hb Hun.
    intros e.
    assert (Hc : getNetworkCongestion (set_provider s1 w) =
                 (ok (1 # 2)%Q,
                  snd (console_error "Error calculating network congestion:" e
                         (set_provider s2 w)))).
    { rewrite getNetworkCongestion_cases. simpl. rewrite Hb. unfold e.
      destruct r as [[b|]|e']; simpl in Hun.
      - rewrite Hun. reflexivity.
      - reflexivity.
      - reflexivity. }
    eexists.
    split; [exact Hc|]. split; [|split; reflexivity].
    erewrite getOptimalGasPrice_try; [| exact Hp | exact Hc | reflexivity].
    reflexivity.
  - intros e s1 r s2 Hp Hp2.
    rewrite (getOptimalGasPrice_catch w e s1 Hp).
    unfold provider_getGasPrice, with_provider. simpl. rewrite Hp2.
    eexists. split; [reflexivity|]. split; reflexivity.
Qed.

(** C7.  When the provider rejects the gas simulation of a transaction,
    [estimateGasWithBuffer] throws that same failure: the provider has
    been called once, the failure is logged, and no record is added to
    the history. *)
Theorem estimateGasWithBuffer_surfaces_failure w tx e s' :
  estimateGas tx (provider (this w)) = (throw e, s') ->
  exists w',
    estimateGasWithBuffer tx w = (throw e, w') /\
    provider (this w') = s' /\
    gasHistory (this w') = gasHistory (this w) /\
    console w' =
      console w ++ [{| log_message := "Error estimating gas:";
                       log_error := e |}].
Proof.
  intros He.
  unfold estimateGasWithBuffer, try_catch, provider_estimateGas,
    with_provider, mbind, M_bind.
  rewrite He. simpl. eexists. split; [reflexivity|]. simpl. auto.
Qed.

(** C10.  The congestion ratio is an integer quotient.  For a fetched
    block with [0 < gasLimit] and [0 <= gasUsed]: a partially full block
    gives exactly 0 and the discount; the ratio is 1 only if
    [gasUsed >= gasLimit]; the tier is never the middle one.  In any
    world, the middle tier comes only from the handler's value 0.5. *)
Theorem integer_congestion_ratio w :
  (forall b s',
      getBlock (provider (this w)) = (ok (Some b), s') ->
      0 < gasLimit b -> 0 <= gasUsed b ->
      exists c,
        getNetworkCongestion w = (ok c, set_provider s' w) /\
        c = inject_Z (Z.quot (gasUsed b) (gasLimit b)) /\
        (0 < gasUsed b < gasLimit b ->
         c = inject_Z 0 /\ congestionTier c = Low /\
         forall p, adjustedGasPrice p c = ok (Z.quot (p * 90) 100)) /\
        ((c == 1)%Q -> gasLimit b <= gasUsed b) /\
        congestionTier c <> Medium) /\
  (forall c w',
      getNetworkCongestion w = (ok c, w') ->
      congestionTier c = Medium ->
      c = (1 # 2)%Q /\
      exists e,
        console w' =
          console w ++ [{| log_message := "Error calculating network congestion:";
                           log_error := e |}]).
Proof.
  split.
  - intros b s' Hb Hlim Hused.
    exists (inject_Z (Z.quot (gasUsed b) (gasLimit b))).
    split; [|split; [reflexivity|]].
    { rewrite getNetworkCongestion_cases, Hb.
      destruct (gasLimit b =? 0) eqn:E; [apply Z.eqb_eq in E; lia|].
      reflexivity. }
    split; [|split].
    + intros Hpart. rewrite Z.quot_small by lia.
      split; [reflexivity|]. split; [reflexivity|].
      intros p. rewrite adjustedGasPrice_tier. reflexivity.
    + intros Hone.
      assert (Hq : Z.quot (gasUsed b) (gasLimit b) = 1).
      { unfold Qeq, inject_Z in Hone. simpl in Hone. lia. }
      destruct (Z_lt_le_dec (gasUsed b) (gasLimit b)) as [Hlt|Hle];
        [|assumption].
      rewrite Z.quot_small in Hq by lia. discriminate.
    + change (inject_Z ?z) with (parseFloat_BigNumber z).
      rewrite congestionTier_int.
      destruct (0 <? _); discriminate.
  - intros c w' Hrun Hmid.
    rewrite getNetworkCongestion_cases in Hrun.
    destruct (getBlock (provider (this w))) as [[[b|]|e] s'].
    + destruct (gasLimit b =? 0).
      * injection Hrun as <- <-. split; [reflexivity|]. simpl. eauto.
      * injection Hrun as <- <-.
        rewrite congestionTier_int in Hmid.
        destruct (0 <? _); discriminate.
    + injection Hrun as <- <-. split; [reflexivity|]. simpl. eauto.
    + injection Hrun as <- <-. split; [reflexivity|]. simpl. eauto.
Qed.

End EngineFacts.

Section PricingFacts.
Context {S : Type} `{Provider S}.

Implicit Types (w : World S) (p r : BigNumber) (c : number).

(** Truncating division by 100 of a non-negative product is the floor of
    the exact percentage. *)
Lemma quot_percent (p k : Z) :
  0 <= p -> 0 <= k ->
  Z.quot (p * k) 100 = Qfloor (inject_Z p * (k # 100)).
Proof.
  intros Hp Hk. rewrite Z.quot_div_nonneg by lia.
  unfold Qfloor, Qmult, inject_Z. simpl.
  f_equal.
Qed.

(** C2 (amended).  The adjusted price is computed on integers: 120% of
    the base price truncated to a whole unit above congestion 0.8, 90%
    truncated below 0.3, the base price itself in between.  For a
    non-negative price the truncation is the floor of the exact product.
    Base price 10 at congestion 0.9 gives 12, capped to 11 by a maximum
    of 11. *)
Theorem adjustedGasPrice_truncates p c :
  ((8 # 10 < c)%Q ->
     adjustedGasPrice p c = ok (Z.quot (p * 120) 100)) /\
  ((c < 3 # 10)%Q ->
     adjustedGasPrice p c = ok (Z.quot (p * 90) 100)) /\
  ((3 # 10 <= c)%Q -> (c <= 8 # 10)%Q ->
     adjustedGasPrice p c = ok p) /\
  (0 <= p ->
     Z.quot (p * 120) 100 = Qfloor (inject_Z p * (120 # 100)) /\
     Z.quot (p * 90) 100 = Qfloor (inject_Z p * (90 # 100))) /\
  adjustedGasPrice 10 (9 # 10) = ok 12 /\
  capGasPrice 12 11 = 11.
Proof.
  split; [|split; [|split; [|split; [|split; reflexivity]]]].
  - intros Hc. unfold adjustedGasPrice.
    apply number_gt_spec in Hc. now rewrite Hc.
  - intros Hc. unfold adjustedGasPrice.
    assert (Hn : number_gt c (8 # 10) = false).
    { apply not_true_is_false. rewrite number_gt_spec. intros Hgt.
      apply (Qlt_irrefl c). apply Qlt_trans with (3 # 10)%Q; [assumption|].
      apply Qlt_trans with (8 # 10)%Q; [reflexivity | assumption]. }
    apply number_lt_spec in Hc. now rewrite Hn, Hc.
  - intros Hlo Hhi. unfold adjustedGasPrice.
    assert (Hn : number_gt c (8 # 10) = false).
    { apply not_true_is_false. rewrite number_gt_spec.
      now apply Qle_not_lt. }
    assert (Hm : number_lt c (3 # 10) = false).
    { apply not_true_is_false. rewrite number_lt_spec.
      now apply Qle_not_lt. }
    now rewrite Hn, Hm.
  - intros Hp. split; apply quot_percent; lia.
Qed.

(** ** estimateGasWithBuffer *)

Lemma bufferGas_percent (r : BigNumber) (g : float) (k : BigNumber) :
  percent g = ok k -> bufferGas r g = ok (Z.quot (r * k) 100).
Proof.
  unfold percent, bufferGas, BigNumber.mul_number. now intros ->.
Qed.

Lemma bufferGas_fault (r : BigNumber) (g : float) (e : Error) :
  percent g = throw e -> bufferGas r g = throw e.
Proof.
  unfold percent, bufferGas, BigNumber.mul_number. now intros ->.
Qed.

Lemma bufferGas_returns (g : BigNumber) (gb : float) (b : BigNumber) :
  bufferGas g gb = ok b ->
  exists k, percent gb = ok k /\ b = Z.quot (g * k) 100.
Proof.
  unfold bufferGas, BigNumber.mul_number, percent.
  destruct (BigNumber.from_number _) as [k|e]; [|discriminate].
  intros [= <-]. now exists k.
Qed.

(** The [try] block, when the simulation answers and the buffered value
    can be computed. *)
Lemma estimateGasWithBuffer_try w tx r s' b :
  estimateGas tx (provider (this w)) = (ok r, s') ->
  bufferGas r (gasBuffer (options (this w))) = ok b ->
  estimateGasWithBuffer tx w =
    (ok b,
     snd (gasHistory_push {| timestamp := clock w;
                             estimated := r;
                             buffered := b |}
            (set_provider s' w))).
Proof.
  intros He Hb.
  unfold estimateGasWithBuffer, try_catch, provider_estimateGas,
    with_provider, lift, this_options, Date_now, mbind, M_bind, mret, M_ret.
  rewrite He. simpl. rewrite Hb. reflexivity.
Qed.

(** The [catch] block, when the simulation answers and the multiplication
    by the buffer throws. *)
Lemma estimateGasWithBuffer_fault w tx r s' e :
  estimateGas tx (provider (this w)) = (ok r, s') ->
  bufferGas r (gasBuffer (options (this w))) = throw e ->
  estimateGasWithBuffer tx w =
    (throw e, snd (console_error "Error estimating gas:" e (set_provider s' w))).
Proof.
  intros He Hb.
  unfold estimateGasWithBuffer, try_catch, provider_estimateGas,
    with_provider, lift, this_options, Date_now, mbind, M_bind, mret, M_ret.
  rewrite He. simpl. rewrite Hb. reflexivity.
Qed.

(** The [catch] block, when the simulation is rejected. *)
Lemma estimateGasWithBuffer_catch w tx e s' :
  estimateGas tx (provider (this w)) = (throw e, s') ->
  estimateGasWithBuffer tx w =
    (throw e, snd (console_error "Error estimating gas:" e (set_provider s' w))).
Proof.
  intros He.
  unfold estimateGasWithBuffer, try_catch, provider_estimateGas,
    with_provider, mbind, M_bind.
  rewrite He. reflexivity.
Qed.

(** C3 (amended).  With [k = Math.floor(gasBuffer * 100)], the buffer in
    whole percent as the doubles give it, for a buffer of at least 1 and a
    raw estimate [r >= 0]: either [k] is below [MAX_SAFE = 2^53 - 1], and
    then [k >= 100] and [estimateGasWithBuffer] returns
    [floor(r * k / 100)], which is at least [r] and is recorded in the
    history; or [mul] throws an overflow fault, which is logged and
    rethrown, and no record is written. *)
Theorem estimateGasWithBuffer_percent w tx r s' :
  estimateGas tx (provider (this w)) = (ok r, s') ->
  0 <= r ->
  (1 <=? gasBuffer (options (this w)))%float = true ->
  (exists k w',
     percent (gasBuffer (options (this w))) = ok k /\
     100 <= k < BigNumber.MAX_SAFE /\
     estimateGasWithBuffer tx w = (ok (r * k / 100), w') /\
     r <= r * k / 100 /\
     gasHistory (this w') =
       gasHistory (this w) ++ [{| timestamp := clock w;
                                  estimated := r;
                                  buffered := r * k / 100 |}]) \/
  (exists w',
     percent (gasBuffer (options (this w))) = throw (NumericFault "overflow") /\
     estimateGasWithBuffer tx w = (throw (NumericFault "overflow"), w') /\
     gasHistory (this w') = gasHistory (this w) /\
     console w' =
       console w ++ [{| log_message := "Error estimating gas:";
                        log_error := NumericFault "overflow" |}]).
Proof.
  intros He Hr Hg.
  destruct (percent_at_least_100 _ Hg) as [(k & Hk & Hrange)|Hover].
  - left. exists k. eexists. split; [exact Hk|]. split; [exact Hrange|].
    rewrite (estimateGasWithBuffer_try w tx r s' _ He
               (bufferGas_percent r _ k Hk)).
    rewrite Z.quot_div_nonneg by lia.
    split; [reflexivity|]. split; [|reflexivity].
    apply Z.div_le_lower_bound; nia.
  - right. eexists. split; [exact Hover|].
    rewrite (estimateGasWithBuffer_fault w tx r s' _ He
               (bufferGas_fault r _ _ Hover)).
    split; [reflexivity|]. split; reflexivity.
Qed.

(** ** constructor *)

(** C8 (amended).  Construction never fails and never validates: an
    option that is given is stored as it is, whatever its value, and the
    defaults (20 gwei, 1.1, 10) stand in only for the options that are
    absent. *)
Theorem constructor_keeps_given_options (s : S) (o : UserOptions) :
  constructor s o =
    {| provider := s;
       options :=
         {| maxGasPrice :=
              default (BigNumber.parseUnits_gwei 20) (user_maxGasPrice o);
            gasBuffer := default 1.1%float (user_gasBuffer o);
            batchSize := default 10 (user_batchSize o) |};
       gasHistory := [] |}.
Proof.
  destruct o as [[m|] [g|] [b|]]; reflexivity.
Qed.

End PricingFacts.

Section StatsFacts.
Context {S : Type} `{Provider S}.

(** [slice(-10)] keeps the ten most recent entries. *)
Lemma Array_slice_from_last {A} (l : list A) :
  Array_slice_from l (-10) = last_n 10 l.
Proof.
  unfold Array_slice_from, Array_slice, last_n, slice_index.
  set (len := Z.of_nat (length l)).
  assert (Hlen : 0 <= len) by (unfold len; lia).
  change (-10 <? 0) with true. cbv iota.
  destruct (len <? 0) eqn:E; [apply Z.ltb_lt in E; lia|].
  rewrite Z.min_id.
  replace (Z.to_nat (Z.max (len + -10) 0)) with (length l - 10)%nat
    by (unfold len; lia).
  apply take_ge. rewrite length_drop. unfold len. lia.
Qed.

Lemma length_last_n {A} (n : nat) (l : list A) :
  length (last_n n l) = Nat.min n (length l).
Proof. unfold last_n. rewrite length_drop. lia. Qed.

(** The running sum of [reduce] is the double sum, from the left, of the
    values that [parseInt] reads. *)
Lemma reduce_sum {A} (f : A -> Z) (l : list A) (a : float) :
  fold_left (fun sum entry => (sum + parseInt (f entry))%float) l a =
    fold_left PrimFloat.add (map (fun entry => parseInt (f entry)) l) a.
Proof.
  revert a. induction l as [|x l IH]; intros a; simpl; [reflexivity|].
  apply IH.
Qed.

(** The statistics of a non-empty history, over its last ten records. *)
Lemma getGasStats_nonempty (o : BaseGasOptimizer S) :
  gasHistory o <> [] ->
  let recent := last_n 10 (gasHistory o) in
  let n := float_of_Z (Z.of_nat (length recent)) in
  let meanRaw :=
    (float_sum (map (fun r => parseInt (estimated r)) recent) / n)%float in
  let meanBuffered :=
    (float_sum (map (fun r => parseInt (buffered r)) recent) / n)%float in
  getGasStats o =
    Stats (length (gasHistory o)) (Math_floor meanRaw) (Math_floor meanBuffered)
      (toFixed2 ((meanBuffered - meanRaw) / meanRaw * 100)%float +:+ "%").
Proof.
  intros Hne recent n meanRaw meanBuffered. unfold getGasStats.
  destruct (length (gasHistory o) =? 0)%nat eqn:E.
  { apply Nat.eqb_eq in E. destruct (gasHistory o); [congruence|discriminate]. }
  rewrite Array_slice_from_last. fold recent. fold n.
  rewrite !reduce_sum. reflexivity.
Qed.

Lemma float_sum_zeros (l : list GasEstimateRecord) (f : GasEstimateRecord -> Z) :
  Forall (fun r => f r = 0) l ->
  float_sum (map (fun r => parseInt (f r)) l) = 0%float.
Proof.
  unfold float_sum. induction 1 as [|r l Hr _ IH]; [reflexivity|].
  simpl. rewrite Hr. exact IH.
Qed.

(** Zero divided by a number of records from 1 to 10, and the percentage
    made of two such means. *)
Lemma efficiency_of_zeros (n : nat) :
  (1 <= n <= 10)%nat ->
  let mean := (0 / float_of_Z (Z.of_nat n))%float in
  toFixed2 ((mean - mean) / mean * 100)%float = "NaN".
Proof.
  intros Hn.
  do 11 (destruct n as [|n]; [try lia; reflexivity|]). lia.
Qed.

(** C9 (amended).  On an empty history [getGasStats] answers with the
    "no history" message.  Otherwise it reports the number of records of
    the whole history and, over the last [min 10 n] records, read with
    [parseInt] and summed and divided as doubles, [Math.floor] of the mean
    raw estimate, [Math.floor] of the mean buffered estimate, and the
    percentage [(meanBuffered - meanRaw) / meanRaw * 100] computed on these
    doubles and written by [toFixed(2)].  No division fails: when the
    records of the window are all zero the percentage is ["NaN%"]. *)
Theorem getGasStats_floor_means (o : BaseGasOptimizer S) :
  (gasHistory o = [] ->
     getGasStats o = NoHistory "No gas history available") /\
  (gasHistory o <> [] ->
     let recent := last_n 10 (gasHistory o) in
     let n := float_of_Z (Z.of_nat (length recent)) in
     let meanRaw :=
       (float_sum (map (fun r => parseInt (estimated r)) recent) / n)%float in
     let meanBuffered :=
       (float_sum (map (fun r => parseInt (buffered r)) recent) / n)%float in
     length recent = Nat.min 10 (length (gasHistory o)) /\
     exists efficiency,
       getGasStats o =
         Stats (length (gasHistory o))
           (Math_floor meanRaw) (Math_floor meanBuffered) efficiency /\
       efficiency =
         toFixed2 ((meanBuffered - meanRaw) / meanRaw * 100)%float +:+ "%" /\
       (Forall (fun r => estimated r = 0 /\ buffered r = 0) recent ->
        efficiency = "NaN%")).
Proof.
  split.
  - intros Hnil. unfold getGasStats. now rewrite Hnil.
  - intros Hne recent n meanRaw meanBuffered.
    split; [apply length_last_n|].
    eexists. split; [apply (getGasStats_nonempty o Hne)|].
    split; [reflexivity|].
    intros Hzero.
    assert (Hraw : Forall (fun r => estimated r = 0) recent)
      by (eapply Forall_impl; [exact Hzero | now intros r [? _]]).
    assert (Hbuf : Forall (fun r => buffered r = 0) recent)
      by (eapply Forall_impl; [exact Hzero | now intros r [_ ?]]).
    fold recent. fold n.
    rewrite (float_sum_zeros recent estimated Hraw).
    rewrite (float_sum_zeros recent buffered Hbuf).
    unfold n. rewrite efficiency_of_zeros; [reflexivity|].
    unfold recent. rewrite length_last_n.
    destruct (gasHistory o); [congruence | cbn [length]; lia].
Qed.

End StatsFacts.

Section FrameFacts.
Context {S : Type} `{Provider S}.

Implicit Types (w : World S) (tx : object).

(** Closes a [grows_by _ _ []] goal on explicit worlds. *)
Ltac frame :=
  split; [reflexivity | split; [simpl; now rewrite app_nil_r | constructor]].

Lemma grows_by_refl w : grows_by w w [].
Proof. frame. Qed.

Lemma grows_by_trans w1 w2 w3 new1 new2 :
  grows_by w1 w2 new1 -> grows_by w2 w3 new2 -> grows_by w1 w3 (new1 ++ new2).
Proof.
  intros (Ho1 & Hh1 & Hf1) (Ho2 & Hh2 & Hf2). split; [|split].
  - congruence.
  - rewrite Hh2, Hh1. now rewrite app_assoc.
  - apply Forall_app. split; [assumption|]. now rewrite <- Ho1.
Qed.

Lemma with_provider_frame {A} (call : S -> Result A * S) w :
  grows_by w (snd (with_provider call w)) [].
Proof.
  unfold with_provider. destruct (call (provider (this w))) as [r s'].
  simpl. frame.
Qed.

Lemma getNetworkCongestion_frame w :
  grows_by w (snd (getNetworkCongestion w)) [].
Proof.
  rewrite getNetworkCongestion_cases.
  destruct (getBlock (provider (this w))) as [[[b|]|e] s'];
    [destruct (gasLimit b =? 0)| |]; simpl; frame.
Qed.


Lemma set_provider_frame (s' : S) w : grows_by w (set_provider s' w) [].
Proof. frame. Qed.

Lemma console_error_frame msg e w :
  grows_by w (snd (console_error msg e w)) [].
Proof. frame. Qed.

Lemma estimateGasWithBuffer_surfaces_failure_run w tx e s' :
  estimateGas tx (provider (this w)) = (throw e, s') ->
  exists w',
    estimateGasWithBuffer tx w = (throw e, w') /\
    options (this w') = options (this w) /\
    gasHistory (this w') = gasHistory (this w).
Proof.
  intros He. rewrite (estimateGasWithBuffer_catch w tx e s' He).
  eexists. split; [reflexivity|]. simpl. auto.
Qed.

(** [getOptimalGasPrice] adds nothing to the history and keeps the
    configuration. *)
Lemma getOptimalGasPrice_frame w :
  grows_by w (snd (getOptimalGasPrice w)) [].
Proof.
  destruct (getGasPrice (provider (this w))) as [[p|e] s1] eqn:Hp.
  - destruct (getNetworkCongestion_total (set_provider s1 w))
      as (c & w' & Hc & _).
    destruct (adjustedGasPrice_ok p c) as [a Ha].
    rewrite (getOptimalGasPrice_try w p s1 c w' a Hp Hc Ha). simpl.
    apply (grows_by_trans w (set_provider s1 w) w' [] []).
    + apply set_provider_frame.
    + pose proof (getNetworkCongestion_frame (set_provider s1 w)) as Hf.
      now rewrite Hc in Hf.
  - rewrite (getOptimalGasPrice_catch w e s1 Hp).
    eapply (grows_by_trans w (set_provider s1 w) _ [] []).
    + apply set_provider_frame.
    + eapply (grows_by_trans _ _ _ [] []).
      * apply console_error_frame.
      * apply with_provider_frame.
Qed.

(** X1.  [getOptimalGasPrice] only reads the optimizer: on any path and
    whatever the provider answers, the configuration, the history and the
    statistics are the same after it as before. *)
Theorem getOptimalGasPrice_reads_only w :
  options (this (snd (getOptimalGasPrice w))) = options (this w) /\
  gasHistory (this (snd (getOptimalGasPrice w))) = gasHistory (this w) /\
  getGasStats (this (snd (getOptimalGasPrice w))) = getGasStats (this w).
Proof.
  destruct (getOptimalGasPrice_frame w) as (Hopt & Hhist & _).
  rewrite app_nil_r in Hhist. split; [exact Hopt|]. split; [exact Hhist|].
  unfold getGasStats. now rewrite Hhist.
Qed.

(** What [estimateGasWithBuffer] does to the history: one record for a
    result, none for a failure. *)
Lemma estimateGasWithBuffer_grows tx w :
  exists new,
    grows_by w (snd (estimateGasWithBuffer tx w)) new /\
    match fst (estimateGasWithBuffer tx w) with
    | ok b => exists r, new = [r] /\ buffered r = b
    | throw _ => new = []
    end.
Proof.
  destruct (estimateGas tx (provider (this w))) as [[g|e] s'] eqn:He.
  - destruct (bufferGas g (gasBuffer (options (this w)))) as [b|e] eqn:Hb.
    + rewrite (estimateGasWithBuffer_try w tx g s' b He Hb).
      exists [{| timestamp := clock w; estimated := g; buffered := b |}].
      split; [|eexists; split; reflexivity].
      split; [reflexivity|]. split; [reflexivity|].
      constructor; [|constructor].
      destruct (bufferGas_returns _ _ _ Hb) as (k & Hk & ->). now exists k.
    + rewrite (estimateGasWithBuffer_fault w tx g s' e He Hb).
      exists []. split; [|reflexivity].
      split; [reflexivity|]. split; [simpl; now rewrite app_nil_r | constructor].
  - destruct (estimateGasWithBuffer_surfaces_failure_run w tx e s' He)
      as (w' & Hrun & Hopt & Hhist).
    rewrite Hrun. simpl. exists []. split; [|reflexivity].
    split; [exact Hopt|]. split; [now rewrite app_nil_r | constructor].
Qed.

End FrameFacts.

Section ProgFacts.

Implicit Types (opts : Options) (now : Z) (xs rest : list Exchange).

Lemma pushed_before_nil {A}
    (o : option (list Exchange * list GasEstimateRecord * Result A)) :
  pushed_before [] o = o.
Proof. destruct o as [[[rest pushed] r]|]; reflexivity. Qed.

Lemma pushed_before_app {A} (ps qs : list GasEstimateRecord)
    (o : option (list Exchange * list GasEstimateRecord * Result A)) :
  pushed_before ps (pushed_before qs o) = pushed_before (ps ++ qs) o.
Proof.
  destruct o as [[[rest pushed] r]|]; [|reflexivity].
  simpl. now rewrite app_assoc.
Qed.

(** ** Replaying a sequence and a [try]/[catch] *)

Lemma replay_bind {A B} opts now (p : Prog A) (f : A -> Prog B) :
  forall xs,
    replay opts now (Prog_bind p f) xs =
      match replay opts now p xs with
      | Some (rest, pushed, ok a) =>
          pushed_before pushed (replay opts now (f a) rest)
      | Some (rest, pushed, throw e) => Some (rest, pushed, throw e)
      | None => None
      end.
Proof.
  induction p as [a|e|k IH|k IH|tx k IH|m e k IH|k IH|k IH|entry k IH|k IH];
    intros xs; simpl.
  - now rewrite pushed_before_nil.
  - reflexivity.
  - destruct xs as [|[r|r|tx' r] rest]; try reflexivity. apply IH.
  - destruct xs as [|[r|r|tx' r] rest]; try reflexivity. apply IH.
  - destruct xs as [|[r|r|tx' r] rest]; try reflexivity.
    destruct (decide (tx' = tx)); [apply IH | reflexivity].
  - apply IH.
  - apply IH.
  - apply IH.
  - rewrite IH.
    destruct (replay opts now k xs) as [[[rest pushed] [a|e]]|];
      try reflexivity.
    simpl. now destruct (replay opts now (f a) rest) as [[[? ?] ?]|].
  - apply IH.
Qed.

Lemma replay_try_catch {A} opts now (p : Prog A) (h : Error -> Prog A) :
  forall xs,
    replay opts now (Prog_try_catch p h) xs =
      match replay opts now p xs with
      | Some (rest, pushed, ok a) => Some (rest, pushed, ok a)
      | Some (rest, pushed, throw e) =>
          pushed_before pushed (replay opts now (h e) rest)
      | None => None
      end.
Proof.
  induction p as [a|e|k IH|k IH|tx k IH|m e k IH|k IH|k IH|entry k IH|k IH];
    intros xs; simpl.
  - reflexivity.
  - now rewrite pushed_before_nil.
  - destruct xs as [|[r|r|tx' r] rest]; try reflexivity. apply IH.
  - destruct xs as [|[r|r|tx' r] rest]; try reflexivity. apply IH.
  - destruct xs as [|[r|r|tx' r] rest]; try reflexivity.
    destruct (decide (tx' = tx)); [apply IH | reflexivity].
  - apply IH.
  - apply IH.
  - apply IH.
  - rewrite IH.
    destruct (replay opts now k xs) as [[[rest pushed] [a|e]]|];
      try reflexivity.
    simpl. now destruct (replay opts now (h e) rest) as [[[? ?] ?]|].
  - apply IH.
Qed.

Lemma replay_mbind {A B} opts now (p : Prog A) (f : A -> Prog B) xs :
  replay opts now (mbind f p) xs =
    match replay opts now p xs with
    | Some (rest, pushed, ok a) =>
        pushed_before pushed (replay opts now (f a) rest)
    | Some (rest, pushed, throw e) => Some (rest, pushed, throw e)
    | None => None
    end.
Proof. apply replay_bind. Qed.

(** The turn taken at the [await] of a method changes nothing that a
    replay sees. *)
Lemma replay_await {A} opts now (call : Prog A) xs :
  replay opts now (Async.await call) xs = replay opts now call xs.
Proof.
  unfold Async.await. rewrite replay_try_catch, replay_mbind.
  destruct (replay opts now call xs) as [[[rest pushed] [a|e]]|];
    simpl; try reflexivity; now rewrite app_nil_r.
Qed.

(** ** Replaying the methods *)

Lemma replay_getNetworkCongestion opts now xs :
  replay opts now Async.getNetworkCongestion xs =
    match xs with
    | XBlock r :: rest => Some (rest, [], ok (congestion_of r))
    | _ => None
    end.
Proof.
  unfold Async.getNetworkCongestion.
  rewrite replay_try_catch, replay_mbind.
  destruct xs as [|[r|r|tx r] rest]; try reflexivity.
  simpl. destruct r as [[b|]|e]; simpl; try reflexivity.
  unfold BigNumber.div. destruct (gasLimit b =? 0); reflexivity.
Qed.

Lemma adjustedGasPrice_returns (p : BigNumber) (c : number) :
  exists a, adjustedGasPrice p c = ok a.
Proof.
  unfold adjustedGasPrice, BigNumber.div.
  destruct (number_gt c (8 # 10)); [simpl; eauto|].
  destruct (number_lt c (3 # 10)); simpl; eauto.
Qed.

Lemma replay_getOptimalGasPrice opts now xs :
  replay opts now Async.getOptimalGasPrice xs =
    match xs with
    | XGasPrice (ok p) :: XBlock rb :: rest =>
        match adjustedGasPrice p (congestion_of rb) with
        | ok a => Some (rest, [], ok (capGasPrice a (maxGasPrice opts)))
        | throw _ => None
        end
    | XGasPrice (throw e) :: XGasPrice r :: rest => Some (rest, [], r)
    | _ => None
    end.
Proof.
  unfold Async.getOptimalGasPrice.
  rewrite replay_try_catch, replay_mbind.
  destruct xs as [|[[p|e]|r|tx r] rest]; try reflexivity.
  - cbn [replay Async.provider_getGasPrice Async.settled].
    rewrite pushed_before_nil.
    rewrite replay_mbind, replay_await, replay_getNetworkCongestion.
    destruct rest as [|[r|rb|tx r] rest]; try reflexivity.
    rewrite pushed_before_nil, replay_mbind.
    destruct (adjustedGasPrice_returns p (congestion_of rb)) as [a Ha].
    rewrite Ha. reflexivity.
  - cbn [replay Async.provider_getGasPrice Async.settled].
    destruct rest as [|[[p|e']|r|tx r] rest]; reflexivity.
Qed.

Lemma replay_estimateGasWithBuffer opts now tx xs :
  replay opts now (Async.estimateGasWithBuffer tx) xs =
    match xs with
    | XEstimateGas tx' r :: rest =>
        if decide (tx' = tx) then
          match r with
          | ok g =>
              match bufferGas g (gasBuffer opts) with
              | ok b =>
                  Some (rest,
                        [{| timestamp := now; estimated := g; buffered := b |}],
                        ok b)
              | throw e => Some (rest, [], throw e)
              end
          | throw e => Some (rest, [], throw e)
          end
        else None
    | _ => None
    end.
Proof.
  unfold Async.estimateGasWithBuffer.
  rewrite replay_try_catch, replay_mbind.
  destruct xs as [|[r|r|tx' r] rest]; try reflexivity.
  simpl. destruct (decide (tx' = tx)) as [Heq|Hne]; [|reflexivity].
  destruct r as [g|e]; simpl; [|reflexivity].
  destruct (bufferGas g (gasBuffer opts)) as [b|e]; reflexivity.
Qed.

Lemma replay_annotate opts now tx xs :
  replay opts now (Async.annotate tx) xs =
    match replay opts now Async.getOptimalGasPrice xs with
    | Some (rest, _, ok gasPrice) =>
        match replay opts now (Async.estimateGasWithBuffer tx) rest with
        | Some (rest', pushed, ok gasLimit) =>
            Some (rest', pushed,
                  ok (<["gasLimit" := VBigNumber gasLimit]>
                        (<["gasPrice" := VBigNumber gasPrice]> tx)))
        | Some (rest', pushed, throw e) => Some (rest', pushed, throw e)
        | None => None
        end
    | Some (rest, _, throw e) => Some (rest, [], throw e)
    | None => None
    end.
Proof.
  unfold Async.annotate. rewrite replay_mbind, replay_await.
  rewrite replay_getOptimalGasPrice.
  destruct xs as [|[[p|e]|r|tx0 r] rest]; try reflexivity.
  - destruct rest as [|[r|rb|tx0 r] rest]; try reflexivity.
    destruct (adjustedGasPrice p (congestion_of rb)) as [a|e]; [|reflexivity].
    rewrite pushed_before_nil. cbv beta. rewrite replay_mbind, replay_await.
    destruct (replay opts now (Async.estimateGasWithBuffer tx) rest)
      as [[[rest' pushed] [gl|e]]|]; try reflexivity.
    simpl. now rewrite app_nil_r.
  - destruct rest as [|[[p|e']|r|tx0 r] rest]; try reflexivity.
    rewrite pushed_before_nil. cbv beta. rewrite replay_mbind, replay_await.
    destruct (replay opts now (Async.estimateGasWithBuffer tx) rest)
      as [[[rest' pushed] [gl|e']]|]; try reflexivity.
    simpl. now rewrite app_nil_r.
Qed.

End ProgFacts.

(** * The scheduler *)

Section ListFacts.

Lemma Forall3_insert_mr {A B C} (P : A -> B -> C -> Prop) l1 l2 l3 :
  Forall3 P l1 l2 l3 ->
  forall i a b c,
    l1 !! i = Some a -> P a b c ->
    Forall3 P l1 (<[i := b]> l2) (<[i := c]> l3).
Proof.
  induction 1 as [|a0 b0 c0 l1 l2 l3 H0 HF IH]; intros i a b c Hi HP.
  - constructor.
  - destruct i as [|i]; simpl in *.
    + injection Hi as ->. now constructor.
    + constructor; [assumption|]. now apply (IH i a).
Qed.

Lemma concat_insert_app {X} (L : list (list X)) :
  forall i l l',
    L !! i = Some l -> concat (<[i := l ++ l']> L) ≡ₚ concat L ++ l'.
Proof.
  induction L as [|l0 L IH]; intros i l l' Hi; [discriminate|].
  destruct i as [|i]; simpl in *.
  - injection Hi as ->. rewrite <- !app_assoc.
    apply Permutation_app_head, Permutation_app_comm.
  - rewrite (IH i l l' Hi). now rewrite app_assoc.
Qed.

Lemma Forall3_fmap_l {A A' B C} (f : A -> A') (P : A' -> B -> C -> Prop)
    (l : list A) :
  forall k k',
    Forall3 P (f <$> l) k k' -> Forall3 (fun a b c => P (f a) b c) l k k'.
Proof.
  induction l as [|a l IH]; intros k k' HF.
  - inversion HF. constructor.
  - rewrite fmap_cons in HF. inversion HF; subst. constructor; auto.
Qed.

End ListFacts.

Section SchedulerFacts.
Context {S : Type} `{Provider S}.

Variable observed : S -> S -> list Exchange -> Prop.
Hypothesis observed_refl : forall s, observed s s [].
Hypothesis observed_trans :
  forall s1 s2 s3 xs ys,
    observed s1 s2 xs -> observed s2 s3 ys -> observed s1 s3 (xs ++ ys).
Hypothesis observed_getGasPrice :
  forall s r s', getGasPrice s = (r, s') -> observed s s' [XGasPrice r].
Hypothesis observed_getBlock :
  forall s r s', getBlock s = (r, s') -> observed s s' [XBlock r].
Hypothesis observed_estimateGas :
  forall tx s r s',
    estimateGas tx s = (r, s') -> observed s s' [XEstimateGas tx r].

Implicit Types (w : World S) (xs ys : list Exchange)
  (pushed : list GasEstimateRecord).

Local Abbreviation moved := (moved observed).

Lemma moved_refl w : moved w w [] [].
Proof.
  split; [reflexivity|]. split; [reflexivity|].
  split; [now rewrite app_nil_r|]. split; [apply observed_refl | constructor].
Qed.

Lemma moved_trans w1 w2 w3 xs ys ps qs :
  moved w1 w2 xs ps -> moved w2 w3 ys qs -> moved w1 w3 (xs ++ ys) (ps ++ qs).
Proof.
  intros (Ho1 & Hc1 & Hh1 & Hs1 & Hp1) (Ho2 & Hc2 & Hh2 & Hs2 & Hp2).
  split; [congruence|]. split; [congruence|].
  split; [rewrite Hh2, Hh1; now rewrite app_assoc|].
  split; [exact (observed_trans _ _ _ _ _ Hs1 Hs2)|].
  apply Forall_app. now split.
Qed.

(** A step on the optimizer that leaves the provider alone. *)
Lemma moved_local w w1 w' ps0 xs pushed :
  options (this w1) = options (this w) ->
  clock w1 = clock w ->
  gasHistory (this w1) = gasHistory (this w) ++ ps0 ->
  provider (this w1) = provider (this w) ->
  moved w1 w' xs pushed ->
  moved w w' xs (ps0 ++ pushed).
Proof.
  intros Ho Hc Hh Hs (Ho' & Hc' & Hh' & Hs' & Hp').
  split; [congruence|]. split; [congruence|].
  split; [rewrite Hh', Hh; now rewrite app_assoc|].
  split; [now rewrite <- Hs | assumption].
Qed.

Lemma moved_getGasPrice w r s' :
  getGasPrice (provider (this w)) = (r, s') ->
  moved w (set_provider s' w) [XGasPrice r] [].
Proof.
  intros E. split; [reflexivity|]. split; [reflexivity|].
  split; [simpl; now rewrite app_nil_r|].
  split; [now apply observed_getGasPrice|].
  constructor; [|constructor]. exists (provider (this w)), s'. exact E.
Qed.

Lemma moved_getBlock w r s' :
  getBlock (provider (this w)) = (r, s') ->
  moved w (set_provider s' w) [XBlock r] [].
Proof.
  intros E. split; [reflexivity|]. split; [reflexivity|].
  split; [simpl; now rewrite app_nil_r|].
  split; [now apply observed_getBlock|].
  constructor; [|constructor]. exists (provider (this w)), s'. exact E.
Qed.

Lemma moved_estimateGas tx w r s' :
  estimateGas tx (provider (this w)) = (r, s') ->
  moved w (set_provider s' w) [XEstimateGas tx r] [].
Proof.
  intros E. split; [reflexivity|]. split; [reflexivity|].
  split; [simpl; now rewrite app_nil_r|].
  split; [now apply observed_estimateGas|].
  constructor; [|constructor]. exists (provider (this w)), s'. exact E.
Qed.

(** ** One turn, and a run to the end *)

Lemma after_trans {A} opts now (p q : Prog A) (t : Thread A) xs ys ps qs :
  after opts now p (Suspended q) xs ps ->
  after opts now q t ys qs ->
  after opts now p t (xs ++ ys) (ps ++ qs).
Proof.
  intros H1 H2 rest. rewrite <- app_assoc, H1, H2.
  destruct t; simpl; [reflexivity | apply pushed_before_app].
Qed.

Lemma after_push {A} opts now entry (k : Prog A) (t : Thread A) xs pushed :
  after opts now k t xs pushed ->
  after opts now (HistoryPush entry k) t xs (entry :: pushed).
Proof.
  intros Ha rest. simpl. rewrite (Ha rest).
  destruct t as [r|q]; [reflexivity|].
  now destruct (replay opts now q rest) as [[[? ?] ?]|].
Qed.

Lemma advance_spec {A} (p : Prog A) :
  forall w t w',
    advance p w = (t, w') ->
    exists xs pushed,
      moved w w' xs pushed /\
      after (options (this w)) (clock w) p t xs pushed.
Proof.
  induction p as [a|e|k IH|k IH|tx k IH|m e k IH|k IH|k IH|entry k IH|k IH];
    intros w t w'; simpl.
  - intros [= <- <-]. exists [], []. split; [apply moved_refl|].
    intros rest. reflexivity.
  - intros [= <- <-]. exists [], []. split; [apply moved_refl|].
    intros rest. reflexivity.
  - unfold provider_getGasPrice, with_provider.
    destruct (getGasPrice (provider (this w))) as [r s'] eqn:E.
    intros [= <- <-]. exists [XGasPrice r], [].
    split; [now apply moved_getGasPrice|].
    intros rest. simpl. now rewrite pushed_before_nil.
  - unfold provider_getBlock, with_provider.
    destruct (getBlock (provider (this w))) as [r s'] eqn:E.
    intros [= <- <-]. exists [XBlock r], [].
    split; [now apply moved_getBlock|].
    intros rest. simpl. now rewrite pushed_before_nil.
  - unfold provider_estimateGas, with_provider.
    destruct (estimateGas tx (provider (this w))) as [r s'] eqn:E.
    intros [= <- <-]. exists [XEstimateGas tx r], [].
    split; [now apply moved_estimateGas|].
    intros rest. simpl. rewrite decide_True by reflexivity.
    now rewrite pushed_before_nil.
  - intros Hadv. destruct (IH _ _ _ Hadv) as (xs & pushed & Hm & Ha).
    exists xs, pushed. split; [|exact Ha].
    refine (moved_local w _ w' [] xs pushed _ _ _ _ Hm); try reflexivity.
    simpl. now rewrite app_nil_r.
  - intros Hadv. destruct (IH _ _ _ _ Hadv) as (xs & pushed & Hm & Ha).
    exists xs, pushed. split; [exact Hm | exact Ha].
  - intros Hadv. destruct (IH _ _ _ _ Hadv) as (xs & pushed & Hm & Ha).
    exists xs, pushed. split; [exact Hm | exact Ha].
  - intros Hadv. destruct (IH _ _ _ Hadv) as (xs & pushed & Hm & Ha).
    exists xs, (entry :: pushed). split.
    + refine (moved_local w _ w' [entry] xs pushed _ _ _ _ Hm);
        reflexivity.
    + apply after_push. exact Ha.
  - intros [= <- <-]. exists [], []. split; [apply moved_refl|].
    intros rest. simpl. now rewrite pushed_before_nil.
Qed.

Lemma run_spec {A} (p : Prog A) :
  forall w r w',
    run p w = (r, w') ->
    exists xs pushed,
      moved w w' xs pushed /\
      after (options (this w)) (clock w) p (Settled r) xs pushed.
Proof.
  induction p as [a|e|k IH|k IH|tx k IH|m e k IH|k IH|k IH|entry k IH|k IH];
    intros w r w'; simpl.
  - intros [= <- <-]. exists [], []. split; [apply moved_refl|].
    intros rest. reflexivity.
  - intros [= <- <-]. exists [], []. split; [apply moved_refl|].
    intros rest. reflexivity.
  - unfold provider_getGasPrice, with_provider.
    destruct (getGasPrice (provider (this w))) as [r0 s'] eqn:E.
    intros Hrun. destruct (IH _ _ _ _ Hrun) as (xs & pushed & Hm & Ha).
    exists (XGasPrice r0 :: xs), pushed. split.
    + exact (moved_trans _ _ _ _ _ _ _ (moved_getGasPrice w r0 s' E) Hm).
    + intros rest. simpl. apply Ha.
  - unfold provider_getBlock, with_provider.
    destruct (getBlock (provider (this w))) as [r0 s'] eqn:E.
    intros Hrun. destruct (IH _ _ _ _ Hrun) as (xs & pushed & Hm & Ha).
    exists (XBlock r0 :: xs), pushed. split.
    + exact (moved_trans _ _ _ _ _ _ _ (moved_getBlock w r0 s' E) Hm).
    + intros rest. simpl. apply Ha.
  - unfold provider_estimateGas, with_provider.
    destruct (estimateGas tx (provider (this w))) as [r0 s'] eqn:E.
    intros Hrun. destruct (IH _ _ _ _ Hrun) as (xs & pushed & Hm & Ha).
    exists (XEstimateGas tx r0 :: xs), pushed. split.
    + exact (moved_trans _ _ _ _ _ _ _ (moved_estimateGas tx w r0 s' E) Hm).
    + intros rest. simpl. rewrite decide_True by reflexivity. apply Ha.
  - intros Hrun. destruct (IH _ _ _ Hrun) as (xs & pushed & Hm & Ha).
    exists xs, pushed. split; [|exact Ha].
    refine (moved_local w _ w' [] xs pushed _ _ _ _ Hm); try reflexivity.
    simpl. now rewrite app_nil_r.
  - intros Hrun. destruct (IH _ _ _ _ Hrun) as (xs & pushed & Hm & Ha).
    exists xs, pushed. split; [exact Hm | exact Ha].
  - intros Hrun. destruct (IH _ _ _ _ Hrun) as (xs & pushed & Hm & Ha).
    exists xs, pushed. split; [exact Hm | exact Ha].
  - intros Hrun. destruct (IH _ _ _ Hrun) as (xs & pushed & Hm & Ha).
    exists xs, (entry :: pushed). split.
    + refine (moved_local w _ w' [entry] xs pushed _ _ _ _ Hm);
        reflexivity.
    + apply (after_push _ _ entry k (Settled r)). exact Ha.
  - intros Hrun. destruct (IH _ _ _ Hrun) as (xs & pushed & Hm & Ha).
    exists xs, pushed. split; [exact Hm | exact Ha].
Qed.

(** ** The pool of calls *)

(** Every call of the pool is where its own exchanges have taken it. *)
Local Abbreviation pool_ok opts now :=
  (Forall3 (fun (p : Prog _) (t : Thread _)
                (info : list Exchange * list GasEstimateRecord) =>
              after opts now p t info.1 info.2)).

Lemma start_spec {A} (ps : list (Prog A)) :
  forall first w ts first' w',
    start ps first w = (ts, first', w') ->
    exists infos,
      pool_ok (options (this w)) (clock w) ps ts infos /\
      moved w w' (concat infos.*1) (concat infos.*2).
Proof.
  induction ps as [|p ps IH]; intros first w ts first' w'; simpl.
  - intros [= <- <- <-]. exists []. split; [constructor | apply moved_refl].
  - destruct (advance p w) as [t w1] eqn:Ea.
    destruct (start ps (note t first) w1) as [[ts0 f0] w2] eqn:Es.
    intros [= <- <- <-].
    destruct (advance_spec p w t w1 Ea) as (xs & pushed & Hm & Ha).
    destruct (IH _ _ _ _ _ Es) as (infos & HF & Hm2).
    exists ((xs, pushed) :: infos). split.
    + constructor; [exact Ha|].
      destruct Hm as (Ho & Hc & _). now rewrite Ho, Hc in HF.
    + simpl. exact (moved_trans _ _ _ _ _ _ _ Hm Hm2).
Qed.

Lemma resume_spec {A} (ps0 : list (Prog A)) ts infos first w i ts' first' w' :
  pool_ok (options (this w)) (clock w) ps0 ts infos ->
  resume (ts, first, w) i = (ts', first', w') ->
  exists infos' xs pushed,
    pool_ok (options (this w)) (clock w) ps0 ts' infos' /\
    moved w w' xs pushed /\
    concat infos'.*1 ≡ₚ concat infos.*1 ++ xs /\
    concat infos'.*2 ≡ₚ concat infos.*2 ++ pushed.
Proof.
  intros HF. unfold resume.
  assert (Hstay : (ts, first, w) = (ts', first', w') ->
            exists infos' xs pushed,
              pool_ok (options (this w)) (clock w) ps0 ts' infos' /\
              moved w w' xs pushed /\
              concat infos'.*1 ≡ₚ concat infos.*1 ++ xs /\
              concat infos'.*2 ≡ₚ concat infos.*2 ++ pushed).
  { intros [= <- <- <-]. exists infos, [], [].
    split; [exact HF|]. split; [apply moved_refl|].
    now rewrite !app_nil_r. }
  destruct (ts !! i) as [[r|q]|] eqn:Hi; try exact Hstay.
  destruct (advance q w) as [t w1] eqn:Ea. intros [= <- <- <-].
  destruct (advance_spec q w t w1 Ea) as (xs & pushed & Hm & Ha).
  destruct (Forall3_lookup_m _ _ _ _ _ _ HF Hi)
    as (p & [xs0 ps0'] & Hp & Hinfo & Hafter).
  simpl in Hafter.
  exists (<[i := (xs0 ++ xs, ps0' ++ pushed)]> infos), xs, pushed.
  split; [|split; [exact Hm|split]].
  - apply (Forall3_insert_mr _ _ _ _ HF i p); [exact Hp|].
    simpl. exact (after_trans _ _ _ _ _ _ _ _ _ Hafter Ha).
  - rewrite list_fmap_insert. simpl.
    apply concat_insert_app. now rewrite list_lookup_fmap, Hinfo.
  - rewrite list_fmap_insert. simpl.
    apply concat_insert_app. now rewrite list_lookup_fmap, Hinfo.
Qed.

Lemma resume_all_spec {A} (ps0 : list (Prog A)) (schedule : list nat) :
  forall ts infos first w ts' first' w',
    pool_ok (options (this w)) (clock w) ps0 ts infos ->
    foldl resume (ts, first, w) schedule = (ts', first', w') ->
    exists infos' xs pushed,
      pool_ok (options (this w)) (clock w) ps0 ts' infos' /\
      moved w w' xs pushed /\
      concat infos'.*1 ≡ₚ concat infos.*1 ++ xs /\
      concat infos'.*2 ≡ₚ concat infos.*2 ++ pushed.
Proof.
  induction schedule as [|i schedule IH];
    intros ts infos first w ts' first' w' HF; cbn [foldl].
  - intros [= <- <- <-]. exists infos, [], [].
    split; [exact HF|]. split; [apply moved_refl|].
    now rewrite !app_nil_r.
  - destruct (resume (ts, first, w) i) as [[ts1 f1] w1] eqn:Er.
    intros Hrest.
    destruct (resume_spec ps0 ts infos first w i ts1 f1 w1 HF Er)
      as (infos1 & xs1 & ps1 & HF1 & Hm1 & Hx1 & Hp1).
    assert (HF1' : pool_ok (options (this w1)) (clock w1) ps0 ts1 infos1).
    { destruct Hm1 as (Ho & Hc & _). now rewrite Ho, Hc. }
    destruct (IH _ _ _ _ _ _ _ HF1' Hrest)
      as (infos2 & xs2 & ps2 & HF2 & Hm2 & Hx2 & Hp2).
    exists infos2, (xs1 ++ xs2), (ps1 ++ ps2). split; [|split; [|split]].
    + destruct Hm1 as (Ho & Hc & _). now rewrite Ho, Hc in HF2.
    + exact (moved_trans _ _ _ _ _ _ _ Hm1 Hm2).
    + rewrite Hx2, Hx1. now rewrite app_assoc.
    + rewrite Hp2, Hp1. now rewrite app_assoc.
Qed.

Lemma drain_spec {A} (ps0 : list (Prog A)) ts infos :
  forall opts now,
    pool_ok opts now ps0 ts infos ->
    forall first w rs first' w',
      options (this w) = opts -> clock w = now ->
      drain ts first w = (rs, first', w') ->
      exists infos' xs pushed,
        Forall3 (fun p r (info : list Exchange * list GasEstimateRecord) =>
                   replay opts now p info.1 = Some ([], info.2, r))
          ps0 rs infos' /\
        moved w w' xs pushed /\
        concat infos'.*1 ≡ₚ concat infos.*1 ++ xs /\
        concat infos'.*2 ≡ₚ concat infos.*2 ++ pushed.
Proof.
  intros opts now HF.
  induction HF as [|p t [xs0 ps0'] ps ts infos Ha HF IH];
    intros first w rs first' w' Ho Hc; simpl.
  - intros [= <- <- <-]. exists [], [], [].
    split; [constructor|]. split; [apply moved_refl|]. split; reflexivity.
  - simpl in Ha. destruct t as [r|q].
    + destruct (drain ts first w) as [[rs0 f0] w0] eqn:Ed.
      intros [= <- <- <-].
      destruct (IH _ _ _ _ _ Ho Hc Ed) as (infos' & xs & pushed & HF' & Hm & Hx & Hp).
      exists ((xs0, ps0') :: infos'), xs, pushed.
      split; [|split; [exact Hm|split]].
      * constructor; [|exact HF']. simpl.
        specialize (Ha []). now rewrite app_nil_r in Ha.
      * simpl. rewrite Hx. now rewrite app_assoc.
      * simpl. rewrite Hp. now rewrite app_assoc.
    + destruct (run q w) as [r w1] eqn:Er.
      destruct (drain ts (note (Settled r) first) w1) as [[rs0 f0] w0] eqn:Ed.
      intros [= <- <- <-].
      destruct (run_spec q w r w1 Er) as (xs1 & ps1 & Hm1 & Ha1).
      rewrite Ho, Hc in Ha1.
      assert (Ho1 : options (this w1) = opts) by (destruct Hm1; congruence).
      assert (Hc1 : clock w1 = now)
        by (destruct Hm1 as (_ & ? & _); congruence).
      destruct (IH _ _ _ _ _ Ho1 Hc1 Ed)
        as (infos' & xs & pushed & HF' & Hm & Hx & Hp).
      exists ((xs0 ++ xs1, ps0' ++ ps1) :: infos'), (xs1 ++ xs), (ps1 ++ pushed).
      split; [|split; [|split]].
      * constructor; [|exact HF']. simpl.
        pose proof (after_trans _ _ _ _ _ _ _ _ _ Ha Ha1) as Hall.
        specialize (Hall []). now rewrite app_nil_r in Hall.
      * exact (moved_trans _ _ _ _ _ _ _ Hm1 Hm).
      * simpl. rewrite Hx. rewrite <- !app_assoc.
        apply Permutation_app_head. rewrite !app_assoc.
        apply Permutation_app_tail, Permutation_app_comm.
      * simpl. rewrite Hp. rewrite <- !app_assoc.
        apply Permutation_app_head. rewrite !app_assoc.
        apply Permutation_app_tail, Permutation_app_comm.
Qed.

End SchedulerFacts.

Section Rejections.
Context {S : Type} `{Provider S}.

Implicit Types (w : World S).

Lemma first_ok_middle {A} (first : option Error) (l1 l2 : list (Thread A))
    (q : Prog A) (t : Thread A) :
  first_ok first (l1 ++ Suspended q :: l2) ->
  first_ok (note t first) (l1 ++ t :: l2).
Proof.
  destruct first as [e|]; simpl.
  - rewrite !elem_of_app, !elem_of_cons.
    intros [?|[?|?]]; [now left | discriminate | right; now right].
  - intros HF. apply Forall_app in HF as [H1 H2].
    apply Forall_cons in H2 as [_ H2].
    destruct t as [[a|e]|q'].
    + apply Forall_app. split; [assumption|].
      constructor; [discriminate | assumption].
    + simpl. apply elem_of_app. right. now left.
    + apply Forall_app. split; [assumption|].
      constructor; [discriminate | assumption].
Qed.

Lemma first_ok_snoc {A} (first : option Error) (l : list (Thread A))
    (t : Thread A) :
  first_ok first l -> first_ok (note t first) (l ++ [t]).
Proof.
  destruct first as [e|]; simpl.
  - intros Hin. apply elem_of_app. now left.
  - intros HF. destruct t as [[a|e]|q'].
    + apply Forall_app. split; [assumption|].
      constructor; [discriminate | constructor].
    + simpl. apply elem_of_app. right. now left.
    + apply Forall_app. split; [assumption|].
      constructor; [discriminate | constructor].
Qed.

Lemma start_first {A} (ps : list (Prog A)) :
  forall first w ts first' w' pre,
    start ps first w = (ts, first', w') ->
    first_ok first pre -> first_ok first' (pre ++ ts).
Proof.
  induction ps as [|p ps IH]; intros first w ts first' w' pre; simpl.
  - intros [= <- <- <-]. now rewrite app_nil_r.
  - destruct (advance p w) as [t w1].
    destruct (start ps (note t first) w1) as [[ts0 f0] w2] eqn:Es.
    intros [= <- <- <-] Hok.
    pose proof (IH _ _ _ _ _ (pre ++ [t]) Es (first_ok_snoc _ _ t Hok)) as Hall.
    now rewrite <- app_assoc in Hall.
Qed.

Lemma resume_first {A} (ts : list (Thread A)) first w i ts' first' w' :
  first_ok first ts ->
  resume (ts, first, w) i = (ts', first', w') ->
  first_ok first' ts'.
Proof.
  intros Hok. unfold resume.
  destruct (ts !! i) as [[r|q]|] eqn:Hi; try (intros [= <- <- <-]; exact Hok).
  destruct (advance q w) as [t w1]. intros [= <- <- <-].
  rewrite insert_take_drop by (eapply lookup_lt_Some; exact Hi).
  apply (first_ok_middle _ _ _ q).
  now rewrite (take_drop_middle ts i (Suspended q) Hi).
Qed.

Lemma resume_all_first {A} (schedule : list nat) :
  forall (ts : list (Thread A)) first w ts' first' w',
    first_ok first ts ->
    foldl resume (ts, first, w) schedule = (ts', first', w') ->
    first_ok first' ts'.
Proof.
  induction schedule as [|i schedule IH];
    intros ts first w ts' first' w' Hok; cbn [foldl].
  - now intros [= <- <- <-].
  - destruct (resume (ts, first, w) i) as [[ts1 f1] w1] eqn:Er.
    apply IH. exact (resume_first _ _ _ _ _ _ _ Hok Er).
Qed.

Lemma drain_first {A} (ts : list (Thread A)) :
  forall first w rs first' w' pre,
    first_ok first ((Settled <$> pre) ++ ts) ->
    drain ts first w = (rs, first', w') ->
    first_ok first' (Settled <$> pre ++ rs).
Proof.
  induction ts as [|[r|q] ts IH]; intros first w rs first' w' pre Hok; simpl.
  - intros [= <- <- <-]. now rewrite !app_nil_r in *.
  - destruct (drain ts first w) as [[rs0 f0] w0] eqn:Ed.
    intros [= <- <- <-].
    replace (pre ++ r :: rs0) with ((pre ++ [r]) ++ rs0)
      by now rewrite <- app_assoc.
    refine (IH _ _ _ _ _ _ _ Ed).
    rewrite fmap_app. simpl. now rewrite <- app_assoc.
  - destruct (run q w) as [r w1].
    destruct (drain ts (note (Settled r) first) w1) as [[rs0 f0] w0] eqn:Ed.
    intros [= <- <- <-].
    replace (pre ++ r :: rs0) with ((pre ++ [r]) ++ rs0)
      by now rewrite <- app_assoc.
    refine (IH _ _ _ _ _ _ _ Ed).
    rewrite fmap_app. simpl. rewrite <- app_assoc. simpl.
    now apply (first_ok_middle _ _ _ q).
Qed.

Lemma values_all_ok {A} (rs : list (Result A)) :
  Forall (fun t => forall e, t <> Settled (throw e)) (Settled <$> rs) ->
  exists l, values rs = ok l.
Proof.
  induction rs as [|[a|e] rs IH]; simpl; intros HF.
  - eauto.
  - apply Forall_cons in HF as [_ HF]. destruct (IH HF) as [l ->]. eauto.
  - apply Forall_cons in HF as [Hne _]. now destruct (Hne e).
Qed.

Lemma values_ok_length {A} (rs : list (Result A)) :
  forall l, values rs = ok l -> rs = ok <$> l.
Proof.
  induction rs as [|[a|e] rs IH]; simpl; intros l.
  - now intros [= <-].
  - destruct (values rs) as [l0|e]; [|discriminate].
    intros [= <-]. simpl. now rewrite (IH l0 eq_refl).
  - discriminate.
Qed.

(** The outcome that [Promise.all] reports for the settled calls [rs]. *)
Lemma Promise_all_outcome {A} schedule (ps : list (Prog A)) w :
  forall ts first w1 rs first' w2,
    foldl resume (start ps None w) schedule = (ts, first, w1) ->
    drain ts first w1 = (rs, first', w2) ->
    match first' with
    | Some e => throw e ∈ rs
    | None => exists l, values rs = ok l
    end.
Proof.
  intros ts first w1 rs first' w2 Hf Hd.
  destruct (start ps None w) as [[ts0 f0] w0] eqn:Es.
  assert (H0 : first_ok f0 ts0).
  { apply (start_first ps None w ts0 f0 w0 [] Es). constructor. }
  pose proof (resume_all_first schedule _ _ _ _ _ _ H0 Hf) as H1.
  pose proof (drain_first ts first w1 rs first' w2 [] H1 Hd) as H2.
  simpl in H2. destruct first' as [e|]; simpl in H2.
  - apply list_elem_of_fmap in H2 as (r & [= <-] & Hin). exact Hin.
  - now apply values_all_ok.
Qed.

End Rejections.

Section PromiseFacts.
Context {S : Type} `{Provider S}.

Variable observed : S -> S -> list Exchange -> Prop.
Hypothesis observed_refl : forall s, observed s s [].
Hypothesis observed_trans :
  forall s1 s2 s3 xs ys,
    observed s1 s2 xs -> observed s2 s3 ys -> observed s1 s3 (xs ++ ys).
Hypothesis observed_getGasPrice :
  forall s r s', getGasPrice s = (r, s') -> observed s s' [XGasPrice r].
Hypothesis observed_getBlock :
  forall s r s', getBlock s = (r, s') -> observed s s' [XBlock r].
Hypothesis observed_estimateGas :
  forall tx s r s',
    estimateGas tx s = (r, s') -> observed s s' [XEstimateGas tx r].

Implicit Types (w : World S).

(** Whatever the schedule, every call of [Promise.all] ends as the replay
    of its program on its own exchanges says; the traffic of the whole is
    made of the exchanges of the calls and the history gains the records
    they push; the outcome is the list of their values, or the throw of
    one of them. *)
Lemma Promise_all_spec {A} schedule (ps : list (Prog A)) w out w' :
  Promise_all schedule ps w = (out, w') ->
  exists rs (infos : list (list Exchange * list GasEstimateRecord)) xs pushed,
    Forall3 (fun p r info =>
               replay (options (this w)) (clock w) p info.1 =
                 Some ([], info.2, r)) ps rs infos /\
    moved observed w w' xs pushed /\
    xs ≡ₚ concat infos.*1 /\
    pushed ≡ₚ concat infos.*2 /\
    match out with
    | ok l => values rs = ok l
    | throw e => throw e ∈ rs
    end.
Proof.
  unfold Promise_all.
  destruct (start ps None w) as [[ts0 f0] w0] eqn:Es.
  destruct (foldl resume (ts0, f0, w0) schedule) as [[ts1 f1] w1] eqn:Ef.
  destruct (drain ts1 f1 w1) as [[rs f2] w2] eqn:Ed.
  intros [= <- <-].
  destruct (start_spec observed observed_refl observed_trans
              observed_getGasPrice observed_getBlock observed_estimateGas
              ps None w ts0 f0 w0 Es) as (infos0 & HF0 & Hm0).
  assert (Ho0 : options (this w0) = options (this w)) by apply Hm0.
  assert (Hc0 : clock w0 = clock w) by apply Hm0.
  rewrite <- Ho0, <- Hc0 in HF0.
  destruct (resume_all_spec observed observed_refl observed_trans
              observed_getGasPrice observed_getBlock observed_estimateGas
              ps schedule ts0 infos0 f0 w0 ts1 f1 w1 HF0 Ef)
    as (infos1 & xs1 & ps1 & HF1 & Hm1 & Hx1 & Hp1).
  assert (Ho1 : options (this w1) = options (this w))
    by (destruct Hm1 as (? & _); congruence).
  assert (Hc1 : clock w1 = clock w)
    by (destruct Hm1 as (_ & ? & _); congruence).
  rewrite Ho0, Hc0 in HF1.
  destruct (drain_spec observed observed_refl observed_trans
              observed_getGasPrice observed_getBlock observed_estimateGas
              ps ts1 infos1 _ _ HF1 f1 w1 rs f2 w2 Ho1 Hc1 Ed)
    as (infos2 & xs2 & ps2 & HF2 & Hm2 & Hx2 & Hp2).
  exists rs, infos2, (concat infos0.*1 ++ xs1 ++ xs2),
    (concat infos0.*2 ++ ps1 ++ ps2).
  split; [exact HF2|]. split; [|split; [|split]].
  - apply (moved_trans observed observed_trans w w0 w2); [exact Hm0|].
    apply (moved_trans observed observed_trans w0 w1 w2); assumption.
  - rewrite Hx2, Hx1. now rewrite <- app_assoc.
  - rewrite Hp2, Hp1. now rewrite <- app_assoc.
  - pose proof (Promise_all_outcome schedule ps w ts1 f1 w1 rs f2 w2) as Hout.
    rewrite Es in Hout. specialize (Hout Ef Ed).
    destruct f2 as [e|]; [exact Hout|].
    destruct Hout as (l & Hl). now rewrite Hl.
Qed.

End PromiseFacts.

Section GroupingFacts.
Context {S : Type} `{Provider S}.

Implicit Types (w : World S) (tx o : object) (txs batch : list object).

(** ** The grouping loop *)

(** Inside the array, [slice(i, i + step)] is a window of [step]
    elements. *)
Lemma Array_slice_window {A} (l : list A) (j size : nat) :
  (j * size < length l)%nat ->
  Array_slice l (Z.of_nat (j * size)) (Z.of_nat (j * size) + Z.of_nat size) =
    group size j l.
Proof.
  intros Hin. unfold Array_slice, group, slice_index.
  set (len := Z.of_nat (length l)). set (i := Z.of_nat (j * size)).
  assert (Hi : 0 <= i < len) by (unfold i, len; lia).
  destruct (i <? 0) eqn:E1; [apply Z.ltb_lt in E1; lia|].
  destruct (i + Z.of_nat size <? 0) eqn:E2; [apply Z.ltb_lt in E2; lia|].
  rewrite (Z.min_l i len) by lia.
  replace (Z.to_nat i) with (j * size)%nat by (unfold i; lia).
  destruct (Z_le_gt_dec (i + Z.of_nat size) len) as [Hfit|Hover].
  - rewrite Z.min_l by lia. f_equal. lia.
  - rewrite Z.min_r by lia.
    rewrite !take_ge; [reflexivity| |]; rewrite length_drop;
      unfold i, len in *; lia.
Qed.

Lemma make_batches_groups txs (size : nat) :
  (1 <= size)%nat ->
  forall fuel (j : nat) acc,
    (length txs - j * size < fuel)%nat ->
    exists rest,
      make_batches fuel txs (Z.of_nat size) (Z.of_nat (j * size)) acc =
        Some (acc ++ rest) /\
      concat rest = drop (j * size) txs /\
      forall m b, rest !! m = Some b ->
                  b = group size (j + m) txs /\ b <> [].
Proof.
  intros Hsize. induction fuel as [|fuel IH]; intros j acc Hfuel; [lia|].
  simpl. destruct (Z.of_nat (j * size) <? Z.of_nat (length txs)) eqn:E.
  - apply Z.ltb_lt in E.
    rewrite Array_slice_window by lia.
    replace (Z.of_nat (j * size) + Z.of_nat size)
      with (Z.of_nat (Datatypes.S j * size)) by lia.
    destruct (IH (Datatypes.S j) (acc ++ [group size j txs])) as (rest & Hrun & Hcat & Hgrp);
      [simpl; lia|].
    exists (group size j txs :: rest). split; [|split].
    + rewrite Hrun. now rewrite <- app_assoc.
    + simpl. rewrite Hcat. unfold group.
      replace (Datatypes.S j * size)%nat with (j * size + size)%nat by lia.
      rewrite <- drop_drop. apply take_drop.
    + intros [|m] b Hb; simpl in Hb.
      * injection Hb as <-. rewrite Nat.add_0_r. split; [reflexivity|].
        intros Hnil. apply (f_equal length) in Hnil.
        unfold group in Hnil. rewrite length_take, length_drop in Hnil.
        simpl in Hnil. lia.
      * replace (j + Datatypes.S m)%nat with (Datatypes.S j + m)%nat by lia.
        now apply Hgrp.
  - apply Z.ltb_ge in E. exists []. split; [|split].
    + now rewrite app_nil_r.
    + simpl. symmetry. apply drop_ge. lia.
    + intros m b Hb. discriminate.
Qed.

(** More fuel does not change the outcome of a loop that ended. *)
Lemma make_batches_more_fuel txs step fuel fuel' :
  (fuel <= fuel')%nat ->
  forall i acc batches,
    make_batches fuel txs step i acc = Some batches ->
    make_batches fuel' txs step i acc = Some batches.
Proof.
  revert fuel'. induction fuel as [|fuel IH]; intros fuel' Hle i acc batches;
    simpl; [discriminate|].
  destruct fuel' as [|fuel']; [lia|]. simpl.
  destruct (i <? Z.of_nat (length txs)); [|trivial].
  apply IH. lia.
Qed.

(** With a step of zero or less the grouping loop never ends on a
    non-empty input: no amount of fuel is enough. *)
Lemma make_batches_diverges txs step :
  step <= 0 ->
  forall fuel i acc,
    i < Z.of_nat (length txs) ->
    make_batches fuel txs step i acc = None.
Proof.
  intros Hstep. induction fuel as [|fuel IH]; intros i acc Hi; simpl;
    [reflexivity|].
  destruct (i <? Z.of_nat (length txs)) eqn:E;
    [|apply Z.ltb_ge in E; lia].
  apply IH. lia.
Qed.

(** What [annotated] says property by property: the two new properties are
    set and every other property of the transaction is kept. *)
Lemma annotated_lookup tx o :
  annotated tx o ->
  (exists gasPrice, o !! "gasPrice" = Some (VBigNumber gasPrice)) /\
  (exists gasLimit, o !! "gasLimit" = Some (VBigNumber gasLimit)) /\
  forall k, k <> "gasPrice" -> k <> "gasLimit" -> o !! k = tx !! k.
Proof.
  intros (gp & gl & ->). split; [|split].
  - exists gp. rewrite lookup_insert_ne by discriminate.
    apply lookup_insert_eq.
  - exists gl. apply lookup_insert_eq.
  - intros k Hp Hl. now rewrite !lookup_insert_ne by congruence.
Qed.

Lemma length_group {A} (size j : nat) (l : list A) :
  length (group size j l) = Nat.min size (length l - j * size).
Proof. unfold group. now rewrite length_take, length_drop. Qed.

(** The groups of a finished grouping loop make up the input. *)
Lemma make_batches_concat txs step fuel batches :
  1 <= step ->
  make_batches fuel txs step 0 [] = Some batches ->
  concat batches = txs.
Proof.
  intros Hstep Hrun.
  set (size := Z.to_nat step).
  assert (Hs : step = Z.of_nat size) by (unfold size; lia).
  assert (Hfuel : make_batches (Datatypes.S (length txs) + fuel) txs step 0 []
                  = Some batches).
  { apply (make_batches_more_fuel _ _ fuel); [lia | exact Hrun]. }
  destruct (make_batches_groups txs size ltac:(unfold size; lia)
              (Datatypes.S (length txs) + fuel) 0 [])
    as (batches' & Hspec & Hcat & _); [simpl; lia|].
  change (Z.of_nat (0 * size)) with 0 in Hspec.
  rewrite <- Hs, Hfuel in Hspec. injection Hspec as ->.
  change (0 * size)%nat with 0%nat in Hcat. now rewrite drop_0 in Hcat.
Qed.

(** With enough fuel the grouping loop ends. *)
Lemma make_batches_total txs step fuel :
  1 <= step -> (length txs < fuel)%nat ->
  exists batches, make_batches fuel txs step 0 [] = Some batches.
Proof.
  intros Hstep Hfuel.
  set (size := Z.to_nat step).
  assert (Hs : step = Z.of_nat size) by (unfold size; lia).
  destruct (make_batches_groups txs size ltac:(unfold size; lia) fuel 0 [])
    as (batches & Hspec & _); [simpl; lia|].
  change (Z.of_nat (0 * size)) with 0 in Hspec. rewrite <- Hs in Hspec.
  eauto.
Qed.

End GroupingFacts.

(** * The callback of [batchTransactions] *)

Section CallbackFacts.
Context {S : Type} `{Provider S}.

Implicit Types (opts : Options) (now : Z) (tx o : object)
  (xs rest : list Exchange) (pushed : list GasEstimateRecord).

(** The callback, replayed: it pushes at most one record, written under
    the configuration, and exactly one when it returns; what it returns is
    the transaction with the two properties set. *)
Lemma replay_annotate_pushes opts now tx xs rest pushed
    (r : Result object) :
  replay opts now (Async.annotate tx) xs = Some (rest, pushed, r) ->
  Forall (record_ok opts) pushed /\
  (length pushed <= 1)%nat /\
  (forall o, r = ok o ->
     length pushed = 1%nat /\ annotated tx o /\
     exists g, XEstimateGas tx (ok g) ∈ xs).
Proof.
  rewrite replay_annotate.
  destruct (replay opts now Async.getOptimalGasPrice xs)
    as [[[rest1 ps1] [gp|e]]|] eqn:Hprice; [| |discriminate].
  - rewrite replay_estimateGasWithBuffer.
    destruct rest1 as [|[r0|r0|tx' r0] rest2]; try discriminate.
    destruct (decide (tx' = tx)) as [->|Hne]; [|discriminate].
    assert (Hin : XEstimateGas tx r0 ∈ xs).
    { rewrite replay_getOptimalGasPrice in Hprice.
      destruct xs as [|[[p|e]|r1|tx1 r1] xs1]; try discriminate.
      - destruct xs1 as [|[r1|rb|tx1 r1] xs2]; try discriminate.
        destruct (adjustedGasPrice p (congestion_of rb)); [|discriminate].
        injection Hprice as -> _ _. set_solver.
      - destruct xs1 as [|[r1|rb|tx1 r1] xs2]; try discriminate.
        injection Hprice as -> _ _. set_solver. }
    destruct r0 as [g|e].
    + destruct (bufferGas g (gasBuffer opts)) as [b|e] eqn:Hb.
      * intros [= <- <- <-]. split; [|split].
        -- constructor; [|constructor].
           destruct (bufferGas_returns _ _ _ Hb) as (k & Hk & ->).
           now exists k.
        -- simpl. lia.
        -- intros o [= <-]. split; [reflexivity|]. split.
           ++ now exists gp, b.
           ++ now exists g.
      * intros [= <- <- <-]. split; [constructor|].
        split; [simpl; lia | discriminate].
    + intros [= <- <- <-]. split; [constructor|].
      split; [simpl; lia | discriminate].
  - intros [= <- <- <-]. split; [constructor|].
    split; [simpl; lia | discriminate].
Qed.

(** The callback, replayed against a provider that answers every price
    request and accepts the simulation, with a buffer of [k] percent: it
    has exactly three exchanges, and returns the transaction annotated
    from them. *)
Lemma replay_annotate_available opts now tx xs pushed (r : Result object) k :
  price_available (S := S) ->
  simulates (S := S) tx ->
  Forall (possible (S := S)) xs ->
  percent (gasBuffer opts) = ok k ->
  replay opts now (Async.annotate tx) xs = Some ([], pushed, r) ->
  exists o, r = ok o /\ annotated_from opts k tx xs o.
Proof.
  intros Hprice Hsim Hposs Hk.
  assert (Hp : forall r0 l, Forall (possible (S := S)) (XGasPrice r0 :: l) ->
                 exists p, r0 = ok p).
  { intros r0 l HF. apply Forall_cons in HF as [(s & s' & E) _].
    destruct (Hprice s) as (p & s'' & E'). exists p. congruence. }
  assert (Hg : forall r0 l, Forall (possible (S := S)) (XEstimateGas tx r0 :: l) ->
                 exists g, r0 = ok g).
  { intros r0 l HF. apply Forall_cons in HF as [(s & s' & E) _].
    destruct (Hsim s) as (g & s'' & E'). exists g. congruence. }
  rewrite replay_annotate, replay_getOptimalGasPrice.
  destruct xs as [|[r0|r0|tx0 r0] xs1]; try discriminate.
  destruct (Hp _ _ Hposs) as (p & ->).
  destruct xs1 as [|[r1|rb|tx1 r1] xs2]; try discriminate.
  destruct (adjustedGasPrice p (congestion_of rb)) as [a|e] eqn:Ha;
    [|discriminate].
  rewrite replay_estimateGasWithBuffer.
  destruct xs2 as [|[r2|r2|tx' r2] xs3]; try discriminate.
  destruct (decide (tx' = tx)) as [->|Hne]; [|discriminate].
  apply Forall_cons in Hposs as [_ Hposs].
  apply Forall_cons in Hposs as [_ Hposs].
  destruct (Hg _ _ Hposs) as (g & ->).
  rewrite (bufferGas_percent g _ k Hk).
  intros [= -> <- <-]. eexists. split; [reflexivity|].
  exists p, rb, a, g. split; [reflexivity|]. split; [exact Ha | reflexivity].
Qed.

(** All the callbacks of a group. *)
Lemma callbacks_push opts now (batch : list object) (rs : list (Result object))
    (infos : list (list Exchange * list GasEstimateRecord)) :
  Forall3 (fun tx r info =>
             replay opts now (Async.annotate tx) info.1 = Some ([], info.2, r))
    batch rs infos ->
  Forall (record_ok opts) (concat infos.*2) /\
  (length (concat infos.*2) <= length batch)%nat /\
  (forall l, values rs = ok l ->
     length (concat infos.*2) = length batch /\
     Forall2 annotated batch l /\
     Forall (fun tx => exists g, XEstimateGas tx (ok g) ∈ concat infos.*1)
       batch).
Proof.
  induction 1 as [|tx r [xs pushed] batch rs infos Hr _ IH].
  - split; [constructor|]. split; [simpl; lia|].
    intros l [= <-]. split; [reflexivity|]. split; constructor.
  - rewrite !fmap_cons. cbn [concat length fst snd values]. simpl in Hr.
    destruct (replay_annotate_pushes _ _ _ _ _ _ _ Hr) as (Hok & Hle & Hone).
    destruct IH as (IHok & IHle & IHall).
    split; [apply Forall_app; now split|].
    rewrite length_app. split; [lia|].
    intros l Hl. destruct r as [o|e]; [|discriminate].
    destruct (values rs) as [l0|e]; [|discriminate].
    injection Hl as <-.
    destruct (Hone o eq_refl) as (H1 & Hann & (g & Hin)).
    destruct (IHall l0 eq_refl) as (Hlen & Hall & Hsim).
    split; [lia|]. split; [now constructor|].
    constructor.
    + exists g. apply elem_of_app. now left.
    + eapply Forall_impl; [exact Hsim|].
      intros tx0 (g0 & Hin0). exists g0. apply elem_of_app. now right.
Qed.

Lemma callbacks_available opts now k (batch : list object)
    (rs : list (Result object))
    (infos : list (list Exchange * list GasEstimateRecord)) :
  price_available (S := S) ->
  Forall (simulates (S := S)) batch ->
  Forall (possible (S := S)) (concat infos.*1) ->
  percent (gasBuffer opts) = ok k ->
  Forall3 (fun tx r info =>
             replay opts now (Async.annotate tx) info.1 = Some ([], info.2, r))
    batch rs infos ->
  exists outs,
    rs = ok <$> outs /\
    Forall3 (annotated_from opts k) batch infos.*1 outs.
Proof.
  intros Hprice Hsim Hposs Hk HF. revert Hsim Hposs.
  induction HF as [|tx r [xs pushed] batch rs infos Hr _ IH]; simpl;
    intros Hsim Hposs.
  - exists []. split; [reflexivity | constructor].
  - apply Forall_cons in Hsim as [Hsim1 Hsim].
    apply Forall_app in Hposs as [Hposs1 Hposs].
    destruct (replay_annotate_available _ _ _ _ _ _ k Hprice Hsim1 Hposs1 Hk Hr)
      as (o & -> & Hann).
    destruct (IH Hsim Hposs) as (outs & -> & Hall).
    exists (o :: outs). split; [reflexivity | now constructor].
Qed.

Lemma values_fmap_ok {A} (l : list A) : values (ok <$> l) = ok l.
Proof.
  induction l as [|a l IH]; [reflexivity|].
  rewrite fmap_cons. cbn [values]. now rewrite IH.
Qed.

End CallbackFacts.

(** * batchTransactions *)

Section BatchFacts.
Context {S : Type} `{Provider S}.

Implicit Types (w : World S) (tx o : object) (txs batch : list object).

(** The simulation of [tx] has been accepted by the provider. *)
Local Abbreviation simulated tx :=
  (exists (s : S) g s', estimateGas tx s = (ok g, s')).

(** One group, whatever the schedule and the provider: the history gains
    at most one record per transaction; when the group returns it gains
    exactly one per transaction, the results are the transactions
    annotated in place, and every simulation was accepted. *)
Lemma Promise_all_annotate_grows schedule batch w out w' :
  Promise_all schedule (Async.annotate <$> batch) w = (out, w') ->
  exists new,
    grows_by w w' new /\
    (length new <= length batch)%nat /\
    (forall rs, out = ok rs ->
       length new = length batch /\
       Forall2 annotated batch rs /\
       Forall (fun tx => simulated tx) batch).
Proof.
  intros Hrun.
  destruct (Promise_all_spec unobserved
              ltac:(easy) ltac:(easy) ltac:(easy) ltac:(easy) ltac:(easy)
              schedule _ w out w' Hrun)
    as (rs & infos & xs & pushed & HF & Hm & Hx & Hp & Hout).
  apply Forall3_fmap_l in HF.
  destruct (callbacks_push _ _ _ _ _ HF) as (Hok & Hle & Hall).
  destruct Hm as (Ho & _ & Hh & _ & Hposs).
  exists pushed. split; [|split].
  - split; [exact Ho|]. split; [exact Hh|]. now rewrite Hp.
  - now rewrite Hp.
  - intros l ->. destruct (Hall l Hout) as (Hlen & Hann & Hsim).
    split; [now rewrite Hp|]. split; [exact Hann|].
    eapply Forall_impl; [exact Hsim|].
    intros tx (g & Hin). rewrite <- Hx in Hin.
    rewrite Forall_forall in Hposs. destruct (Hposs _ Hin) as (s & s' & E).
    now exists s, g, s'.
Qed.

(** ** The processing loop *)

Lemma process_batches_grows batches :
  forall schedules acc w out w',
    process_batches schedules batches acc w = (out, w') ->
    exists new,
      grows_by w w' new /\
      (length new <= length (concat batches))%nat /\
      (forall rs, out = ok rs ->
         exists results,
           rs = acc ++ results /\
           length new = length (concat batches) /\
           Forall2 annotated (concat batches) results /\
           Forall (fun tx => simulated tx) (concat batches)).
Proof.
  induction batches as [|batch batches IH];
    intros schedules acc w out w'; cbn [process_batches concat].
  - unfold mret, M_ret. intros [= <- <-]. exists [].
    split; [apply grows_by_refl|]. split; [simpl; lia|].
    intros rs [= <-]. exists []. rewrite app_nil_r.
    split; [reflexivity|]. split; [reflexivity|]. split; constructor.
  - unfold mbind, M_bind.
    destruct (Promise_all (hd [] schedules) (Async.annotate <$> batch) w)
      as [r w1] eqn:Ep.
    destruct (Promise_all_annotate_grows _ _ _ _ _ Ep)
      as (new1 & Hg1 & Hle1 & Hok1).
    destruct r as [l|e].
    + intros Hrest.
      destruct (IH _ _ _ _ _ Hrest) as (new2 & Hg2 & Hle2 & Hok2).
      destruct (Hok1 l eq_refl) as (Hlen1 & Hann1 & Hsim1).
      exists (new1 ++ new2).
      split; [exact (grows_by_trans w w1 w' new1 new2 Hg1 Hg2)|].
      rewrite !length_app. split; [lia|].
      intros rs Hrs. destruct (Hok2 rs Hrs) as (results & -> & Hlen2 & Hann2 & Hsim2).
      exists (l ++ results). split; [now rewrite app_assoc|].
      split; [lia|]. split; [now apply Forall2_app|].
      apply Forall_app. now split.
    + intros [= <- <-]. exists new1. split; [exact Hg1|].
      rewrite length_app. split; [lia | discriminate].
Qed.

(** X2.  Whatever the provider does and whatever the schedule, a run of
    [batchTransactions] keeps the configuration and only appends to the
    history: at most one record per transaction, and exactly one per
    transaction when it returns. *)
Theorem batchTransactions_history w txs fuel schedules out w' :
  1 <= batchSize (options (this w)) ->
  batchTransactions fuel schedules txs w = Some (out, w') ->
  exists new,
    grows_by w w' new /\
    (length new <= length txs)%nat /\
    (forall results, out = ok results ->
                     length new = length txs /\
                     length results = length txs).
Proof.
  intros Hsize. unfold batchTransactions.
  destruct (make_batches fuel txs (batchSize (options (this w))) 0 [])
    as [batches|] eqn:Hrun; [|discriminate].
  intros [= Hproc].
  pose proof (make_batches_concat txs _ fuel batches Hsize Hrun) as Hcat.
  destruct (process_batches_grows batches _ _ _ _ _ Hproc)
    as (new & Hg & Hle & Hok).
  rewrite Hcat in Hle, Hok.
  exists new. split; [exact Hg|]. split; [exact Hle|].
  intros results ->.
  destruct (Hok results eq_refl) as (rs & -> & Hlen & Hann & _).
  split; [exact Hlen|]. simpl. symmetry. exact (Forall2_length _ _ _ Hann).
Qed.

(** Against any provider and under any schedule, a run of
    [batchTransactions] that returns has annotated every transaction in
    place. *)
Lemma batchTransactions_sound w txs fuel schedules results w' :
  1 <= batchSize (options (this w)) ->
  batchTransactions fuel schedules txs w = Some (ok results, w') ->
  Forall2 annotated txs results.
Proof.
  intros Hsize. unfold batchTransactions.
  destruct (make_batches fuel txs (batchSize (options (this w))) 0 [])
    as [batches|] eqn:Hrun; [|discriminate].
  intros [= Hproc].
  pose proof (make_batches_concat txs _ fuel batches Hsize Hrun) as Hcat.
  destruct (process_batches_grows batches _ _ _ _ _ Hproc) as (new & _ & _ & Hok).
  destruct (Hok results eq_refl) as (rs & -> & _ & Hann & _).
  simpl. now rewrite <- Hcat.
Qed.

(** X3.  All or nothing: when the provider rejects the simulation of one
    transaction of the input, [batchTransactions] throws and returns no
    annotated transaction at all. *)
Theorem batchTransactions_all_or_nothing w txs fuel schedules tx :
  1 <= batchSize (options (this w)) ->
  (length txs < fuel)%nat ->
  tx ∈ txs ->
  rejected tx ->
  exists e w', batchTransactions fuel schedules txs w = Some (throw e, w').
Proof.
  intros Hsize Hfuel Hin Hrej. unfold batchTransactions.
  destruct (make_batches_total txs _ fuel Hsize Hfuel) as (batches & Hrun).
  rewrite Hrun.
  destruct (process_batches schedules batches [] w) as [[rs|e] w'] eqn:Hproc;
    [|eauto].
  exfalso.
  destruct (process_batches_grows batches _ _ _ _ _ Hproc) as (new & _ & _ & Hok).
  destruct (Hok rs eq_refl) as (results & _ & _ & _ & Hsim).
  rewrite (make_batches_concat txs _ fuel batches Hsize Hrun) in Hsim.
  rewrite Forall_forall in Hsim.
  destruct (Hsim tx Hin) as (s & g & s' & Hgood).
  destruct (Hrej s) as (e & s'' & Hbad). congruence.
Qed.

(** X4.  With a batch size of zero or less, an empty input is returned at
    once and a non-empty input is never finished, whatever the fuel. *)
Theorem batchTransactions_nonpositive_batchSize w txs schedules :
  batchSize (options (this w)) <= 0 ->
  (txs = [] ->
   forall fuel,
     batchTransactions (Datatypes.S fuel) schedules txs w = Some (ok [], w)) /\
  (txs <> [] -> forall fuel, batchTransactions fuel schedules txs w = None).
Proof.
  intros Hsize. split.
  - intros -> fuel. reflexivity.
  - intros Hne fuel. unfold batchTransactions.
    rewrite make_batches_diverges; [reflexivity | exact Hsize |].
    destruct txs; [congruence | simpl; lia].
Qed.

End BatchFacts.

(** * The traffic of a batch *)

Section TrafficFacts.
Context {S : Type} `{Provider S}.

Implicit Types (w : World (Traced S)) (tx o : object)
  (txs batch : list object).

Lemma logged_refl (t : Traced S) : logged t t [].
Proof. unfold logged. now rewrite app_nil_r. Qed.

Lemma logged_trans (t1 t2 t3 : Traced S) xs ys :
  logged t1 t2 xs -> logged t2 t3 ys -> logged t1 t3 (xs ++ ys).
Proof. unfold logged. intros -> ->. now rewrite app_assoc. Qed.

Lemma logged_getGasPrice (t : Traced S) r t' :
  getGasPrice t = (r, t') -> logged t t' [XGasPrice r].
Proof.
  simpl. unfold traced_getGasPrice, logged.
  destruct (getGasPrice (inner t)) as [r0 s']. now intros [= <- <-].
Qed.

Lemma logged_getBlock (t : Traced S) r t' :
  getBlock t = (r, t') -> logged t t' [XBlock r].
Proof.
  simpl. unfold traced_getBlock, logged.
  destruct (getBlock (inner t)) as [r0 s']. now intros [= <- <-].
Qed.

Lemma logged_estimateGas tx (t : Traced S) r t' :
  estimateGas tx t = (r, t') -> logged t t' [XEstimateGas tx r].
Proof.
  simpl. unfold traced_estimateGas, logged.
  destruct (estimateGas tx (inner t)) as [r0 s']. now intros [= <- <-].
Qed.

(** What the provider with a log answers, the provider itself answers. *)
Lemma possible_traced (x : Exchange) :
  possible (S := Traced S) x -> possible (S := S) x.
Proof.
  destruct x as [r|r|tx r]; simpl; intros (t & t' & E).
  - unfold traced_getGasPrice in E.
    destruct (getGasPrice (inner t)) as [r0 s'] eqn:E0.
    injection E as <- _. now exists (inner t), s'.
  - unfold traced_getBlock in E.
    destruct (getBlock (inner t)) as [r0 s'] eqn:E0.
    injection E as <- _. now exists (inner t), s'.
  - unfold traced_estimateGas in E.
    destruct (estimateGas tx (inner t)) as [r0 s'] eqn:E0.
    injection E as <- _. now exists (inner t), s'.
Qed.

(** One group against a provider that answers every price request and
    accepts every simulation of the group, with a buffer of [k] percent:
    whatever the schedule, the group returns, and its results and its
    traffic are those of a round. *)
Lemma Promise_all_annotate_round schedule batch w k :
  price_available (S := S) ->
  Forall (simulates (S := S)) batch ->
  percent (gasBuffer (options (this w))) = ok k ->
  exists outs w' round,
    Promise_all schedule (Async.annotate <$> batch) w = (ok outs, w') /\
    round_of (options (this w)) k batch round outs /\
    calls (provider (this w')) = calls (provider (this w)) ++ round /\
    options (this w') = options (this w).
Proof.
  intros Hprice Hsim Hk.
  destruct (Promise_all schedule (Async.annotate <$> batch) w)
    as [out w'] eqn:Hrun.
  destruct (Promise_all_spec logged logged_refl logged_trans
              logged_getGasPrice logged_getBlock logged_estimateGas
              schedule _ w out w' Hrun)
    as (rs & infos & xs & pushed & HF & Hm & Hx & Hp & Hout).
  apply Forall3_fmap_l in HF.
  destruct Hm as (Ho & _ & _ & Hlog & Hposs).
  assert (Hposs' : Forall (possible (S := S)) (concat infos.*1)).
  { rewrite <- Hx. eapply Forall_impl; [exact Hposs|].
    exact possible_traced. }
  destruct (callbacks_available _ _ k _ _ _ Hprice Hsim Hposs' Hk HF)
    as (outs & -> & Hann).
  exists outs, w', xs.
  split; [|split; [|split; [exact Hlog | exact Ho]]].
  - destruct out as [l|e].
    + rewrite values_fmap_ok in Hout. now injection Hout as <-.
    + apply list_elem_of_fmap in Hout as (o & Ho' & _). discriminate.
  - exists infos.*1. split; [exact Hann | exact Hx].
Qed.

Lemma process_batches_rounds batches k :
  price_available (S := S) ->
  Forall (simulates (S := S)) (concat batches) ->
  forall schedules acc w,
    percent (gasBuffer (options (this w))) = ok k ->
    exists rounds outs w',
      process_batches schedules batches acc w = (ok (acc ++ concat outs), w') /\
      Forall3 (round_of (options (this w)) k) batches rounds outs /\
      calls (provider (this w')) = calls (provider (this w)) ++ concat rounds.
Proof.
  intros Hprice. induction batches as [|batch batches IH];
    intros Hsim schedules acc w Hk; cbn [process_batches concat].
  - exists [], [], w. simpl. rewrite !app_nil_r.
    split; [reflexivity|]. split; [constructor | reflexivity].
  - simpl in Hsim. apply Forall_app in Hsim as [Hsim1 Hsim].
    destruct (Promise_all_annotate_round (hd [] schedules) batch w k
                Hprice Hsim1 Hk)
      as (l & w1 & round & Hrun & Hround & Hcalls & Ho).
    unfold mbind, M_bind. rewrite Hrun.
    destruct (IH Hsim (tl schedules) (acc ++ l) w1)
      as (rounds & outs & w' & Hrest & HF & Hcalls').
    { now rewrite Ho. }
    exists (round :: rounds), (l :: outs), w'.
    split; [|split].
    + rewrite Hrest. simpl. now rewrite app_assoc.
    + constructor; [exact Hround|]. now rewrite Ho in HF.
    + rewrite Hcalls', Hcalls. simpl. now rewrite app_assoc.
Qed.

Lemma traced_price_available :
  price_available (S := S) -> price_available (S := Traced S).
Proof.
  intros Hprice t. destruct (Hprice (inner t)) as (p & s' & E).
  exists p. eexists. simpl. unfold traced_getGasPrice. now rewrite E.
Qed.

Lemma traced_simulates tx :
  simulates (S := S) tx -> simulates (S := Traced S) tx.
Proof.
  intros Hsim t. destruct (Hsim (inner t)) as (g & s' & E).
  exists g. eexists. simpl. unfold traced_estimateGas. now rewrite E.
Qed.

Lemma round_of_annotated opts k batches rounds outs :
  Forall3 (round_of opts k) batches rounds outs ->
  Forall2 annotated (concat batches) (concat outs).
Proof.
  induction 1 as [|batch round out batches rounds outs Hr _ IH];
    [constructor|].
  simpl. apply Forall2_app; [|exact IH].
  destruct Hr as (traffic & HF & _).
  clear - HF. induction HF as [|tx xs o b t l Hann _ IHF]; [constructor|].
  constructor; [|exact IHF].
  destruct Hann as (p & rb & a & g & _ & _ & ->). now eexists _, _.
Qed.

(** C4.  With [batchSize >= 1], a provider that answers every price
    request and accepts the simulation of every transaction of the
    input, and a buffer of [k] percent, whatever the schedules of the
    groups: the input is cut into the contiguous groups
    [group batchSize 0], [group batchSize 1], ... (each non-empty and of
    at most [batchSize] elements, their concatenation being the input),
    and [batchTransactions] returns a list of the same length in which
    the element at each position is the input transaction at that
    position with [gasPrice] and [gasLimit] set.  The groups are processed
    one after the other: the traffic with the provider is the traffic of
    the first group, then that of the second, and so on; the traffic of a
    group is made of three exchanges for each of its transactions, a
    price, a block and an estimate of that transaction, and the
    transaction is annotated from these.  25 transactions with
    [batchSize] 10 make groups of 10, 10 and 5. *)
Theorem batchTransactions_keeps_order w txs fuel schedules k :
  1 <= batchSize (options (this w)) ->
  (length txs < fuel)%nat ->
  price_available (S := S) ->
  Forall (simulates (S := S)) txs ->
  percent (gasBuffer (options (this w))) = ok k ->
  let size := Z.to_nat (batchSize (options (this w))) in
  exists batches results w',
    make_batches fuel txs (batchSize (options (this w))) 0 [] = Some batches /\
    concat batches = txs /\
    (forall j b, batches !! j = Some b ->
                 b = group size j txs /\ (0 < length b <= size)%nat) /\
    batchTransactions fuel schedules txs w = Some (ok results, w') /\
    length results = length txs /\
    Forall2 annotated txs results /\
    (exists rounds outs,
       Forall3 (round_of (options (this w)) k) batches rounds outs /\
       results = concat outs /\
       calls (provider (this w')) =
         calls (provider (this w)) ++ concat rounds) /\
    (length txs = 25%nat -> size = 10%nat ->
     map length batches = [10; 10; 5]%nat).
Proof.
  intros Hsize Hfuel Hprice Hsim Hk size.
  assert (Hstep : batchSize (options (this w)) = Z.of_nat size)
    by (unfold size; lia).
  assert (Hpos : (1 <= size)%nat) by (unfold size; lia).
  destruct (make_batches_groups txs size Hpos fuel 0 [])
    as (batches & Hrun & Hcat & Hgrp); [simpl; lia|].
  change (Z.of_nat (0 * size)) with 0 in Hrun.
  change ([] ++ batches) with batches in Hrun.
  change (0 * size)%nat with 0%nat in Hcat. rewrite drop_0 in Hcat.
  destruct (process_batches_rounds batches k Hprice) with
    (schedules := schedules) (acc := @nil object) (w := w)
    as (rounds & outs & w' & Hproc & HF & Hcalls);
    [now rewrite Hcat | exact Hk |].
  simpl in Hproc, Hgrp.
  pose proof (round_of_annotated _ _ _ _ _ HF) as Hann.
  rewrite Hcat in Hann.
  assert (Hlen : forall j b, batches !! j = Some b ->
                   b = group size j txs /\ (0 < length b <= size)%nat).
  { intros j b Hb. destruct (Hgrp j b Hb) as [-> Hne]. split; [reflexivity|].
    split.
    - destruct (group size j txs); [congruence|simpl; lia].
    - rewrite length_group. lia. }
  exists batches, (concat outs), w'. rewrite Hstep.
  split; [exact Hrun|]. split; [exact Hcat|]. split; [exact Hlen|].
  split; [|split; [|split; [|split]]].
  - unfold batchTransactions. rewrite Hstep, Hrun. now rewrite Hproc.
  - symmetry. exact (Forall2_length _ _ _ Hann).
  - exact Hann.
  - exists rounds, outs. split; [exact HF|]. split; [reflexivity | exact Hcalls].
  - intros H25 H10.
    assert (Hsum : length (concat batches) = 25%nat) by now rewrite Hcat.
    assert (Hl : forall j b, batches !! j = Some b ->
                   length b = Nat.min 10 (25 - j * 10) /\ (0 < length b)%nat).
    { intros j b Hb. destruct (Hlen j b Hb) as [-> [Hp _]].
      split; [|exact Hp]. rewrite length_group, H10, H25. reflexivity. }
    clear - Hsum Hl.
    destruct batches as [|b0 [|b1 [|b2 [|b3 rest]]]]; simpl in Hsum;
      rewrite ?length_app in Hsum; simpl in Hsum.
    + discriminate.
    + destruct (Hl 0%nat b0 eq_refl). simpl in *. lia.
    + destruct (Hl 0%nat b0 eq_refl). destruct (Hl 1%nat b1 eq_refl).
      simpl in *. lia.
    + destruct (Hl 0%nat b0 eq_refl) as [E0 _].
      destruct (Hl 1%nat b1 eq_refl) as [E1 _].
      destruct (Hl 2%nat b2 eq_refl) as [E2 _].
      simpl. now rewrite E0, E1, E2.
    + destruct (Hl 3%nat b3 eq_refl). simpl in *. lia.
Qed.

End TrafficFacts.

(** * The two readings of a method agree *)

Section AwaitFacts.
Context {S : Type} `{Provider S}.

Implicit Types (w : World S).

Lemma run_bind {A B} (p : Prog A) (f : A -> Prog B) :
  forall w,
    run (Prog_bind p f) w =
      match run p w with
      | (ok a, w') => run (f a) w'
      | (throw e, w') => (throw e, w')
      end.
Proof.
  induction p as [a|e|k IH|k IH|tx k IH|m e k IH|k IH|k IH|entry k IH|k IH];
    intros w; simpl; try reflexivity; try apply IH.
  - destruct (provider_getGasPrice w) as [r w']. apply IH.
  - destruct (provider_getBlock w) as [r w']. apply IH.
  - destruct (provider_estimateGas tx w) as [r w']. apply IH.
Qed.

Lemma run_try_catch {A} (p : Prog A) (h : Error -> Prog A) :
  forall w,
    run (Prog_try_catch p h) w =
      match run p w with
      | (ok a, w') => (ok a, w')
      | (throw e, w') => run (h e) w'
      end.
Proof.
  induction p as [a|e|k IH|k IH|tx k IH|m e k IH|k IH|k IH|entry k IH|k IH];
    intros w; simpl; try reflexivity; try apply IH.
  - destruct (provider_getGasPrice w) as [r w']. apply IH.
  - destruct (provider_getBlock w) as [r w']. apply IH.
  - destruct (provider_estimateGas tx w) as [r w']. apply IH.
Qed.

Lemma run_mbind {A B} (p : Prog A) (f : A -> Prog B) w :
  run (mbind f p) w =
    match run p w with
    | (ok a, w') => run (f a) w'
    | (throw e, w') => (throw e, w')
    end.
Proof. apply run_bind. Qed.

Lemma run_await {A} (call : Prog A) w :
  run (Async.await call) w = run call w.
Proof.
  unfold Async.await. rewrite run_try_catch, run_mbind.
  now destruct (run call w) as [[a|e] w'].
Qed.

(** Awaited on its own, the resumable program of a method is the method. *)
Lemma run_getNetworkCongestion w :
  run Async.getNetworkCongestion w = getNetworkCongestion w.
Proof.
  unfold getNetworkCongestion, try_catch, mbind, M_bind, lift, mret, M_ret,
    rethrow.
  unfold Async.getNetworkCongestion, Async.provider_getBlock,
    Async.console_error, mbind, Prog_mbind, mret, Prog_ret. simpl.
  destruct (provider_getBlock w) as [[[b|]|e] w1]; simpl; try reflexivity.
  unfold BigNumber.div. destruct (gasLimit b =? 0); reflexivity.
Qed.

Lemma run_getOptimalGasPrice w :
  run Async.getOptimalGasPrice w = getOptimalGasPrice w.
Proof.
  unfold getOptimalGasPrice, getNetworkCongestion, try_catch, mbind, M_bind,
    lift, mret, M_ret, rethrow, this_options.
  unfold Async.getOptimalGasPrice, Async.await, Async.getNetworkCongestion,
    Async.provider_getGasPrice, Async.provider_getBlock, Async.console_error,
    Async.this_options, mbind, Prog_mbind, mret, Prog_ret.
  simpl.
  destruct (provider_getGasPrice w) as [[p|e] w1]; simpl.
  - destruct (provider_getBlock w1) as [[[b|]|e] w2]; simpl;
      unfold BigNumber.div; try destruct (gasLimit b =? 0); simpl;
      try match goal with
          | |- context [adjustedGasPrice ?p ?c] =>
              destruct (adjustedGasPrice p c)
          end; simpl; try reflexivity;
      now destruct (provider_getGasPrice _) as [[p'|e'] w3].
  - now destruct (provider_getGasPrice _) as [[p|e'] w2].
Qed.

Lemma run_estimateGasWithBuffer tx w :
  run (Async.estimateGasWithBuffer tx) w = estimateGasWithBuffer tx w.
Proof.
  unfold estimateGasWithBuffer, try_catch, mbind, M_bind, lift, mret, M_ret,
    rethrow, this_options, Date_now.
  unfold Async.estimateGasWithBuffer, Async.provider_estimateGas,
    Async.console_error, Async.this_options, Async.Date_now,
    Async.gasHistory_push, mbind, Prog_mbind, mret, Prog_ret. simpl.
  destruct (provider_estimateGas tx w) as [[g|e] w1]; simpl; try reflexivity.
  destruct (bufferGas g (gasBuffer (options (this w1)))) as [b|e];
    reflexivity.
Qed.

(** A run is a first turn and then the run of what is left. *)
Lemma run_advance {A} (p : Prog A) :
  forall w,
    run p w =
      match advance p w with
      | (Settled r, w') => (r, w')
      | (Suspended q, w') => run q w'
      end.
Proof.
  induction p as [a|e|k IH|k IH|tx k IH|m e k IH|k IH|k IH|entry k IH|k IH];
    intros w; simpl; try reflexivity; try apply IH.
  - now destruct (provider_getGasPrice w) as [r w'].
  - now destruct (provider_getBlock w) as [r w'].
  - now destruct (provider_estimateGas tx w) as [r w'].
Qed.

(** [Promise.all] of one call is that call awaited, whatever the
    schedule. *)
Lemma Promise_all_one {A} (schedule : list nat) (p : Prog A) w :
  Promise_all schedule [p] w =
    (match fst (run p w) with
     | ok a => ok [a]
     | throw e => throw e
     end, snd (run p w)).
Proof.
  unfold Promise_all. cbn [start]. rewrite run_advance.
  destruct (advance p w) as [t w1]. clear p w.
  assert (Hfirst : note t None =
                   match t with Settled (throw e) => Some e | _ => None end)
    by now destruct t as [[a|e]|q].
  rewrite Hfirst. clear Hfirst.
  revert t w1. induction schedule as [|i schedule IH]; intros t w1;
    cbn [foldl].
  - destruct t as [[a|e]|q]; simpl; try reflexivity.
    now destruct (run q w1) as [[a|e] w2].
  - unfold resume at 2. destruct i as [|i]; simpl lookup.
    + destruct t as [[a|e]|q]; try apply IH.
      rewrite (run_advance q w1).
      destruct (advance q w1) as [t' w2]. simpl insert.
      replace (note t' None)
        with (match t' with Settled (throw e) => Some e | _ => None end)
        by now destruct t' as [[a|e]|q'].
      apply IH.
    + destruct t as [[a|e]|q]; apply IH.
Qed.

End AwaitFacts.

Section CallFacts.
Context {S : Type} `{Provider S}.

Implicit Types (w : World S) (tx call o : object) (p : BigNumber).

(** X5.  When the price fetch answers with a base price [p >= 0], the
    result of [getOptimalGasPrice] is at most 120% of [p], and it is at
    least 90% of [p] (rounded down) unless the cap cut it to
    [maxGasPrice]. *)
Theorem getOptimalGasPrice_within_tiers w p s1 :
  getGasPrice (provider (this w)) = (ok p, s1) ->
  0 <= p ->
  exists v w',
    getOptimalGasPrice w = (ok v, w') /\
    v <= p * 120 / 100 /\
    (p * 90 / 100 <= v \/ v = maxGasPrice (options (this w))).
Proof.
  intros Hp Hp0.
  destruct (getNetworkCongestion_total (set_provider s1 w))
    as (c & w' & Hc & Hopt & _).
  destruct (adjustedGasPrice_ok p c) as [a Ha].
  exists (capGasPrice a (maxGasPrice (options (this w')))), w'.
  split; [now apply (getOptimalGasPrice_try w p s1 c)|].
  rewrite Hopt. simpl.
  assert (Ha' : p * 90 / 100 <= a <= p * 120 / 100).
  { rewrite adjustedGasPrice_tier in Ha.
    destruct (congestionTier c); injection Ha as <-;
      rewrite ?Z.quot_div_nonneg by lia; split;
      try apply Z.div_le_mono; try lia;
      try (apply Z.div_le_lower_bound; lia);
      try (apply Z.div_le_upper_bound; lia). }
  unfold capGasPrice, BigNumber.gt.
  destruct (maxGasPrice (options (this w)) <? a) eqn:E.
  - apply Z.ltb_lt in E. split; [lia | now right].
  - split; [lia | left; lia].
Qed.

(** X6.  The cost of a transaction at a price returned when the price fetch
    answers is at most its gas times [maxGasPrice]. *)
Theorem calculateTxCost_bounded w p s1 gas :
  getGasPrice (provider (this w)) = (ok p, s1) ->
  0 <= gas ->
  exists v w',
    getOptimalGasPrice w = (ok v, w') /\
    GasUtils.calculateTxCost gas v <= gas * maxGasPrice (options (this w)).
Proof.
  intros Hp Hgas.
  destruct (getNetworkCongestion_total (set_provider s1 w))
    as (c & w' & Hc & Hopt & _).
  destruct (adjustedGasPrice_ok p c) as [a Ha].
  exists (capGasPrice a (maxGasPrice (options (this w')))), w'.
  split; [now apply (getOptimalGasPrice_try w p s1 c)|].
  rewrite Hopt. simpl. unfold GasUtils.calculateTxCost, BigNumber.mul.
  apply Z.mul_le_mono_nonneg_l; [assumption | apply capGasPrice_le].
Qed.

(** ** optimizeContractCall *)

(** The two calls that [optimizeContractCall] makes, when both return. *)
Lemma optimizeContractCall_ok call w o w' :
  optimizeContractCall call w = (ok o, w') ->
  exists gp w1 gl,
    getOptimalGasPrice w = (ok gp, w1) /\
    estimateGasWithBuffer call w1 = (ok gl, w') /\
    o = <["maxPriorityFeePerGas" := VBigNumber 2000000000]>
          (<["maxFeePerGas" := VBigNumber gp]>
             (<["type" := VNumber 2]>
                (<["gasLimit" := VBigNumber gl]>
                   (<["gasPrice" := VBigNumber gp]> call)))).
Proof.
  unfold optimizeContractCall, mbind, M_bind, mret, M_ret, spread_with.
  destruct (getOptimalGasPrice w) as [[gp|e] w1]; [|discriminate].
  destruct (estimateGasWithBuffer call w1) as [[gl|e] w2] eqn:Hest;
    [|discriminate].
  intros [= <- <-]. exists gp, w1, gl.
  split; [reflexivity | split; [exact Hest | reflexivity]].
Qed.

(** X7.  A call optimized by [optimizeContractCall] carries the same price
    as [gasPrice] and as [maxFeePerGas], type 2, a priority fee of 2 gwei
    and the buffered limit that was just recorded in the history; every
    other property of the call is kept. *)
Theorem optimizeContractCall_shape call w o w' :
  optimizeContractCall call w = (ok o, w') ->
  exists gp gl r,
    o !! "gasPrice" = Some (VBigNumber gp) /\
    o !! "maxFeePerGas" = Some (VBigNumber gp) /\
    o !! "gasLimit" = Some (VBigNumber gl) /\
    o !! "type" = Some (VNumber 2) /\
    o !! "maxPriorityFeePerGas" = Some (VBigNumber 2000000000) /\
    (forall k, k ∉ ["gasPrice"; "gasLimit"; "type"; "maxFeePerGas";
                    "maxPriorityFeePerGas"] ->
               o !! k = call !! k) /\
    grows_by w w' [r] /\ buffered r = gl.
Proof.
  intros Hrun.
  destruct (optimizeContractCall_ok call w o w' Hrun)
    as (gp & w1 & gl & Hprice & Hest & ->).
  pose proof (getOptimalGasPrice_frame w) as Hf. rewrite Hprice in Hf.
  destruct (estimateGasWithBuffer_grows call w1) as (new & Hg & Hres).
  rewrite Hest in Hg, Hres. simpl in Hf, Hg, Hres.
  destruct Hres as (r & -> & Hr).
  exists gp, gl, r.
  repeat (split; [now simplify_map_eq|]).
  split.
  - intros k Hk. rewrite !lookup_insert_ne; [reflexivity|..];
      intros <-; apply Hk; set_solver.
  - split; [exact (grows_by_trans w w1 w' [] [r] Hf Hg) | exact Hr].
Qed.

(** X8.  The priority fee is 2 gwei whatever the price: when the price
    fetch answers with a base price below 2 gwei / 1.2, the optimized call
    has a [maxPriorityFeePerGas] above its [maxFeePerGas]. *)
Theorem optimizeContractCall_tip_above_fee call w p s1 o w' :
  getGasPrice (provider (this w)) = (ok p, s1) ->
  0 <= p ->
  p * 120 < 200000000000 ->
  optimizeContractCall call w = (ok o, w') ->
  exists fee tip,
    o !! "maxFeePerGas" = Some (VBigNumber fee) /\
    o !! "maxPriorityFeePerGas" = Some (VBigNumber tip) /\
    fee < tip.
Proof.
  intros Hp Hp0 Hlow Hrun.
  destruct (optimizeContractCall_ok call w o w' Hrun)
    as (gp & w1 & gl & Hprice & _ & ->).
  destruct (getNetworkCongestion_total (set_provider s1 w))
    as (c & w2 & Hc & _).
  destruct (adjustedGasPrice_ok p c) as [a Ha].
  rewrite (getOptimalGasPrice_try w p s1 c w2 a Hp Hc Ha) in Hprice.
  injection Hprice as <- <-.
  exists (capGasPrice a (maxGasPrice (options (this w2)))), 2000000000.
  split; [now simplify_map_eq|]. split; [now simplify_map_eq|].
  assert (Ha' : a < 2000000000).
  { rewrite adjustedGasPrice_tier in Ha.
    destruct (congestionTier c); injection Ha as <-;
      rewrite ?Z.quot_div_nonneg by lia;
      try (apply Z.div_lt_upper_bound; lia); lia. }
  unfold capGasPrice, BigNumber.gt.
  destruct (maxGasPrice (options (this w2)) <? a) eqn:E; [|exact Ha'].
  apply Z.ltb_lt in E. lia.
Qed.

(** X9.  When the provider rejects the simulation of a call,
    [optimizeContractCall] throws, returns no optimized call and leaves the
    history as it was. *)
Theorem optimizeContractCall_rejected call w :
  rejected call ->
  exists e w',
    optimizeContractCall call w = (throw e, w') /\
    grows_by w w' [].
Proof.
  intros Hrej.
  unfold optimizeContractCall, mbind, M_bind.
  pose proof (getOptimalGasPrice_frame w) as Hf.
  destruct (getOptimalGasPrice w) as [[gp|e] w1]; simpl in Hf.
  - destruct (Hrej (provider (this w1))) as (e & s' & He).
    destruct (estimateGasWithBuffer_grows call w1) as (new & Hg & Hres).
    destruct (estimateGasWithBuffer_surfaces_failure_run w1 call e s' He)
      as (w2 & Hrun & _).
    rewrite Hrun in Hg, Hres |- *. simpl in Hg, Hres. subst new.
    exists e, w2. split; [reflexivity|].
    exact (grows_by_trans w w1 w2 [] [] Hf Hg).
  - exists e, w1. split; [reflexivity | exact Hf].
Qed.

End CallFacts.

Section StatsExtras.
Context {S : Type} `{Provider S}.

Implicit Types (o : BaseGasOptimizer S) (w : World S).

(** X10.  Only the last ten records count: with ten or more records, the
    averages and the efficiency are those of the last ten alone; the older
    records only add to [totalTransactions]. *)
Theorem getGasStats_last_ten o older recent :
  length recent = 10%nat ->
  exists avgEstimated avgBuffered efficiency,
    getGasStats (with_gasHistory o recent) =
      Stats 10 avgEstimated avgBuffered efficiency /\
    getGasStats (with_gasHistory o (older ++ recent)) =
      Stats (length older + 10) avgEstimated avgBuffered efficiency.
Proof.
  intros Hlen.
  assert (Hr : recent <> []) by (destruct recent; [discriminate|congruence]).
  assert (Hall : older ++ recent <> []).
  { intros Hnil. apply app_eq_nil in Hnil as [_ ?]. contradiction. }
  assert (Hwin1 : last_n 10 recent = recent).
  { unfold last_n. rewrite Hlen. reflexivity. }
  assert (Hwin2 : last_n 10 (older ++ recent) = recent).
  { unfold last_n. rewrite length_app, Hlen.
    replace (length older + 10 - 10)%nat with (length older) by lia.
    apply drop_app_length. }
  rewrite (getGasStats_nonempty (with_gasHistory o recent) Hr).
  rewrite (getGasStats_nonempty (with_gasHistory o (older ++ recent)) Hall).
  cbn [gasHistory with_gasHistory]. rewrite Hwin1, Hwin2, length_app, Hlen.
  eexists _, _, _. split; reflexivity.
Qed.

(** X12.  [clearHistory] resets the statistics and nothing else: right
    after it [getGasStats] has no history to report and the configuration
    and the provider are as before; when the next [estimateGasWithBuffer]
    returns, its record is the whole history and the only one counted. *)
Theorem clearHistory_resets w tx g s' b w1 :
  estimateGas tx (provider (this w)) = (ok g, s') ->
  let w0 := snd (clearHistory w) in
  estimateGasWithBuffer tx w0 = (ok b, w1) ->
  getGasStats (this w0) = NoHistory "No gas history available" /\
  options (this w0) = options (this w) /\
  provider (this w0) = provider (this w) /\
  gasHistory (this w1) =
    [{| timestamp := clock w; estimated := g; buffered := b |}] /\
  exists avgEstimated avgBuffered efficiency,
    getGasStats (this w1) = Stats 1 avgEstimated avgBuffered efficiency.
Proof.
  intros He w0 Hrun. split; [reflexivity|]. split; [reflexivity|].
  split; [reflexivity|].
  assert (Hhist : gasHistory (this w1) =
                  [{| timestamp := clock w; estimated := g; buffered := b |}]).
  { destruct (bufferGas g (gasBuffer (options (this w0)))) as [b'|e] eqn:Hb.
    - rewrite (estimateGasWithBuffer_try w0 tx g s' b' He Hb) in Hrun.
      now injection Hrun as <- <-.
    - rewrite (estimateGasWithBuffer_fault w0 tx g s' e He Hb) in Hrun.
      discriminate. }
  split; [exact Hhist|].
  rewrite getGasStats_nonempty by (rewrite Hhist; discriminate).
  rewrite Hhist. eexists _, _, _. reflexivity.
Qed.

End StatsExtras.

Section InvariantFacts.
Context {S : Type} `{Provider S}.

Implicit Types (w : World S) (tx call : object).

(** X13.  A buffer of less than 100 whole percent under-funds: when
    [k = Math.floor(gasBuffer * 100)] is below 100 and [mul] accepts it,
    for every raw estimate [r > 0] the value returned by
    [estimateGasWithBuffer] is below [r]. *)
Theorem estimateGasWithBuffer_underfunds w tx r s' k :
  estimateGas tx (provider (this w)) = (ok r, s') ->
  0 < r ->
  percent (gasBuffer (options (this w))) = ok k ->
  k < 100 ->
  exists b w', estimateGasWithBuffer tx w = (ok b, w') /\ b < r.
Proof.
  intros He Hr Hk Hlt.
  rewrite (estimateGasWithBuffer_try w tx r s' _ He
             (bufferGas_percent r _ k Hk)).
  eexists _, _. split; [reflexivity|].
  destruct (Z_le_gt_dec 0 k) as [Hpos|Hneg].
  - rewrite Z.quot_div_nonneg by nia. apply Z.div_lt_upper_bound; nia.
  - assert (Hq : Z.quot (r * k) 100 <= 0).
    { replace (r * k) with (- (r * - k)) by lia.
      rewrite Z.quot_opp_l by lia.
      assert (0 <= Z.quot (r * - k) 100) by (apply Z.quot_pos; nia). lia. }
    lia.
Qed.

(** ** The number of groups *)

Lemma ceil_div_step (d size : nat) :
  (1 <= size)%nat -> (1 <= d)%nat ->
  ((d + size - 1) / size = Datatypes.S ((d - size + size - 1) / size))%nat.
Proof.
  intros Hs Hd. destruct (Nat.le_gt_cases size d) as [Hge|Hlt].
  - replace (d + size - 1)%nat with ((d - size + size - 1) + 1 * size)%nat by lia.
    rewrite Nat.div_add by lia. lia.
  - replace (d - size + size - 1)%nat with (size - 1)%nat by lia.
    rewrite (Nat.div_small (size - 1)) by lia.
    replace (d + size - 1)%nat with ((d - 1) + 1 * size)%nat by lia.
    rewrite Nat.div_add by lia. rewrite Nat.div_small by lia. reflexivity.
Qed.

Lemma make_batches_count txs (size : nat) :
  (1 <= size)%nat ->
  forall fuel (j : nat) acc,
    (length txs - j * size < fuel)%nat ->
    exists rest,
      make_batches fuel txs (Z.of_nat size) (Z.of_nat (j * size)) acc =
        Some (acc ++ rest) /\
      length rest = ((length txs - j * size + size - 1) / size)%nat.
Proof.
  intros Hsize. induction fuel as [|fuel IH]; intros j acc Hfuel; [lia|].
  simpl. destruct (Z.of_nat (j * size) <? Z.of_nat (length txs)) eqn:E.
  - apply Z.ltb_lt in E.
    replace (Z.of_nat (j * size) + Z.of_nat size)
      with (Z.of_nat (Datatypes.S j * size)) by lia.
    destruct (IH (Datatypes.S j)
                (acc ++ [Array_slice txs (Z.of_nat (j * size))
                           (Z.of_nat (Datatypes.S j * size))]))
      as (rest & Hrun & Hlen); [simpl; lia|].
    eexists (_ :: rest). split.
    + rewrite Hrun. now rewrite <- app_assoc.
    + simpl length. rewrite Hlen.
      rewrite (ceil_div_step (length txs - j * size) size) by lia.
      do 2 f_equal. simpl. lia.
  - apply Z.ltb_ge in E. exists []. split; [now rewrite app_nil_r|].
    replace (length txs - j * size)%nat with 0%nat by lia.
    simpl. symmetry. apply Nat.div_small. lia.
Qed.

(** X14.  With [batchSize >= 1], the input of [n] transactions is cut into
    exactly [ceil(n / batchSize)] groups. *)
Theorem make_batches_rounds txs step fuel :
  1 <= step ->
  (length txs < fuel)%nat ->
  exists batches,
    make_batches fuel txs step 0 [] = Some batches /\
    Z.of_nat (length batches) = (Z.of_nat (length txs) + step - 1) / step.
Proof.
  intros Hstep Hfuel.
  set (size := Z.to_nat step).
  assert (Hs : step = Z.of_nat size) by (unfold size; lia).
  destruct (make_batches_count txs size ltac:(unfold size; lia) fuel 0 [])
    as (batches & Hrun & Hlen); [simpl; lia|].
  change (Z.of_nat (0 * size)) with 0 in Hrun. rewrite <- Hs in Hrun.
  exists batches. split; [exact Hrun|].
  rewrite Hlen, Hs. rewrite Nat2Z.inj_div. f_equal. lia.
Qed.

(** ** Sequences of calls *)

Lemma optimizeContractCall_grows call w :
  exists new, grows_by w (snd (optimizeContractCall call w)) new.
Proof.
  unfold optimizeContractCall, mbind, M_bind, mret, M_ret.
  pose proof (getOptimalGasPrice_frame w) as Hprice.
  destruct (getOptimalGasPrice w) as [[gp|e] w1]; simpl in Hprice.
  - destruct (estimateGasWithBuffer_grows call w1) as (new & Hgrow & _).
    destruct (estimateGasWithBuffer call w1) as [[gl|e] w2];
      simpl in Hgrow; simpl; exists new;
      exact (grows_by_trans w w1 w2 [] new Hprice Hgrow).
  - exists []. exact Hprice.
Qed.

(** What one call does to the configuration and the history. *)
Lemma perform_grows c w w' :
  perform c w = Some w' ->
  options (this w') = options (this w) /\
  ((exists new, grows_by w w' new) \/
   (c = CallClearHistory /\ gasHistory (this w') = [])).
Proof.
  destruct c as [|tx|fuel schedules txs|call| |]; simpl.
  - intros [= <-]. split; [apply getOptimalGasPrice_frame|].
    left. exists []. apply getOptimalGasPrice_frame.
  - intros [= <-].
    destruct (estimateGasWithBuffer_grows tx w) as (new & Hg & _).
    split; [apply Hg | left; eauto].
  - unfold batchTransactions.
    destruct (make_batches fuel txs (batchSize (options (this w))) 0 [])
      as [batches|]; [|discriminate].
    destruct (process_batches schedules batches [] w) as [out w2] eqn:Hproc.
    destruct (process_batches_grows batches _ _ _ _ _ Hproc) as (new & Hg & _).
    intros [= <-]. split; [apply Hg | left; eauto].
  - intros [= <-].
    destruct (optimizeContractCall_grows call w) as (new & Hg).
    split; [apply Hg | left; eauto].
  - intros [= <-]. split; [reflexivity|]. left. exists [].
    apply grows_by_refl.
  - intros [= <-]. split; [reflexivity|]. right. split; reflexivity.
Qed.

(** X15.  Over any sequence of calls the configuration never changes, and
    every record of the history is one written under it: its buffered
    value is its raw value scaled by the whole-percent buffer. *)
Theorem history_invariant cs :
  forall w w',
    Forall (record_ok (options (this w))) (gasHistory (this w)) ->
    perform_all cs w = Some w' ->
    options (this w') = options (this w) /\
    Forall (record_ok (options (this w))) (gasHistory (this w')).
Proof.
  induction cs as [|c cs IH]; intros w w' Hinv; simpl.
  - intros [= <-]. split; [reflexivity | exact Hinv].
  - destruct (perform c w) as [w1|] eqn:Hc; [|discriminate].
    intros Hrest.
    destruct (perform_grows c w w1 Hc) as (Hopt & Hcase).
    assert (Hinv1 : Forall (record_ok (options (this w1))) (gasHistory (this w1))).
    { rewrite Hopt. destruct Hcase as [(new & _ & Hh & Hnew)|(_ & Hh)].
      - rewrite Hh. apply Forall_app. split; assumption.
      - rewrite Hh. constructor. }
    destruct (IH w1 w' Hinv1 Hrest) as (Hopt' & Hinv').
    rewrite Hopt in Hopt', Hinv'. split; assumption.
Qed.

(** X16.  The history is append-only: over any sequence of calls without
    [clearHistory], the history at the start is a prefix of the history at
    the end. *)
Theorem history_append_only cs :
  forall w w',
    never_clears cs ->
    perform_all cs w = Some w' ->
    exists new, gasHistory (this w') = gasHistory (this w) ++ new.
Proof.
  induction cs as [|c cs IH]; intros w w' Hnc; simpl.
  - intros [= <-]. exists []. now rewrite app_nil_r.
  - destruct (perform c w) as [w1|] eqn:Hc; [|discriminate].
    intros Hrest. inversion Hnc as [|? ? Hc0 Hcs]; subst.
    destruct (perform_grows c w w1 Hc) as (_ & [(new & _ & Hh & _)|(Hclear & _)]);
      [|contradiction].
    destruct (IH w1 w' Hcs Hrest) as (new' & Hh').
    exists (new ++ new'). rewrite Hh', Hh. now rewrite app_assoc.
Qed.

(** X19.  With the default buffer of 1.1, a raw estimate [r >= 0] is
    buffered to [r] plus a tenth of [r], rounded down. *)
Theorem estimateGasWithBuffer_default_buffer (s : S) (o : UserOptions) tx r s' :
  user_gasBuffer o = None ->
  estimateGas tx s = (ok r, s') ->
  0 <= r ->
  fst (estimateGasWithBuffer tx (fresh s o)) = ok (r + r / 10).
Proof.
  intros Hnone He Hr.
  assert (Hk : percent (gasBuffer (options (this (fresh s o)))) = ok 110).
  { destruct o as [m g b]. simpl in Hnone. subst g. reflexivity. }
  rewrite (estimateGasWithBuffer_try (fresh s o) tx r s' _ He
             (bufferGas_percent r _ 110 Hk)).
  simpl. rewrite Z.quot_div_nonneg by lia. f_equal.
  Z.to_euclidean_division_equations. lia.
Qed.

End InvariantFacts.

Section FormatFacts.

Import GasUtils.

Local Abbreviation chars := String.list_ascii_of_string.
Local Abbreviation digits := (Forall (fun c => is_digit c = true)).

Lemma chars_inj (s1 s2 : string) : chars s1 = chars s2 -> s1 = s2.
Proof.
  intros Heq. rewrite <- (String.string_of_list_ascii_of_string s1),
    <- (String.string_of_list_ascii_of_string s2). now rewrite Heq.
Qed.

Lemma chars_app (a b : string) : chars (a +:+ b) = chars a ++ chars b.
Proof.
  induction a as [|c a IH]; [reflexivity|].
  change (String c a +:+ b) with (String c (a +:+ b)). simpl. now rewrite IH.
Qed.

Lemma chars_formatGas (gas : Z) :
  chars (formatGas gas) = replace_separators None (chars (pretty gas)).
Proof. apply String.list_ascii_of_string_of_list_ascii. Qed.

(** ** The decimal writing of a number *)

Lemma pretty_N_char_digit (x : N) : is_digit (pretty_N_char x) = true.
Proof. unfold pretty_N_char. repeat case_match; reflexivity. Qed.

Lemma pretty_N_go_digits (x : N) :
  forall s, digits (chars s) -> digits (chars (pretty_N_go x s)).
Proof.
  induction (N.lt_wf_0 x) as [x _ IH]. intros s Hs.
  destruct (N.eq_0_gt_0_cases x) as [->|Hpos]; [now rewrite pretty_N_go_0|].
  rewrite pretty_N_go_step by assumption. apply IH.
  - now apply N.div_lt.
  - simpl. constructor; [apply pretty_N_char_digit | assumption].
Qed.

Lemma pretty_N_go_app (x : N) :
  forall s, chars (pretty_N_go x s) = chars (pretty_N_go x "") ++ chars s.
Proof.
  induction (N.lt_wf_0 x) as [x _ IH]. intros s.
  destruct (N.eq_0_gt_0_cases x) as [->|Hpos]; [now rewrite !pretty_N_go_0|].
  rewrite (pretty_N_go_step x s), (pretty_N_go_step x "") by assumption.
  assert (Hlt : (x `div` 10 < x)%N) by now apply N.div_lt.
  set (c := pretty_N_char (x `mod` 10)).
  rewrite (IH _ Hlt (String c s)), (IH _ Hlt (String c "")).
  simpl. now rewrite <- app_assoc.
Qed.

Lemma pretty_N_digits (x : N) : digits (chars (pretty x)).
Proof.
  unfold pretty, pretty_N. case_decide.
  - repeat constructor.
  - apply pretty_N_go_digits. constructor.
Qed.

(** The last digit of a number of two digits or more. *)
Lemma pretty_N_last (x : N) :
  (10 <= x)%N ->
  chars (pretty x) =
    chars (pretty (x `div` 10)%N) ++ [pretty_N_char (x `mod` 10)].
Proof.
  intros Hx. unfold pretty, pretty_N.
  assert (Hq : (0 < x `div` 10)%N) by (apply N.div_str_pos; lia).
  repeat case_decide; try lia.
  rewrite pretty_N_go_step by lia. now rewrite pretty_N_go_app.
Qed.

Lemma pretty_N_single (x : N) :
  (x < 10)%N -> chars (pretty x) = [pretty_N_char x].
Proof.
  intros Hx. unfold pretty, pretty_N. case_decide as H0; [now subst|].
  rewrite pretty_N_go_step by lia.
  rewrite N.div_small, N.mod_small by lia. now rewrite pretty_N_go_0.
Qed.

Lemma pretty_Z_N (z : Z) : 0 <= z -> pretty z = pretty (Z.to_N z).
Proof. destruct z; [reflexivity | reflexivity | lia]. Qed.


Lemma pretty_N_nonempty (x : N) : chars (pretty x) <> [].
Proof.
  destruct (N.lt_ge_cases x 10) as [Hlt|Hge].
  - now rewrite pretty_N_single.
  - rewrite pretty_N_last by assumption. intros Hnil.
    apply app_eq_nil in Hnil as [_ ?]. discriminate.
Qed.

(** The last three digits of a number of four digits or more. *)
Lemma pretty_N_thousands (x : N) :
  (1000 <= x)%N ->
  chars (pretty x) =
    chars (pretty (x `div` 1000)%N)
    ++ [pretty_N_char ((x `mod` 1000) `div` 100);
        pretty_N_char (((x `mod` 1000) `div` 10) `mod` 10);
        pretty_N_char ((x `mod` 1000) `mod` 10)].
Proof.
  intros Hx.
  assert (H1 : (100 <= x `div` 10)%N) by (apply N.div_le_lower_bound; lia).
  assert (H2 : (10 <= (x `div` 10) `div` 10)%N)
    by (apply N.div_le_lower_bound; lia).
  rewrite (pretty_N_last x), (pretty_N_last (x `div` 10)),
    (pretty_N_last ((x `div` 10) `div` 10)) by lia.
  rewrite <- !app_assoc. simpl.
  replace (((x `div` 10) `div` 10) `div` 10)%N with (x `div` 1000)%N
    by (rewrite !N.Div0.div_div; reflexivity).
  do 2 f_equal; [|f_equal]; f_equal;
    try apply (f_equal pretty_N_char);
    zify; Z.to_euclidean_division_equations; lia.
Qed.

(** ** The replacement *)

Lemma is_digit_word c : is_digit c = true -> is_word c = true.
Proof. unfold is_word. now intros ->. Qed.

Lemma digit_run_digits s : digits s -> digit_run s = length s.
Proof.
  induction 1 as [|c s Hc _ IH]; [reflexivity|]. simpl. now rewrite Hc, IH.
Qed.

Lemma digit_run_app s t :
  digits s -> digit_run (s ++ t) = (length s + digit_run t)%nat.
Proof.
  induction 1 as [|c s Hc _ IH]; [reflexivity|]. simpl. now rewrite Hc, IH.
Qed.

(** Three more digits at the end of a run of digits put one more comma,
    before them. *)
Lemma replace_separators_app3 t :
  digits t -> length t = 3%nat ->
  forall s prev,
    digits s ->
    s <> [] \/ word_at prev = true ->
    replace_separators prev (s ++ t) =
      replace_separators prev s ++ "," % char :: t.
Proof.
  intros Ht Hlen. induction s as [|d s IH]; intros prev Hs Hne.
  - destruct Hne as [?|Hprev]; [congruence|].
    destruct t as [|a [|b [|c [|? ?]]]]; try discriminate.
    inversion Ht as [|? ? Ha Ht1]; subst. inversion Ht1 as [|? ? Hb Ht2]; subst.
    inversion Ht2 as [|? ? Hc _]; subst.
    simpl. unfold separator_here. simpl.
    rewrite Hprev, Ha, Hb, Hc, (is_digit_word a Ha), (is_digit_word b Hb),
      (is_digit_word c Hc). reflexivity.
  - inversion Hs as [|? ? Hd Hs']; subst.
    change ((d :: s) ++ t) with (d :: (s ++ t)).
    simpl replace_separators.
    rewrite (IH (Some d) Hs' (or_intror (is_digit_word d Hd))).
    assert (Hsep : separator_here prev (d :: s ++ t)
                   = separator_here prev (d :: s)).
    { unfold separator_here. f_equal; [f_equal|].
      - simpl. rewrite Hd. reflexivity.
      - change (d :: s ++ t) with ((d :: s) ++ t).
        rewrite digit_run_app by assumption.
        rewrite (digit_run_digits t Ht), Hlen.
        rewrite (digit_run_digits (d :: s) Hs).
        replace (length (d :: s) + 3)%nat
          with (length (d :: s) + 1 * 3)%nat by lia.
        now rewrite Nat.Div0.mod_add. }
    rewrite Hsep. now rewrite <- app_assoc.
Qed.

(** Up to three digits get no comma. *)
Lemma replace_separators_short s :
  digits s -> (length s <= 3)%nat -> replace_separators None s = s.
Proof.
  intros Hs Hlen.
  destruct s as [|a [|b [|c [|? ?]]]]; simpl in Hlen; try lia;
    repeat match goal with
           | H : digits (_ :: _) |- _ => inversion H; subst; clear H
           end;
    simpl; unfold separator_here; simpl;
    repeat match goal with
           | H : is_digit ?c = true |- _ =>
               rewrite ?H, ?(is_digit_word c H); clear H
           end; reflexivity.
Qed.

(** A minus sign in front is kept in front. *)
Lemma replace_separators_minus s :
  replace_separators None ("-" % char :: s) =
    "-" % char :: replace_separators None s.
Proof. destruct s; reflexivity. Qed.

Lemma filter_replace_separators s :
  forall prev,
    filter (fun c => c <> "," % char) (replace_separators prev s) =
    filter (fun c => c <> "," % char) s.
Proof.
  induction s as [|c s IH]; intros prev; simpl;
    destruct (separator_here prev _); simpl; try reflexivity.
  - rewrite filter_cons_False by (intros Hc; now apply Hc).
    rewrite !filter_cons. now rewrite IH.
  - rewrite !filter_cons. now rewrite IH.
Qed.

Lemma filter_digits s :
  digits s -> filter (fun c => c <> "," % char) s = s.
Proof.
  induction 1 as [|c s Hc _ IH]; [reflexivity|].
  rewrite filter_cons_True; [now rewrite IH|].
  intros ->. discriminate.
Qed.


Lemma pretty_N_length_small (x : N) :
  (x < 1000)%N -> (length (chars (pretty x)) <= 3)%nat.
Proof.
  intros Hx. destruct (N.lt_ge_cases x 10) as [H1|H1].
  { rewrite pretty_N_single by assumption. simpl. lia. }
  rewrite pretty_N_last by assumption. rewrite length_app. simpl.
  assert (Hq : (x `div` 10 < 100)%N) by (apply N.Div0.div_lt_upper_bound; lia).
  destruct (N.lt_ge_cases (x `div` 10) 10) as [H2|H2].
  { rewrite pretty_N_single by assumption. simpl. lia. }
  rewrite pretty_N_last by assumption. rewrite length_app. simpl.
  rewrite pretty_N_single; [simpl; lia|].
  apply N.Div0.div_lt_upper_bound. lia.
Qed.

(** X17.  [formatGas] writes a number with a comma before every group of
    three digits: a number below 1000 is written as it is, a number from
    1000 on is its thousands, formatted, then a comma and its last three
    digits, and a negative number is the minus sign and the format of its
    absolute value. *)
Theorem formatGas_thousands (gas : Z) :
  (0 <= gas < 1000 -> formatGas gas = pretty gas) /\
  (1000 <= gas ->
   formatGas gas =
     formatGas (gas / 1000) +:+ "," +:+ three_digits (gas mod 1000)) /\
  (gas < 0 -> formatGas gas = "-" +:+ formatGas (- gas)).
Proof.
  split; [|split].
  - intros Hgas. apply chars_inj. rewrite chars_formatGas.
    rewrite pretty_Z_N by lia. apply replace_separators_short.
    + apply pretty_N_digits.
    + apply pretty_N_length_small. lia.
  - intros Hgas. apply chars_inj.
    rewrite chars_app, !chars_formatGas.
    rewrite (pretty_Z_N gas), (pretty_Z_N (gas / 1000))
      by (try apply Z.div_pos; lia).
    rewrite pretty_N_thousands by lia.
    rewrite Z2N.inj_div by lia. change (Z.to_N 1000) with 1000%N.
    rewrite replace_separators_app3.
    + f_equal. unfold three_digits.
      change (chars ("," +:+ ?t)) with ("," % char :: chars t). simpl.
      do 2 f_equal; [|f_equal]; f_equal;
        try apply (f_equal pretty_N_char);
        zify; Z.to_euclidean_division_equations; lia.
    + repeat constructor; apply pretty_N_char_digit.
    + reflexivity.
    + apply pretty_N_digits.
    + left. apply pretty_N_nonempty.
  - intros Hgas. destruct gas as [|p|p]; try lia.
    apply chars_inj. rewrite chars_app, !chars_formatGas.
    change (pretty (Z.neg p)) with ("-" +:+ pretty (Z.pos p)).
    change (- Z.neg p) with (Z.pos p).
    change (chars ("-" +:+ ?t)) with ("-" % char :: chars t).
    rewrite replace_separators_minus. reflexivity.
Qed.

(** X18.  [formatGas] only adds commas: without them the result is the
    decimal writing of the number. *)
Theorem formatGas_remove_commas (gas : Z) :
  remove_commas (formatGas gas) = pretty gas.
Proof.
  apply chars_inj. unfold remove_commas.
  rewrite String.list_ascii_of_string_of_list_ascii, chars_formatGas.
  rewrite filter_replace_separators.
  destruct gas as [|p|p].
  - reflexivity.
  - apply filter_digits. apply (pretty_N_digits (N.pos p)).
  - change (pretty (Z.neg p)) with ("-" +:+ pretty (N.pos p)).
    change (chars ("-" +:+ ?t)) with ("-" % char :: chars t).
    rewrite filter_cons_True by discriminate.
    f_equal. apply filter_digits. apply pretty_N_digits.
Qed.

End FormatFacts.


(** * Concrete runs *)

(** C1.  The cap is missing on the [catch] path: when the first price
    request fails and the second answers 30 gwei, the result is 30 gwei,
    above the configured maximum of 20 gwei. *)
Lemma getOptimalGasPrice_fallback_exceeds_cap :
  fst (getOptimalGasPrice (fresh flaky no_options)) = ok 30000000000 /\
  maxGasPrice (options (this (fresh flaky no_options))) = 20000000000 /\
  ~ (30000000000 <= 20000000000).
Proof. repeat split. lia. Qed.

Example getOptimalGasPrice_capped_half_full :
  exists v w',
    getOptimalGasPrice (fresh half_full no_options) = (ok v, w') /\
    0 <= v <= maxGasPrice (options (this (fresh half_full no_options))).
Proof.
  apply (getOptimalGasPrice_capped (fresh half_full no_options) (gwei 12)
           {| prices := []; blocks := blocks half_full;
              simulate := simulate half_full |}).
  - reflexivity.
  - vm_compute. discriminate.
  - vm_compute. discriminate.
Defined.

(** C2, the claim as stated fails: at base price 1 and congestion 1 (a full
    block) the adjusted price is 1, not 1.2. *)
Lemma adjustedGasPrice_not_exact :
  (8 # 10 < 1)%Q /\
  adjustedGasPrice 1 1 = ok 1 /\
  ~ (inject_Z 1 == inject_Z 1 * (120 # 100))%Q.
Proof. repeat split. unfold Qeq. simpl. lia. Qed.

Lemma adjustedGasPrice_truncates_witness :
  adjustedGasPrice 7 (9 # 10) = ok 8 /\
  adjustedGasPrice 7 (1 # 10) = ok 6 /\
  adjustedGasPrice 7 (1 # 2) = ok 7.
Proof.
  destruct (adjustedGasPrice_truncates 7 (9 # 10)) as (Hhigh & _).
  destruct (adjustedGasPrice_truncates 7 (1 # 10)) as (_ & Hlow & _).
  destruct (adjustedGasPrice_truncates 7 (1 # 2)) as (_ & _ & Hmid & _).
  split; [|split].
  - apply Hhigh. reflexivity.
  - apply Hlow. reflexivity.
  - apply Hmid; discriminate.
Defined.

(** C3, the claim as stated fails: with a buffer of 1.125 and a raw estimate
    of 1000 the result is 1120, while floor(1000 * 1.125) is 1125; both
    products are exact in doubles. *)
Lemma estimateGasWithBuffer_not_floor :
  (1 <=? 1.125)%float = true /\
  fst (estimateGasWithBuffer ∅ (fresh (simulating 1000) (with_gasBuffer 1.125)))
    = ok 1120 /\
  BigNumber.from_number (Math_floor (1000 * 1.125)%float) = ok 1125.
Proof. repeat split. Qed.

Lemma estimateGasWithBuffer_percent_witness :
  exists w',
    estimateGasWithBuffer ∅ (fresh (simulating 21000) no_options) =
      (ok 23100, w') /\
    21000 <= 23100.
Proof.
  destruct (estimateGasWithBuffer_percent
              (fresh (simulating 21000) no_options) ∅ 21000 (simulating 21000))
    as [(k & w' & Hk & _ & Hrun & Hle & _)|(w' & Hover & _)].
  - reflexivity.
  - lia.
  - reflexivity.
  - vm_compute in Hk. injection Hk as <-.
    exists w'. split; [exact Hrun | exact Hle].
  - vm_compute in Hover. discriminate.
Defined.

(** The buffer in whole percent is the floor of a product of doubles: 1.15
    gives 114 and 1.4 gives 140; a buffer of 10^14, or of -10^14, is more
    than [mul] takes. *)
Example percent_of_doubles :
  percent 1.1 = ok 110 /\
  percent 1.15 = ok 114 /\
  percent 1.4 = ok 140 /\
  percent 1e14 = throw (NumericFault "overflow") /\
  percent (-1e14) = throw (NumericFault "overflow") /\
  fst (estimateGasWithBuffer ∅ (fresh (simulating 1000) (with_gasBuffer 1.15)))
    = ok 1140 /\
  fst (estimateGasWithBuffer ∅ (fresh (simulating 1000) (with_gasBuffer 1e14)))
    = throw (NumericFault "overflow").
Proof. repeat split. Qed.

Lemma batchTransactions_keeps_order_witness :
  exists batches results w' rounds outs,
    make_batches 4 [∅; transfer; ∅] 2 0 [] = Some batches /\
    batchTransactions 4 [[1; 0; 1]; [0]]%nat [∅; transfer; ∅]
      (fresh metered (with_batchSize 2)) = Some (ok results, w') /\
    length results = 3%nat /\
    Forall2 annotated [∅; transfer; ∅] results /\
    Forall3 (round_of (options (this (fresh metered (with_batchSize 2)))) 110)
      batches rounds outs /\
    results = concat outs /\
    calls (provider (this w')) = concat rounds.
Proof.
  destruct (batchTransactions_keeps_order
              (fresh metered (with_batchSize 2))
              [∅; transfer; ∅] 4 [[1; 0; 1]; [0]]%nat 110)
    as (batches & results & w' & Hb & _ & _ & Hrun & Hlen & Hann &
        (rounds & outs & Hrounds & Hres & Hcalls) & _).
  - simpl. lia.
  - simpl. lia.
  - intros s. eexists _, _. reflexivity.
  - repeat constructor; intros s; eexists _, _; reflexivity.
  - reflexivity.
  - exists batches, results, w', rounds, outs.
    split; [exact Hb|]. split; [exact Hrun|]. split; [exact Hlen|].
    split; [exact Hann|]. split; [exact Hrounds|].
    split; [exact Hres | exact Hcalls].
Defined.

(** The callbacks of a group are all started before any of them is
    resumed: against the provider that numbers its calls, the two price
    requests of the first group come first, whatever the schedule, and the
    limits that the transactions get depend on the order in which the
    callbacks are resumed. *)
Example batchTransactions_interleaves :
  let outcome schedules :=
    match batchTransactions 4 schedules [∅; transfer; ∅]
            (fresh metered (with_batchSize 2)) with
    | Some (ok results, w') =>
        (take 2 (calls (provider (this w'))),
         flat_map (fun o => option_list (o !! "gasLimit")) results)
    | _ => ([], [])
    end in
  outcome [[1; 0; 1]; [0]]%nat =
    ([XGasPrice (ok 10); XGasPrice (ok 11)],
     [VBigNumber 23104; VBigNumber 23105; VBigNumber 23108]) /\
  outcome [] =
    ([XGasPrice (ok 10); XGasPrice (ok 11)],
     [VBigNumber 23103; VBigNumber 23105; VBigNumber 23108]).
Proof. split; vm_compute; reflexivity. Qed.

Lemma zero_gasLimit_medium_tier_witness :
  fst (getOptimalGasPrice (fresh zero_limit no_options)) = ok 12000000000.
Proof.
  destruct (zero_gasLimit_medium_tier (fresh zero_limit no_options) (gwei 12)
              {| prices := []; blocks := blocks zero_limit;
                 simulate := simulate zero_limit |}
              {| gasUsed := 0; gasLimit := 0 |}
              {| prices := []; blocks := []; simulate := simulate zero_limit |})
    as (_ & _ & _ & _ & Hbase).
  - reflexivity.
  - reflexivity.
  - reflexivity.
  - apply Hbase. vm_compute. discriminate.
Defined.

(** C6, the claim as stated fails: when every price request fails, the
    failure reaches the caller. *)
Lemma getOptimalGasPrice_propagates_failure :
  fst (getOptimalGasPrice (fresh down no_options)) = throw (RpcError "timeout").
Proof. reflexivity. Qed.

Lemma getOptimalGasPrice_fallback_witness :
  (exists w',
     getOptimalGasPrice (fresh blockless no_options) = (ok 12000000000, w') /\
     console w' =
       [{| log_message := "Error calculating network congestion:";
           log_error := RpcError "timeout" |}]) /\
  (exists w',
     getOptimalGasPrice (fresh flaky no_options) = (ok 30000000000, w') /\
     console w' =
       [{| log_message := "Error getting optimal gas price:";
           log_error := RpcError "timeout" |}]).
Proof.
  split.
  - destruct (proj1 (getOptimalGasPrice_fallback (fresh blockless no_options))
                (gwei 12)
                {| prices := []; blocks := blocks blockless;
                   simulate := simulate blockless |}
                (throw (RpcError "timeout"))
                {| prices := []; blocks := []; simulate := simulate blockless |})
      as (w' & _ & Hrun & _ & Hlog).
    + reflexivity.
    + reflexivity.
    + exact I.
    + exists w'. split; [exact Hrun | exact Hlog].
  - destruct (proj2 (getOptimalGasPrice_fallback (fresh flaky no_options))
                (RpcError "timeout")
                {| prices := [ok (gwei 30)]; blocks := [];
                   simulate := simulate flaky |}
                (ok (gwei 30))
                {| prices := []; blocks := []; simulate := simulate flaky |})
      as (w' & Hrun & _ & Hlog).
    + reflexivity.
    + reflexivity.
    + exists w'. split; [exact Hrun | exact Hlog].
Defined.

Lemma estimateGasWithBuffer_surfaces_failure_witness :
  exists w',
    estimateGasWithBuffer ∅ (fresh down no_options) =
      (throw (RpcError "execution reverted"), w') /\
    gasHistory (this w') = [].
Proof.
  destruct (estimateGasWithBuffer_surfaces_failure (fresh down no_options) ∅
              (RpcError "execution reverted") down)
    as (w' & Hrun & _ & Hhist & _).
  - reflexivity.
  - exists w'. split; [exact Hrun | exact Hhist].
Defined.

(** C8, the claim as stated fails: a buffer of 0.5 and a batch size of 0
    are accepted; the engine built with the buffer prices a raw estimate of
    1000 at 500, and the one built with the batch size never finishes a
    batch of one transaction. *)
Lemma constructor_accepts_invalid_options :
  gasBuffer (options (constructor (simulating 1000) (with_gasBuffer 0.5)))
    = 0.5%float /\
  fst (estimateGasWithBuffer ∅
         (fresh (simulating 1000) (with_gasBuffer 0.5))) = ok 500 /\
  batchSize (options (constructor (simulating 1000) (with_batchSize 0))) = 0 /\
  forall fuel schedules,
    batchTransactions fuel schedules [∅]
      (fresh (simulating 1000) (with_batchSize 0)) = None.
Proof.
  repeat split. intros fuel schedules. unfold batchTransactions.
  change (batchSize _) with 0.
  now rewrite (make_batches_diverges [∅] 0) by (simpl; lia).
Qed.

(** C9, the claim as stated fails: for the two records (1, 1) and (2, 2)
    the reported raw average is 1, while the mean raw estimate is 3/2. *)
Lemma getGasStats_not_mean :
  getGasStats (with_history down [(1, 1); (2, 2)]) = Stats 2 1 1 "0.00%" /\
  ((1 + 2) / 2)%float = 1.5%float /\
  (1 =? 1.5)%float = false.
Proof. repeat split. Qed.

Lemma getGasStats_floor_means_witness :
  getGasStats (with_history down []) = NoHistory "No gas history available" /\
  getGasStats (with_history down [(21000, 23100); (13, 14)]) =
    Stats 2 10506 11557 "10.00%" /\
  getGasStats (with_history down [(0, 0)]) = Stats 1 0 0 "NaN%".
Proof.
  split; [|split].
  - apply (proj1 (getGasStats_floor_means (with_history down []))).
    reflexivity.
  - destruct (proj2 (getGasStats_floor_means
                       (with_history down [(21000, 23100); (13, 14)])))
      as (_ & efficiency & Hrun & Heff & _).
    + discriminate.
    + rewrite Hrun, Heff. reflexivity.
  - destruct (proj2 (getGasStats_floor_means (with_history down [(0, 0)])))
      as (_ & efficiency & Hrun & _ & Hnan).
    + discriminate.
    + rewrite Hrun, Hnan; [reflexivity|].
      repeat constructor.
Defined.

(** The statistics are computed on doubles: the efficiency of the three
    records below is written 9.87, and a raw estimate of 2^53 + 1 is read
    as 2^53. *)
Example getGasStats_of_doubles :
  getGasStats (with_history down [(354, 389); (374, 411); (72, 79)]) =
    Stats 3 266 293 "9.87%" /\
  getGasStats (with_history down [(9007199254740993, 9007199254740993)]) =
    Stats 1 9007199254740992 9007199254740992 "0.00%" /\
  getGasStats (with_history down [(0, 5)]) = Stats 1 0 5 "Infinity%".
Proof. repeat split. Qed.

Lemma integer_congestion_ratio_witness :
  exists c,
    fst (getNetworkCongestion (fresh half_full no_options)) = ok c /\
    congestionTier c = Low.
Proof.
  destruct (proj1 (integer_congestion_ratio (fresh half_full no_options))
              {| gasUsed := 15000000; gasLimit := 30000000 |}
              {| prices := prices half_full; blocks := [];
                 simulate := simulate half_full |})
    as (c & Hrun & _ & Hpart & _).
  - reflexivity.
  - simpl. lia.
  - simpl. lia.
  - exists c. split; [now rewrite Hrun|].
    destruct Hpart as (_ & Hlow & _); [simpl; lia | exact Hlow].
Defined.


(** * Further concrete runs *)

Lemma batchTransactions_history_witness :
  exists out w' new,
    batchTransactions 4 [[0; 1]; []]%nat [∅; transfer; ∅]
      (fresh 0%nat (with_batchSize 2)) = Some (out, w') /\
    grows_by (fresh 0%nat (with_batchSize 2)) w' new /\
    (length new <= 3)%nat.
Proof.
  set (w := fresh 0%nat (with_batchSize 2)).
  set (run := batchTransactions 4 [[0; 1]; []]%nat [∅; transfer; ∅] w).
  assert (Hrun : run = Some (default (ok [], w) run))
    by exact (eq_refl run <: run = Some (default (ok [], w) run)).
  destruct (default (ok [], w) run) as [out w'].
  destruct (batchTransactions_history w [∅; transfer; ∅] 4 [[0; 1]; []]%nat
              out w')
    as (new & Hg & Hle & _).
  - simpl. lia.
  - exact Hrun.
  - exists out, w', new. split; [exact Hrun|]. split; [exact Hg | exact Hle].
Defined.

Lemma batchTransactions_all_or_nothing_witness :
  exists e w',
    batchTransactions 4 [[1; 1; 0]]%nat [transfer; ∅; transfer]
      (fresh gatekeeper (with_batchSize 2)) = Some (throw e, w').
Proof.
  apply (batchTransactions_all_or_nothing
           (fresh gatekeeper (with_batchSize 2)) [transfer; ∅; transfer] 4
           [[1; 1; 0]]%nat ∅).
  - simpl. lia.
  - simpl. lia.
  - apply elem_of_cons. right. apply elem_of_cons. now left.
  - intros s. eexists _, _. reflexivity.
Defined.

Lemma batchTransactions_nonpositive_batchSize_witness :
  batchTransactions 1 [] [] (fresh gatekeeper (with_batchSize 0)) =
    Some (ok [], fresh gatekeeper (with_batchSize 0)) /\
  batchTransactions 100 [] [transfer] (fresh gatekeeper (with_batchSize 0))
    = None.
Proof.
  destruct (batchTransactions_nonpositive_batchSize
              (fresh gatekeeper (with_batchSize 0)) [] [])
    as (Hempty & _); [simpl; lia|].
  destruct (batchTransactions_nonpositive_batchSize
              (fresh gatekeeper (with_batchSize 0)) [transfer] [])
    as (_ & Hloop); [simpl; lia|].
  split; [apply (Hempty eq_refl 0%nat) | apply Hloop; discriminate].
Defined.

Lemma getOptimalGasPrice_within_tiers_witness :
  exists v w',
    getOptimalGasPrice (fresh half_full no_options) = (ok v, w') /\
    v <= 12000000000 * 120 / 100.
Proof.
  destruct (getOptimalGasPrice_within_tiers (fresh half_full no_options)
              (gwei 12)
              {| prices := []; blocks := blocks half_full;
                 simulate := simulate half_full |})
    as (v & w' & Hrun & Hle & _).
  - reflexivity.
  - vm_compute. discriminate.
  - exists v, w'. split; [exact Hrun | exact Hle].
Defined.

Lemma calculateTxCost_bounded_witness :
  exists v w',
    getOptimalGasPrice (fresh half_full no_options) = (ok v, w') /\
    GasUtils.calculateTxCost 21000 v <= 21000 * 20000000000.
Proof.
  apply (calculateTxCost_bounded (fresh half_full no_options) (gwei 12)
           {| prices := []; blocks := blocks half_full;
              simulate := simulate half_full |} 21000).
  - reflexivity.
  - lia.
Defined.

Lemma optimizeContractCall_shape_witness :
  exists o w',
    optimizeContractCall transfer (fresh gatekeeper no_options) = (ok o, w') /\
    o !! "to" = Some (VString "0xa") /\
    o !! "type" = Some (VNumber 2).
Proof.
  set (run := optimizeContractCall transfer (fresh gatekeeper no_options)).
  set (o := match fst run with ok o => o | throw _ => ∅ end).
  assert (Hrun : run = (ok o, snd run))
    by exact (eq_refl run <: run = (ok o, snd run)).
  destruct (optimizeContractCall_shape transfer (fresh gatekeeper no_options)
              o (snd run) Hrun)
    as (gp & gl & r & _ & _ & _ & Htype & _ & Hkeep & _).
  exists o, (snd run).
  split; [exact Hrun|]. split; [|exact Htype].
  rewrite Hkeep; [reflexivity|].
  rewrite !elem_of_cons, elem_of_nil. intros [?|[?|[?|[?|[?|[]]]]]]; discriminate.
Defined.

Lemma optimizeContractCall_tip_above_fee_witness :
  exists o w' fee tip,
    optimizeContractCall transfer (fresh cheap no_options) = (ok o, w') /\
    o !! "maxFeePerGas" = Some (VBigNumber fee) /\
    o !! "maxPriorityFeePerGas" = Some (VBigNumber tip) /\
    fee < tip.
Proof.
  set (run := optimizeContractCall transfer (fresh cheap no_options)).
  set (o := match fst run with ok o => o | throw _ => ∅ end).
  assert (Hrun : run = (ok o, snd run))
    by exact (eq_refl run <: run = (ok o, snd run)).
  destruct (optimizeContractCall_tip_above_fee transfer
              (fresh cheap no_options) 1000000
              {| prices := []; blocks := blocks cheap;
                 simulate := simulate cheap |} o (snd run))
    as (fee & tip & Hfee & Htip & Hlt).
  - reflexivity.
  - lia.
  - lia.
  - exact Hrun.
  - exists o, (snd run), fee, tip. auto.
Defined.

Lemma optimizeContractCall_rejected_witness :
  exists e w',
    optimizeContractCall ∅ (fresh gatekeeper no_options) = (throw e, w') /\
    gasHistory (this w') = [].
Proof.
  destruct (optimizeContractCall_rejected ∅ (fresh gatekeeper no_options))
    as (e & w' & Hrun & _ & Hhist & _).
  - intros s. eexists _, _. reflexivity.
  - exists e, w'. split; [exact Hrun | exact Hhist].
Defined.

Lemma getGasStats_last_ten_witness :
  exists avgEstimated avgBuffered efficiency,
    getGasStats
      (with_gasHistory (constructor gatekeeper no_options)
         (replicate 10 {| timestamp := 0; estimated := 100; buffered := 110 |}))
      = Stats 10 avgEstimated avgBuffered efficiency /\
    getGasStats
      (with_gasHistory (constructor gatekeeper no_options)
         ([{| timestamp := 0; estimated := 5; buffered := 5 |}]
          ++ replicate 10 {| timestamp := 0; estimated := 100; buffered := 110 |}))
      = Stats 11 avgEstimated avgBuffered efficiency.
Proof.
  apply (getGasStats_last_ten (constructor gatekeeper no_options)
           [{| timestamp := 0; estimated := 5; buffered := 5 |}]
           (replicate 10 {| timestamp := 0; estimated := 100; buffered := 110 |})).
  reflexivity.
Defined.

Lemma clearHistory_resets_witness :
  getGasStats
    (this (snd (clearHistory
                  {| this := with_history gatekeeper [(21000, 23100)];
                     console := []; clock := 7 |})))
  = NoHistory "No gas history available" /\
  exists w1 : World Gatekeeper,
    gasHistory (this w1) =
      [{| timestamp := 7; estimated := 21000; buffered := 23100 |}] /\
    exists avgEstimated avgBuffered efficiency,
      getGasStats (this w1) = Stats 1 avgEstimated avgBuffered efficiency.
Proof.
  destruct (clearHistory_resets
              {| this := with_history gatekeeper [(21000, 23100)];
                 console := []; clock := 7 |}
              transfer 21000 gatekeeper 23100
              (snd (estimateGasWithBuffer transfer
                      (snd (clearHistory
                              {| this := with_history gatekeeper [(21000, 23100)];
                                 console := []; clock := 7 |})))))
    as (Hstats & _ & _ & Hhist & Hone).
  - reflexivity.
  - reflexivity.
  - split; [exact Hstats|]. eexists. split; [exact Hhist | exact Hone].
Defined.

Lemma estimateGasWithBuffer_underfunds_witness :
  exists b w',
    estimateGasWithBuffer transfer (fresh gatekeeper (with_gasBuffer 0.5))
      = (ok b, w') /\
    b < 21000.
Proof.
  apply (estimateGasWithBuffer_underfunds
           (fresh gatekeeper (with_gasBuffer 0.5)) transfer 21000 gatekeeper 50).
  - reflexivity.
  - lia.
  - reflexivity.
  - lia.
Defined.

Lemma estimateGasWithBuffer_default_buffer_witness :
  fst (estimateGasWithBuffer transfer (fresh gatekeeper no_options)) = ok 23100.
Proof.
  apply (estimateGasWithBuffer_default_buffer gatekeeper no_options transfer
           21000 gatekeeper).
  - reflexivity.
  - reflexivity.
  - lia.
Defined.

Lemma make_batches_rounds_witness :
  exists batches,
    make_batches 26 (replicate 25 transfer) 10 0 [] = Some batches /\
    Z.of_nat (length batches) = 3.
Proof.
  apply (make_batches_rounds (replicate 25 transfer) 10 26).
  - lia.
  - simpl. lia.
Defined.

Lemma history_invariant_witness :
  exists w',
    perform_all
      [CallEstimateGasWithBuffer transfer; CallGetOptimalGasPrice;
       CallClearHistory; CallOptimizeContractCall transfer;
       CallBatchTransactions 5 [[1; 0]%nat] [transfer; ∅]]
      (fresh gatekeeper no_options) = Some w' /\
    options (this w') = options (this (fresh gatekeeper no_options)) /\
    Forall (record_ok (options (this (fresh gatekeeper no_options))))
      (gasHistory (this w')).
Proof.
  destruct (perform_all
              [CallEstimateGasWithBuffer transfer; CallGetOptimalGasPrice;
               CallClearHistory; CallOptimizeContractCall transfer;
               CallBatchTransactions 5 [[1; 0]%nat] [transfer; ∅]]
              (fresh gatekeeper no_options)) as [w'|] eqn:Hrun;
    [|exfalso; revert Hrun; vm_compute; discriminate].
  exists w'. split; [reflexivity|].
  refine (history_invariant _ (fresh gatekeeper no_options) w' _ Hrun).
  constructor.
Defined.

Lemma history_append_only_witness :
  exists w' new,
    perform_all
      [CallEstimateGasWithBuffer transfer; CallGetOptimalGasPrice;
       CallEstimateGasWithBuffer ∅; CallGetGasStats]
      {| this := with_history gatekeeper [(21000, 23100)];
         console := []; clock := 0 |} = Some w' /\
    gasHistory (this w') =
      gasHistory (with_history gatekeeper [(21000, 23100)]) ++ new.
Proof.
  destruct (perform_all
              [CallEstimateGasWithBuffer transfer; CallGetOptimalGasPrice;
               CallEstimateGasWithBuffer ∅; CallGetGasStats]
              {| this := with_history gatekeeper [(21000, 23100)];
                 console := []; clock := 0 |}) as [w'|] eqn:Hrun;
    [|exfalso; revert Hrun; vm_compute; discriminate].
  assert (Hnc : never_clears
                  [CallEstimateGasWithBuffer transfer; CallGetOptimalGasPrice;
                   CallEstimateGasWithBuffer ∅; CallGetGasStats])
    by (repeat constructor; discriminate).
  destruct (history_append_only _ _ w' Hnc Hrun) as (new & Hnew).
  exists w', new. split; [reflexivity | exact Hnew].
Defined.

Lemma formatGas_thousands_witness :
  GasUtils.formatGas 999 = "999" /\
  GasUtils.formatGas 1234567 = GasUtils.formatGas 1234 +:+ ",567" /\
  GasUtils.formatGas (-21000) = "-" +:+ GasUtils.formatGas 21000.
Proof.
  destruct (formatGas_thousands 999) as (Hsmall & _).
  destruct (formatGas_thousands 1234567) as (_ & Hbig & _).
  destruct (formatGas_thousands (-21000)) as (_ & _ & Hneg).
  split; [|split].
  - apply Hsmall. lia.
  - apply Hbig. lia.
  - apply Hneg. lia.
Defined.
